(** * Opinionated CDK wrapper constructs: a shallow embedding

    The constructs of the library (data-protection policy, Bucket,
    AccessLogsBucket, SQSQueue, SnsTopic, DynamoDBTable, the load balancer,
    the two Fargate services and the relay sidecar) are straight-line
    default-resolution functions over configuration records.  Each
    constructor is embedded as a function from its props record to an
    [outcome]: either the value it builds or the [Error] it throws.

    Conventions used throughout:
    - an optional property [p?: T] is [option T]; [None] is [undefined],
      what reading the property gives both when the object does not have it
      and when it has it with the value [undefined].  An object spread
      [{...defaults, ...props}] tells the two apart: a property that [props]
      has with the value [undefined] replaces the default.  The props that
      the constructors spread therefore carry, next to their properties, the
      list [undefinedKeys] of the keys they have with the value [undefined];
      for a key whose property holds a value the list is not consulted;
    - a JavaScript string is a [string], its characters standing for the
      UTF-16 code units (every string the library writes itself is ASCII);
      [.length] is [String.length], and strings are ordered as sequences of
      code units;
    - a JavaScript number is a [Z]: only integral values are represented,
      and they stand for the numbers of JavaScript on the safe integers
      (below [2^53] in absolute value), where sums, differences and
      [toString] are exact; properties that depend on arithmetic are stated
      under that bound;
    - truthiness ([if (x)], [!x], [x || d], [x ? a : b]) is written out with
      [truthy_string] and [truthy_number]; objects are always truthy, so a
      truthiness test on an optional object is a test for [Some];
    - [a ?? d] is [default d a] and [a === undefined] is a match on [None]. *)

From stdpp Require Import base option list sets strings sorting pretty.
From Stdlib Require Import ZArith Lia.

#[local] Set Warnings "-register-all".
Local Open Scope Z_scope.

(* ===================================================================== *)
(** * Part I: definitions                                                 *)
(* ===================================================================== *)

(** ** JavaScript primitives used by the constructs *)
Module Js.

(** A call either returns a value or throws [new Error(msg)].  [Diverges]
    is only produced by the fuel-bounded constructors below when their
    recursion budget is exhausted. *)
Inductive outcome (A : Type) : Type :=
| Returns (a : A)
| Throws (msg : string)
| Diverges.
Global Arguments Returns {A} a.
Global Arguments Throws {A} msg.
Global Arguments Diverges {A}.

Definition bind {A B} (m : outcome A) (k : A → outcome B) : outcome B :=
  match m with
  | Returns a => k a
  | Throws msg => Throws msg
  | Diverges => Diverges
  end.

(** Truthiness of primitives: the empty string and [0] are falsy. *)
Definition truthy_string (s : string) : bool :=
  negb (String.eqb s "").
Definition truthy_number (n : Z) : bool :=
  negb (n =? 0).

(** [x] as a condition, for an optional string / number / boolean. *)
Definition truthy_opt_string (o : option string) : bool :=
  match o with Some s => truthy_string s | None => false end.
Definition truthy_opt_number (o : option Z) : bool :=
  match o with Some n => truthy_number n | None => false end.
Definition truthy_opt_bool (o : option bool) : bool :=
  match o with Some b => b | None => false end.

(** [a || d] on an optional number. *)
Definition or_number (a : option Z) (d : Z) : Z :=
  match a with
  | Some n => if truthy_number n then n else d
  | None => d
  end.

(** [Array.prototype.indexOf]: index of the first strictly-equal element;
    [None] stands for [-1]. *)
Fixpoint indexOf (l : list string) (x : string) : option nat :=
  match l with
  | [] => None
  | y :: l' => if decide (y = x) then Some 0%nat else S <$> indexOf l' x
  end.

(** [l.splice(i, 1)], keeping the array that remains. *)
Definition splice1 (i : nat) (l : list string) : list string :=
  delete i l.

(** [new Set(iterable)]: elements in insertion order, an element already
    present is not added again.  [Array.from] of the set is that list. *)
Definition set_add (s : list string) (x : string) : list string :=
  if decide (x ∈ s) then s else s ++ [x].
Definition Set_from (l : list string) : list string :=
  foldl set_add [] l.

(** [Array.prototype.sort()] without comparator on an array of strings:
    ascending order of code units. *)
Definition sort (l : list string) : list string :=
  merge_sort String.le l.

(** [s.endsWith(suffix)] *)
Definition endsWith (s suffix : string) : bool :=
  let n := String.length s in
  let k := String.length suffix in
  if decide (k ≤ n)%nat
  then String.eqb (String.substring (n - k) k s) suffix
  else false.

(** [s.lastIndexOf(pat)]: the scan starts at [length s - length pat] and
    moves towards index 0; [None] stands for [-1]. *)
Fixpoint lastIndexOf_from (i : nat) (s pat : string) : option nat :=
  if String.eqb (String.substring i (String.length pat) s) pat
  then Some i
  else match i with
       | O => None
       | S i' => lastIndexOf_from i' s pat
       end.
Definition lastIndexOf (s pat : string) : option nat :=
  let n := String.length s in
  let k := String.length pat in
  if decide (k ≤ n)%nat then lastIndexOf_from (n - k) s pat else None.

(** [s.substr(0, n)] and [s.substring(i)] *)
Definition substr0 (n : nat) (s : string) : string :=
  String.substring 0 n s.
Definition substring_from (i : nat) (s : string) : string :=
  String.substring i (String.length s - i) s.

End Js.
Export Js.

(** ** JSON values, for the data-protection policy document *)
Inductive json : Type :=
| JStr (s : string)
| JArr (items : list json)
| JObj (fields : list (string * json)).

(** [obj[key]] and [arr[i]] *)
Definition json_field (key : string) (j : json) : option json :=
  match j with
  | JObj fields => snd <$> find (λ kv, bool_decide (fst kv = key)) fields
  | _ => None
  end.
Definition json_item (i : nat) (j : json) : option json :=
  match j with
  | JArr items => items !! i
  | _ => None
  end.
(** The strings of an array of strings. *)
Definition json_string (j : json) : option string :=
  match j with
  | JStr s => Some s
  | _ => None
  end.
Definition json_strings (j : json) : option (list string) :=
  match j with
  | JArr items => mapM json_string items
  | _ => None
  end.

(** ** cloudwatch-data-protection/data-identifiers.ts *)
Module DataIdentifiers.
Definition ADDRESS_DATA_IDENTIFIER :=
  "arn:aws:dataprotection::aws:data-identifier/Address".
Definition AWS_SECRET_KEY_DATA_IDENTIFIER :=
  "arn:aws:dataprotection::aws:data-identifier/AwsSecretKey".
Definition EMAIL_DATA_IDENTIFIER :=
  "arn:aws:dataprotection::aws:data-identifier/EmailAddress".
Definition SSN_US_DATA_IDENTIFIER :=
  "arn:aws:dataprotection::aws:data-identifier/Ssn-US".
Definition SSN_ES_DATA_IDENTIFIER :=
  "arn:aws:dataprotection::aws:data-identifier/Ssn-ES".
Definition PHONE_NUM_US_DATA_IDENTIFIER :=
  "arn:aws:dataprotection::aws:data-identifier/PhoneNumber-US".

Definition DEFAULT_SENSITIVE_DATA_IDENTIFIERS : list string :=
  [ ADDRESS_DATA_IDENTIFIER;
    EMAIL_DATA_IDENTIFIER;
    SSN_US_DATA_IDENTIFIER;
    SSN_ES_DATA_IDENTIFIER;
    PHONE_NUM_US_DATA_IDENTIFIER;
    AWS_SECRET_KEY_DATA_IDENTIFIER ].
End DataIdentifiers.

(** ** cloudwatch-data-protection/data-protection-policy.ts *)
Module DataProtection.
Import DataIdentifiers.

Record CwDataProtectionPolicyProps : Type := {
  auditLogGroupName : option string;
  addToDefaultDataIdentifiers : option (list string);
  excludeFromDefaultDataIdentifiers : option (list string);
}.

Definition getCloudwatchAuditDestination (auditLogGroupName : string) : json :=
  JObj [("CloudWatchLogs", JObj [("LogGroup", JStr auditLogGroupName)])].

(** One turn of the [forEach] callback that removes an excluded
    identifier: [indexOf], then [splice(index, 1)] unless it is [-1]. *)
Definition excludeOne (dataIdentifiers : list string) (identifier : string)
  : list string :=
  match indexOf dataIdentifiers identifier with
  | Some index => splice1 index dataIdentifiers
  | None => dataIdentifiers
  end.

(** The identifier list as it stands just before the emptiness check. *)
Definition resolveDataIdentifiers (props : CwDataProtectionPolicyProps)
  : list string :=
  let dataIdentifiers := DEFAULT_SENSITIVE_DATA_IDENTIFIERS in
  let dataIdentifiers :=
    dataIdentifiers ++ default [] (addToDefaultDataIdentifiers props) in
  let dataIdentifiers :=
    match excludeFromDefaultDataIdentifiers props with
    | Some excluded => foldl excludeOne dataIdentifiers excluded
    | None => dataIdentifiers
    end in
  sort (Set_from dataIdentifiers).

Definition findingsDestination (props : CwDataProtectionPolicyProps) : json :=
  match auditLogGroupName props with
  | Some name =>
      if truthy_string name then getCloudwatchAuditDestination name
      else JObj []
  | None => JObj []
  end.

Definition policyDocument (dataIdentifiers : list string) (destination : json)
  : json :=
  JObj [
    ("Name", JStr "data-protection-policy");
    ("Description", JStr "Data protection policy for cloudwatch logs");
    ("Version", JStr "2021-06-01");
    ("Statement", JArr [
      JObj [
        ("Sid", JStr "redact-data-protection-policy");
        ("Operation", JObj [("Deidentify", JObj [("MaskConfig", JObj [])])]);
        ("DataIdentifier", JArr (JStr <$> dataIdentifiers)) ];
      JObj [
        ("Sid", JStr "audit-data-protection-policy");
        ("Operation",
          JObj [("Audit", JObj [("FindingsDestination", destination)])]);
        ("DataIdentifier", JArr (JStr <$> dataIdentifiers)) ] ]) ].

Definition cloudwatchDataProtectionPolicy (props : CwDataProtectionPolicyProps)
  : outcome json :=
  let dataIdentifiers := resolveDataIdentifiers props in
  if decide (length dataIdentifiers = 0%nat)
  then Throws "There should be at least one data identifier in the policy."
  else Returns (policyDocument dataIdentifiers (findingsDestination props)).

(** Reading a policy document back: [doc.Statement[i].DataIdentifier] and
    [doc.Statement[1].Operation.Audit.FindingsDestination]. *)
Definition statementOf (i : nat) (doc : json) : option json :=
  json_field "Statement" doc ≫= json_item i.
Definition dataIdentifierOf (i : nat) (doc : json) : option (list string) :=
  (statementOf i doc ≫= json_field "DataIdentifier") ≫= json_strings.
Definition findingsDestinationOf (doc : json) : option json :=
  ((statementOf 1 doc ≫= json_field "Operation") ≫= json_field "Audit")
    ≫= json_field "FindingsDestination".

(** Number of occurrences of [x] in [l]. *)
Definition occurrences (x : string) (l : list string) : nat :=
  length (filter (λ y, y = x) l).

End DataProtection.

(** ** The parts of aws-cdk-lib the wrappers hand their results to

    The base classes of aws-cdk-lib ([Queue], [s3.Bucket], [Topic], [Table])
    check the props they are handed and may throw.  That code is not part of
    this library, so it enters the embedding as a parameter: a [validator]
    tells, for the props of a [super] call, whether aws-cdk-lib throws
    ([Some msg]) or accepts them ([None]).  [new Key] with a description and
    key rotation switched on is taken to succeed, and so are the calls made
    on a construct once it exists (grants, [addToResourcePolicy], the
    registration of auto-scaling, [addDependency]): the embedding has no
    outcome for a failure inside these, so that an error of a constructor
    is one of its own checks or one of a validator. *)
Module Cdk.

Definition validator (P : Type) : Type := P → option string.

(** The validator of a base class that accepts everything. *)
Definition accepting {P : Type} : validator P := λ _, None.

(** [super(scope, id, props)] followed by the rest of the constructor, which
    leaves [a] behind. *)
Definition cdk_super {P A : Type} (validate : validator P) (props : P) (a : A)
  : outcome A :=
  match validate props with
  | Some msg => Throws msg
  | None => Returns a
  end.

(** [Duration.days(n)], [Duration.seconds(n)] *)
Inductive Duration : Type :=
| Duration_days (amount : Z)
| Duration_seconds (amount : Z).

(** aws-iam *)
Inductive Effect : Type := ALLOW | DENY.
#[global] Instance Effect_eq_dec : EqDecision Effect.
Proof. solve_decision. Defined.
Inductive Principal : Type :=
| AnyPrincipal
| OtherPrincipal (arn : string).
Inductive Resource : Type :=
| ArnForObjects (keyPattern : string)
| TopicArn.
Inductive ConditionValue : Type :=
| CvString (s : string)
| CvBool (b : bool).
#[global] Instance ConditionValue_eq_dec : EqDecision ConditionValue.
Proof. solve_decision. Defined.

(** [conditions] is the JavaScript object
    [{ operator: { key: value } }], kept as an association list. *)
Record PolicyStatement : Type := {
  sid : option string;
  effect : Effect;
  actions : list string;
  principals : list Principal;
  resources : list Resource;
  conditions : list (string * list (string * ConditionValue));
}.

(** [statement.addCondition(operator, value)] *)
Definition addCondition (st : PolicyStatement) (operator : string)
    (value : list (string * ConditionValue)) : PolicyStatement :=
  {| sid := sid st; effect := effect st; actions := actions st;
     principals := principals st; resources := resources st;
     conditions := conditions st ++ [(operator, value)] |}.
(** [statement.sid = s] *)
Definition setSid (st : PolicyStatement) (s : string) : PolicyStatement :=
  {| sid := Some s; effect := effect st; actions := actions st;
     principals := principals st; resources := resources st;
     conditions := conditions st |}.

(** aws-kms: a key is either one the caller already holds or the result of
    [new Key(scope, id, { description, enableKeyRotation })]. *)
Record KeyProps : Type := {
  description : string;
  enableKeyRotation : bool;
}.
Inductive IKey : Type :=
| ImportedKey (keyArn : string)
| NewKey (id : string) (props : KeyProps).

(** [{...{key: base, ...}, ...over}] read at [key]: the property of [over]
    wins when [over] has it, also when it has it with the value
    [undefined]; [undefinedKeys] are the keys [over] has with that value. *)
Definition spread {A} (key : string) (base : option A)
    (undefinedKeys : list string) (over : option A) : option A :=
  match over with
  | Some v => Some v
  | None => if bool_decide (key ∈ undefinedKeys) then None else base
  end.

(** The keys that the object literal [{key: value}] has with the value
    [undefined]. *)
Definition undefinedKey {A} (key : string) (value : option A) : list string :=
  match value with
  | Some _ => []
  | None => [key]
  end.

(** The variable [x] after [let x = props.x; if (... && !x) x = fresh]:
    [fresh] is the value assigned, if the assignment is made. *)
Definition assigned {A} (fresh x : option A) : option A :=
  match x with
  | Some v => Some v
  | None => fresh
  end.

End Cdk.
Export Cdk.

(** A statement that denies requests made over an insecure transport:
    effect [Deny] under the condition [Bool: { aws:SecureTransport: false }]. *)
Definition isSecureTransportDeny (st : PolicyStatement) : bool :=
  bool_decide (effect st = DENY) &&
  bool_decide (("Bool", [("aws:SecureTransport", CvString "false")])
                 ∈ conditions st).

(** ** sqs/sqs-queue.ts *)
Module SQS.

Inductive QueueEncryption : Type :=
| UNENCRYPTED
| KMS_MANAGED
| KMS
| SQS_MANAGED.
#[global] Instance QueueEncryption_eq_dec : EqDecision QueueEncryption.
Proof. solve_decision. Defined.

(** SQS defaults for SQS Queue. *)
Definition MAX_ALLOWED_QUEUE_NAME_LENGTH : nat := 80.
Definition DEFAULT_RECEIVE_COUNT : Z := 100.
Definition MAX_RETENTION_PERIOD : Duration := Duration_days 14.

(** An [IQueue] handed in by the caller; the constructor reads nothing of it
    but [queueName]. *)
Record IQueue : Type := {
  iqueue_queueName : string;
}.

Record DeadLetterQueue (Q : Type) : Type := {
  queue : Q;
  maxReceiveCount : Z;
}.
Global Arguments queue {Q} _.
Global Arguments maxReceiveCount {Q} _.

(** [SQSQueueProps extends QueueProps].  [Q] is the type of the queue inside
    [deadLetterQueue]: an [IQueue] in what callers write, a [Queue] in what
    is forwarded to [super]. *)
Record SQSQueueProps (Q : Type) : Type := {
  queueName : option string;
  encryption : option QueueEncryption;
  encryptionMasterKey : option IKey;
  retentionPeriod : option Duration;
  visibilityTimeout : option Duration;
  contentBasedDeduplication : option bool;
  fifo : option bool;
  deadLetterQueue : option (DeadLetterQueue Q);
  requireSecureTransport : option bool;
  principalsAllowedToSend : option (list Principal);
  principalsAllowedToConsume : option (list Principal);
  enableDeadLetterQueue : option bool;
  dlqMaxReceiveCount : option Z;
  undefinedKeys : list string;
}.
Global Arguments queueName {Q} _.
Global Arguments encryption {Q} _.
Global Arguments encryptionMasterKey {Q} _.
Global Arguments retentionPeriod {Q} _.
Global Arguments visibilityTimeout {Q} _.
Global Arguments contentBasedDeduplication {Q} _.
Global Arguments fifo {Q} _.
Global Arguments deadLetterQueue {Q} _.
Global Arguments requireSecureTransport {Q} _.
Global Arguments principalsAllowedToSend {Q} _.
Global Arguments principalsAllowedToConsume {Q} _.
Global Arguments enableDeadLetterQueue {Q} _.
Global Arguments dlqMaxReceiveCount {Q} _.
Global Arguments undefinedKeys {Q} _.

(** A queue as the constructor leaves it: the props passed to [super], the
    member [deadLetterQueue] as the constructor assigns it after [super],
    the grants made and the statements added to the resource policy. *)
Inductive Queue : Type :=
| CallerQueue (q : IQueue)
| NewSQSQueue (id : string)
    (superProps : SQSQueueProps Queue)
    (this_deadLetterQueue : option (DeadLetterQueue Queue))
    (grantedConsume grantedSend : list Principal)
    (resourcePolicy : list PolicyStatement).

(** What [new ...(scope, ...)] adds to the enclosing scope. *)
Inductive Construct : Type :=
| KeyConstruct (k : IKey)
| QueueConstruct (q : Queue).

Definition superPropsOf (q : Queue) : option (SQSQueueProps Queue) :=
  match q with
  | CallerQueue _ => None
  | NewSQSQueue _ p _ _ _ _ => Some p
  end.
Definition resourcePolicyOf (q : Queue) : list PolicyStatement :=
  match q with
  | CallerQueue _ => []
  | NewSQSQueue _ _ _ _ _ pol => pol
  end.
(** [this.deadLetterQueue] *)
Definition deadLetterQueueOf (q : Queue) : option (DeadLetterQueue Queue) :=
  match q with
  | CallerQueue _ => None
  | NewSQSQueue _ _ dlq _ _ _ => dlq
  end.

(** [private static createEncryptionMasterKey(scope, id)] *)
Definition createEncryptionMasterKey (id : string) : IKey :=
  NewKey (id +:+ "Key")
    {| description := "Created by " +:+ id +:+ " resource";
       enableKeyRotation := true |}.

(** [private static getQueueNameForFifoDlq(queueName)] *)
Definition getQueueNameForFifoDlq (queueName : string) : outcome string :=
  let fifoSuffix := ".fifo" in
  if negb (endsWith queueName fifoSuffix)
  then Throws ("Fifo queue must have name ending with .fifo suffix. Present queue name : "
                 +:+ queueName)
  else
    match lastIndexOf queueName fifoSuffix with
    | Some fifoSuffixIndex =>
        Returns (substr0 fifoSuffixIndex queueName +:+ "-dlq"
                   +:+ substring_from fifoSuffixIndex queueName)
    | None =>
        (* [substr(0, -1)] is empty and [substring(-1)] is the whole string *)
        Returns ("" +:+ "-dlq" +:+ queueName)
    end.

(** The companion name computed on lines 243-252. *)
Definition resolveDeadLetterQueueName (props : SQSQueueProps IQueue)
  : outcome (option string) :=
  let deadLetterQueueName :=
    (λ d, iqueue_queueName (queue d)) <$> deadLetterQueue props in
  if truthy_opt_string (queueName props)
     && bool_decide (deadLetterQueue props = None)
  then
    let name := default "" (queueName props) in
    bind (if truthy_opt_bool (fifo props)
          then getQueueNameForFifoDlq name
          else Returns (name +:+ "-dlq"))
      (λ deadLetterQueueName,
        if decide (MAX_ALLOWED_QUEUE_NAME_LENGTH < String.length deadLetterQueueName)%nat
        then Returns None
        else Returns (Some deadLetterQueueName))
  else Returns deadLetterQueueName.

Definition secureQueuePolicyStatement : PolicyStatement :=
  let st := {| sid := None; effect := DENY; actions := ["sqs:*"];
               principals := [AnyPrincipal]; resources := [];
               conditions := [] |} in
  let st := setSid st "Enforce - HTTPS" in
  addCondition st "Bool" [("aws:SecureTransport", CvString "false")].

(** The caller's dead-letter queue seen as a forwarded one. *)
Definition callerDlq (d : DeadLetterQueue IQueue) : DeadLetterQueue Queue :=
  {| queue := CallerQueue (queue d); maxReceiveCount := maxReceiveCount d |}.

(** The props of the dead-letter queue built on lines 265-292, from the
    values the primary queue has resolved so far. *)
Definition deadLetterQueueProps (props : SQSQueueProps IQueue)
    (deadLetterQueueName : option string)
    (encryption' : QueueEncryption) (encryptionMasterKey' : option IKey)
    (requireSecureTransport' : bool) : SQSQueueProps IQueue :=
  {| (* DLQ Name *)
     queueName := deadLetterQueueName;
     (* Same encryption as the primary queue *)
     encryption := Some encryption';
     (* Same encryption master key as the primary queue *)
     encryptionMasterKey := encryptionMasterKey';
     (* Same secure transport choice as the primary queue *)
     requireSecureTransport := Some requireSecureTransport';
     (* Don't need DLQ for DLQ *)
     enableDeadLetterQueue := Some false;
     retentionPeriod := Some MAX_RETENTION_PERIOD;
     principalsAllowedToConsume := principalsAllowedToConsume props;
     principalsAllowedToSend := principalsAllowedToSend props;
     (* For a fifo queue, the DLQ should also be a Fifo. *)
     fifo := fifo props;
     visibilityTimeout := None;
     contentBasedDeduplication := None;
     deadLetterQueue := None;
     dlqMaxReceiveCount := None;
     (* of the nine properties written, these may be undefined *)
     undefinedKeys :=
       undefinedKey "queueName" deadLetterQueueName
       ++ undefinedKey "encryptionMasterKey" encryptionMasterKey'
       ++ undefinedKey "principalsAllowedToConsume"
            (principalsAllowedToConsume props)
       ++ undefinedKey "principalsAllowedToSend" (principalsAllowedToSend props)
       ++ undefinedKey "fifo" (fifo props) |}.

(** The argument of [super(scope, id, {...{encryption, encryptionMasterKey,
    deadLetterQueue, retentionPeriod}, ...props})] on lines 300-308.  The
    base class reads it by property access, so of its keys with the value
    [undefined] the list keeps the caller's. *)
Definition superPropsFor (props : SQSQueueProps IQueue)
    (encryption' : QueueEncryption) (encryptionMasterKey' : option IKey)
    (deadLetterQueue' : option (DeadLetterQueue Queue))
  : SQSQueueProps Queue :=
  {| encryption :=
       spread "encryption" (Some encryption')
         (undefinedKeys props) (encryption props);
     encryptionMasterKey :=
       spread "encryptionMasterKey" encryptionMasterKey'
         (undefinedKeys props) (encryptionMasterKey props);
     deadLetterQueue :=
       spread "deadLetterQueue" deadLetterQueue'
         (undefinedKeys props) (callerDlq <$> deadLetterQueue props);
     retentionPeriod :=
       spread "retentionPeriod"
         (Some (default MAX_RETENTION_PERIOD (retentionPeriod props)))
         (undefinedKeys props) (retentionPeriod props);
     queueName := queueName props;
     visibilityTimeout := visibilityTimeout props;
     contentBasedDeduplication := contentBasedDeduplication props;
     fifo := fifo props;
     requireSecureTransport := requireSecureTransport props;
     principalsAllowedToSend := principalsAllowedToSend props;
     principalsAllowedToConsume := principalsAllowedToConsume props;
     enableDeadLetterQueue := enableDeadLetterQueue props;
     dlqMaxReceiveCount := dlqMaxReceiveCount props;
     undefinedKeys := undefinedKeys props |}.

(** The props that the constructor of a dead-letter queue passes to [super]
    in its turn, for the dead-letter queue of [props] with the name and the
    key resolved for it; see [SQSSpec.SQSQueue_new_dlq]. *)
Definition dlqSuperProps (props : SQSQueueProps IQueue)
    (deadLetterQueueName : option string) (encryptionMasterKey' : option IKey)
  : SQSQueueProps Queue :=
  {| queueName := deadLetterQueueName;
     encryption := Some (default KMS (encryption props));
     encryptionMasterKey := encryptionMasterKey';
     retentionPeriod := Some MAX_RETENTION_PERIOD;
     visibilityTimeout := None;
     contentBasedDeduplication := None;
     fifo := fifo props;
     deadLetterQueue := None;
     requireSecureTransport :=
       Some (default true (requireSecureTransport props));
     principalsAllowedToSend := principalsAllowedToSend props;
     principalsAllowedToConsume := principalsAllowedToConsume props;
     enableDeadLetterQueue := Some false;
     dlqMaxReceiveCount := None;
     undefinedKeys :=
       undefinedKeys
         (deadLetterQueueProps props deadLetterQueueName
            (default KMS (encryption props)) encryptionMasterKey'
            (default true (requireSecureTransport props))) |}.

(** The key made on lines 226-228, if any. *)
Definition newMasterKey (id : string) (props : SQSQueueProps IQueue)
  : option IKey :=
  if bool_decide (default KMS (encryption props) = KMS)
     && bool_decide (encryptionMasterKey props = None)
  then Some (createEncryptionMasterKey id)
  else None.

(** [new SQSQueue(scope, id, props)].  The constructor calls itself for the
    dead-letter queue; [fuel] bounds the nesting of these calls.  [cdkQueue]
    stands for the checks of the base class [Queue].  The result is the queue
    together with the constructs added to [scope], oldest first. *)
Fixpoint SQSQueue_new (cdkQueue : validator (SQSQueueProps Queue))
    (fuel : nat) (id : string) (props : option (SQSQueueProps IQueue))
  : outcome (Queue * list Construct) :=
  match fuel with
  | O => Diverges
  | S fuel' =>
    match props with
    | None => Throws "SQSQueueProps must be provided."
    | Some props =>
      (* encryption defaults to KMS *)
      let encryption' := default KMS (encryption props) in
      (* a default key for KMS without a master key *)
      let newKey := newMasterKey id props in
      let encryptionMasterKey' := assigned newKey (encryptionMasterKey props) in
      (* the dead-letter queue is enabled unless switched off *)
      let enableDeadLetterQueue' := default true (enableDeadLetterQueue props) in
      bind (resolveDeadLetterQueueName props) (λ deadLetterQueueName,
      (* secure transport is required unless switched off *)
      let requireSecureTransport' := default true (requireSecureTransport props) in
      bind
        (if enableDeadLetterQueue' && bool_decide (deadLetterQueue props = None)
         then
           bind (SQSQueue_new cdkQueue fuel' (id +:+ "Dlq")
                   (Some (deadLetterQueueProps props deadLetterQueueName
                            encryption' encryptionMasterKey'
                            requireSecureTransport')))
             (λ '(dlq, added),
               Returns
                 (Some {| queue := dlq;
                          maxReceiveCount :=
                            default DEFAULT_RECEIVE_COUNT (dlqMaxReceiveCount props) |},
                  added ++ [QueueConstruct dlq]))
         else Returns (callerDlq <$> deadLetterQueue props, []))
        (λ '(deadLetterQueue', added),
          let superProps :=
            superPropsFor props encryption' encryptionMasterKey' deadLetterQueue' in
          let policy :=
            if requireSecureTransport' then [secureQueuePolicyStatement] else [] in
          cdk_super cdkQueue superProps
            (NewSQSQueue id superProps deadLetterQueue'
               (default [] (principalsAllowedToConsume props))
               (default [] (principalsAllowedToSend props))
               policy,
             (from_option (λ k, [KeyConstruct k]) [] newKey) ++ added)))
    end
  end.

(** One nested call (for the dead-letter queue) is all the constructor ever
    makes, so a budget of two suffices; see [SQSQueue_new_fuel]. *)
Definition SQSQueue (cdkQueue : validator (SQSQueueProps Queue))
    (id : string) (props : option (SQSQueueProps IQueue))
  : outcome (Queue * list Construct) :=
  SQSQueue_new cdkQueue 2 id props.

(** The base class [Queue] of aws-cdk-lib refuses a FIFO queue whose name is
    a string that does not end with ['.fifo'].  [enforcesFifoSuffix] says of
    a validator that it does the same; [fifoSuffixCheck] is the validator
    that does this and nothing else. *)
Definition enforcesFifoSuffix (cdkQueue : validator (SQSQueueProps Queue))
  : Prop :=
  ∀ (p : SQSQueueProps Queue) (name : string),
    fifo p = Some true →
    queueName p = Some name →
    endsWith name ".fifo" = false →
    cdkQueue p ≠ None.
Definition fifoSuffixCheck : validator (SQSQueueProps Queue) :=
  λ p,
    match fifo p, queueName p with
    | Some true, Some name =>
        if endsWith name ".fifo" then None
        else Some "FIFO queue names must end in '.fifo'"
    | _, _ => None
    end.

(** The props [{}] and a FIFO queue with a dead-letter-queue receive count. *)
Definition emptyProps : SQSQueueProps IQueue :=
  {| queueName := None; encryption := None; encryptionMasterKey := None;
     retentionPeriod := None; visibilityTimeout := None;
     contentBasedDeduplication := None; fifo := None; deadLetterQueue := None;
     requireSecureTransport := None; principalsAllowedToSend := None;
     principalsAllowedToConsume := None; enableDeadLetterQueue := None;
     dlqMaxReceiveCount := None; undefinedKeys := [] |}.
Definition namedProps (name : string) (isFifo : option bool)
  : SQSQueueProps IQueue :=
  {| queueName := Some name; encryption := None; encryptionMasterKey := None;
     retentionPeriod := None; visibilityTimeout := None;
     contentBasedDeduplication := None; fifo := isFifo; deadLetterQueue := None;
     requireSecureTransport := None; principalsAllowedToSend := None;
     principalsAllowedToConsume := None; enableDeadLetterQueue := None;
     dlqMaxReceiveCount := Some 5; undefinedKeys := [] |}.

(** The props [{ encryptionMasterKey: undefined }], as written by a caller
    who passes an optional key of its own configuration on. *)
Definition undefinedKeyProps : SQSQueueProps IQueue :=
  {| queueName := None; encryption := None; encryptionMasterKey := None;
     retentionPeriod := None; visibilityTimeout := None;
     contentBasedDeduplication := None; fifo := None; deadLetterQueue := None;
     requireSecureTransport := None; principalsAllowedToSend := None;
     principalsAllowedToConsume := None; enableDeadLetterQueue := None;
     dlqMaxReceiveCount := None; undefinedKeys := ["encryptionMasterKey"] |}.

(** A queue name of 77 characters. *)
Definition longQueueName : string :=
  "orders-service-production-eu-west-1-incoming-payment-events-queue-primary-one".

End SQS.

(** ** s3/s3-bucket.ts and s3/access-bucket-log.ts *)
Module S3.

Inductive BucketEncryption : Type :=
| UNENCRYPTED
| KMS_MANAGED
| S3_MANAGED
| KMS
| DSSE_MANAGED
| DSSE.
#[global] Instance BucketEncryption_eq_dec : EqDecision BucketEncryption.
Proof. solve_decision. Defined.

Inductive BlockPublicAccess : Type := BLOCK_ALL | BLOCK_ACLS.
Inductive ObjectOwnership : Type :=
| BUCKET_OWNER_ENFORCED
| BUCKET_OWNER_PREFERRED
| OBJECT_WRITER.
Inductive StorageClass : Type :=
| INFREQUENT_ACCESS
| GLACIER
| DEEP_ARCHIVE.

Record Transition : Type := {
  storageClass : StorageClass;
  transitionAfter : Duration;
}.
Record LifecycleRule : Type := {
  rule_id : string;
  enabled : bool;
  expiration : option Duration;
  noncurrentVersionExpiration : option Duration;
  transitions : option (list Transition);
}.

Definition MAX_ALLOWED_BUCKET_NAME_LENGTH : nat := 63.
Definition NON_CURRENT_VERSION_EXPIRATION_DAYS : Z := 90.
Definition LOGS_CURRENT_VERSION_EXPIRATION_DAYS : Z := 3650.
Definition LOGS_CURRENT_VERSION_TRANSITION_DAYS : Z := 365.

(** An [s3.IBucket] handed in by the caller. *)
Record IBucket : Type := {
  ibucket_bucketName : string;
}.

(** [BucketProps extends s3.BucketProps]; [B] is the type of the bucket in
    [serverAccessLogsBucket], as for [SQS.SQSQueueProps]. *)
Record BucketProps (B : Type) : Type := {
  bucketName : option string;
  encryption : option BucketEncryption;
  encryptionKey : option IKey;
  serverAccessLogsBucket : option B;
  serverAccessLogsPrefix : option string;
  lifecycleRules : option (list LifecycleRule);
  versioned : option bool;
  blockPublicAccess : option BlockPublicAccess;
  objectOwnership : option ObjectOwnership;
  requireSecureTransport : option bool;
  enableAccessLogging : option bool;
  enableDefaultLifecycleRules : option bool;
  undefinedKeys : list string;
}.
Global Arguments bucketName {B} _.
Global Arguments encryption {B} _.
Global Arguments encryptionKey {B} _.
Global Arguments serverAccessLogsBucket {B} _.
Global Arguments serverAccessLogsPrefix {B} _.
Global Arguments lifecycleRules {B} _.
Global Arguments versioned {B} _.
Global Arguments blockPublicAccess {B} _.
Global Arguments objectOwnership {B} _.
Global Arguments requireSecureTransport {B} _.
Global Arguments enableAccessLogging {B} _.
Global Arguments enableDefaultLifecycleRules {B} _.
Global Arguments undefinedKeys {B} _.

(** A bucket as the constructor leaves it: the props passed to [super], the
    member [serverAccessLogsBucket] as the constructor assigns it after
    [super], and the statements added to the resource policy. *)
Inductive S3Bucket : Type :=
| CallerBucket (b : IBucket)
| NewBucket (id : string)
    (superProps : BucketProps S3Bucket)
    (this_serverAccessLogsBucket : option S3Bucket)
    (resourcePolicy : list PolicyStatement).

Inductive Construct : Type :=
| KeyConstruct (k : IKey)
| BucketConstruct (b : S3Bucket).

Definition superPropsOf (b : S3Bucket) : option (BucketProps S3Bucket) :=
  match b with
  | CallerBucket _ => None
  | NewBucket _ p _ _ => Some p
  end.
Definition resourcePolicyOf (b : S3Bucket) : list PolicyStatement :=
  match b with
  | CallerBucket _ => []
  | NewBucket _ _ _ pol => pol
  end.
(** [this.serverAccessLogsBucket] *)
Definition serverAccessLogsBucketOf (b : S3Bucket) : option S3Bucket :=
  match b with
  | CallerBucket _ => None
  | NewBucket _ _ logs _ => logs
  end.

(** The props [AccessLogsBucket] passes to [super]: an object literal of
    nine properties, of which [bucketName] may be undefined. *)
Definition accessLogsUpdatedProps (props : BucketProps IBucket)
  : BucketProps IBucket :=
  {| blockPublicAccess := Some BLOCK_ALL;
     bucketName := bucketName props;
     encryption := Some S3_MANAGED;
     enableAccessLogging := Some false;
     serverAccessLogsPrefix := Some "logs/";
     lifecycleRules := Some [
       {| rule_id := "CurrentVersionPolicyForLogs";
          enabled := true;
          expiration := Some (Duration_days LOGS_CURRENT_VERSION_EXPIRATION_DAYS);
          noncurrentVersionExpiration := None;
          transitions := Some [
            {| storageClass := GLACIER;
               transitionAfter :=
                 Duration_days LOGS_CURRENT_VERSION_TRANSITION_DAYS |} ] |} ];
     requireSecureTransport := Some (default true (requireSecureTransport props));
     versioned := Some true;
     objectOwnership := Some BUCKET_OWNER_PREFERRED;
     encryptionKey := None;
     serverAccessLogsBucket := None;
     enableDefaultLifecycleRules := None;
     undefinedKeys := undefinedKey "bucketName" (bucketName props) |}.

(** The companion name computed on lines 88-95. *)
Definition resolveAccessLogBucketName (props : BucketProps IBucket)
  : option string :=
  if truthy_opt_string (bucketName props)
  then
    let accessLogBucketName := default "" (bucketName props) +:+ "-logs" in
    if decide (MAX_ALLOWED_BUCKET_NAME_LENGTH < String.length accessLogBucketName)%nat
    then None
    else Some accessLogBucketName
  else None.

Definition secureTransportStatement : PolicyStatement :=
  {| sid := None; effect := DENY; actions := ["s3:*"];
     principals := [AnyPrincipal]; resources := [ArnForObjects "*"];
     conditions := [("Bool", [("aws:SecureTransport", CvString "false")])] |}.

Definition requireKmsStatement : PolicyStatement :=
  {| sid := None; effect := DENY; actions := ["s3:PutObject"];
     principals := [AnyPrincipal]; resources := [ArnForObjects "*"];
     conditions :=
       [("Null",
         [("s3:x-amz-server-side-encryption-aws-kms-key-id", CvBool true)])] |}.

Definition callerBucket (b : IBucket) : S3Bucket := CallerBucket b.

(** The props handed to [new AccessLogsBucket] on lines 98-101. *)
Definition accessLogsBucketProps (props : BucketProps IBucket)
    (accessLogBucketName : option string) : BucketProps IBucket :=
  {| bucketName := accessLogBucketName;
     requireSecureTransport := requireSecureTransport props;
     encryption := None; encryptionKey := None;
     serverAccessLogsBucket := None; serverAccessLogsPrefix := None;
     lifecycleRules := None; versioned := None;
     blockPublicAccess := None; objectOwnership := None;
     enableAccessLogging := None; enableDefaultLifecycleRules := None;
     undefinedKeys :=
       undefinedKey "bucketName" accessLogBucketName
       ++ undefinedKey "requireSecureTransport" (requireSecureTransport props) |}.

(** The key made on lines 74-79, if any. *)
Definition newEncryptionKey (id : string) (props : BucketProps IBucket)
  : option IKey :=
  if bool_decide (default KMS (encryption props) = KMS)
     && bool_decide (encryptionKey props = None)
  then Some (NewKey (id +:+ "Key")
               {| description := "Created by " +:+ id +:+ " resource";
                  enableKeyRotation := true |})
  else None.

(** The lifecycle rules after lines 104-118. *)
Definition resolveLifecycleRules (props : BucketProps IBucket)
  : option (list LifecycleRule) :=
  let versioned' := default true (versioned props) in
  let enableDefaultLifecycleRules' :=
    default true (enableDefaultLifecycleRules props) in
  if enableDefaultLifecycleRules' && versioned'
     && bool_decide (lifecycleRules props = None)
  then Some [
    {| rule_id := "NonCurrentVersionPolicyForCompliance";
       enabled := true;
       expiration := None;
       noncurrentVersionExpiration :=
         Some (Duration_days NON_CURRENT_VERSION_EXPIRATION_DAYS);
       transitions := None |} ]
  else lifecycleRules props.

(** [updatedProps] of lines 123-134.  The base class reads it by property
    access, so of its keys with the value [undefined] the list keeps the
    caller's. *)
Definition updatedPropsFor (props : BucketProps IBucket)
    (encryptionKey' : option IKey)
    (serverAccessLogsBucket' : option S3Bucket) : BucketProps S3Bucket :=
  {| blockPublicAccess :=
       spread "blockPublicAccess"
         (Some (default BLOCK_ALL (blockPublicAccess props)))
         (undefinedKeys props) (blockPublicAccess props);
     encryption :=
       spread "encryption" (Some (default KMS (encryption props)))
         (undefinedKeys props) (encryption props);
     encryptionKey :=
       spread "encryptionKey" encryptionKey'
         (undefinedKeys props) (encryptionKey props);
     enableAccessLogging :=
       spread "enableAccessLogging"
         (Some (default true (enableAccessLogging props)))
         (undefinedKeys props) (enableAccessLogging props);
     lifecycleRules :=
       spread "lifecycleRules" (resolveLifecycleRules props)
         (undefinedKeys props) (lifecycleRules props);
     serverAccessLogsBucket :=
       spread "serverAccessLogsBucket" serverAccessLogsBucket'
         (undefinedKeys props) (callerBucket <$> serverAccessLogsBucket props);
     versioned :=
       spread "versioned" (Some (default true (versioned props)))
         (undefinedKeys props) (versioned props);
     bucketName := bucketName props;
     serverAccessLogsPrefix := serverAccessLogsPrefix props;
     objectOwnership := objectOwnership props;
     requireSecureTransport := requireSecureTransport props;
     enableDefaultLifecycleRules := enableDefaultLifecycleRules props;
     undefinedKeys := undefinedKeys props |}.

(** [new Bucket(scope, id, props)].  [Bucket] builds an [AccessLogsBucket],
    whose constructor is [Bucket]'s again ([super]); [fuel] bounds that
    nesting.  [cdkBucket] stands for the checks of the base class
    [s3.Bucket].  An [S3Bucket] is the [s3.Bucket] the constructor leaves
    behind; it comes with the constructs added to [scope], oldest first. *)
Fixpoint Bucket_new (cdkBucket : validator (BucketProps S3Bucket))
    (fuel : nat) (id : string) (props : option (BucketProps IBucket))
  : outcome (S3Bucket * list Construct) :=
  match fuel with
  | O => Diverges
  | S fuel' =>
    match props with
    | None => Throws "BucketProps must be provided"
    | Some props =>
      let newKey := newEncryptionKey id props in
      let encryptionKey' := assigned newKey (encryptionKey props) in
      let enableAccessLogging' := default true (enableAccessLogging props) in
      bind
        (if enableAccessLogging'
            && bool_decide (serverAccessLogsBucket props = None)
         then
           let accessLogBucketName := resolveAccessLogBucketName props in
           (* new AccessLogsBucket(scope, `${id}AccessLog`, {...}), whose
              constructor passes [accessLogsUpdatedProps] to [super] *)
           bind (Bucket_new cdkBucket fuel' (id +:+ "AccessLog")
                   (Some (accessLogsUpdatedProps
                            (accessLogsBucketProps props accessLogBucketName))))
             (λ '(logs, added), Returns (Some logs, added ++ [BucketConstruct logs]))
         else Returns (callerBucket <$> serverAccessLogsBucket props, []))
        (λ '(serverAccessLogsBucket', added),
          let updatedProps :=
            updatedPropsFor props encryptionKey' serverAccessLogsBucket' in
          let requireSecureTransport' :=
            default true (requireSecureTransport props) in
          let policy :=
            (if requireSecureTransport' then [secureTransportStatement] else [])
            ++ (if bool_decide (encryption updatedProps = Some KMS)
                then [requireKmsStatement] else []) in
          cdk_super cdkBucket updatedProps
            (NewBucket id updatedProps serverAccessLogsBucket' policy,
             (from_option (λ k, [KeyConstruct k]) [] newKey) ++ added))
    end
  end.

(** [new AccessLogsBucket(scope, id, props)] *)
Definition AccessLogsBucket_new (cdkBucket : validator (BucketProps S3Bucket))
    (fuel : nat) (id : string) (props : BucketProps IBucket)
  : outcome (S3Bucket * list Construct) :=
  Bucket_new cdkBucket fuel id (Some (accessLogsUpdatedProps props)).

Definition Bucket (cdkBucket : validator (BucketProps S3Bucket))
    (id : string) (props : option (BucketProps IBucket))
  : outcome (S3Bucket * list Construct) :=
  Bucket_new cdkBucket 2 id props.

(** The props [{}] and [{ bucketName: name }]. *)
Definition emptyProps : BucketProps IBucket :=
  {| bucketName := None; encryption := None; encryptionKey := None;
     serverAccessLogsBucket := None; serverAccessLogsPrefix := None;
     lifecycleRules := None; versioned := None; blockPublicAccess := None;
     objectOwnership := None; requireSecureTransport := None;
     enableAccessLogging := None; enableDefaultLifecycleRules := None;
     undefinedKeys := [] |}.
Definition namedProps (name : string) : BucketProps IBucket :=
  {| bucketName := Some name; encryption := None; encryptionKey := None;
     serverAccessLogsBucket := None; serverAccessLogsPrefix := None;
     lifecycleRules := None; versioned := None; blockPublicAccess := None;
     objectOwnership := None; requireSecureTransport := None;
     enableAccessLogging := None; enableDefaultLifecycleRules := None;
     undefinedKeys := [] |}.

(** A bucket name of 60 characters. *)
Definition longBucketName : string :=
  "logs-of-the-orders-service-in-the-production-account-eu-west".

End S3.

(** ** sns/topic.ts *)
Module SNS.

Definition ALL_SNS_ACTIONS : list string :=
  [ "sns:GetTopicAttributes";
    "sns:SetTopicAttributes";
    "sns:AddPermission";
    "sns:RemovePermission";
    "sns:DeleteTopic";
    "sns:Subscribe";
    "sns:ListSubscriptionsByTopic";
    "sns:Publish";
    "sns:Receive";
    "sns:TagResource";
    "sns:UntagResource";
    "sns:ListTagsForResource" ].

Record SnsTopicProps : Type := {
  topicName : option string;
  displayName : option string;
  fifo : option bool;
  masterKey : option IKey;
  requireSecureTransport : option bool;
  enableEncryption : option bool;
  principalsAllowedToPublish : option (list Principal);
  principalsAllowedToSubscribe : option (list Principal);
  undefinedKeys : list string;
}.

(** Grants made by the two [forEach] loops, in order. *)
Inductive Grant : Type :=
| KeyGrantEncrypt (k : IKey) (p : Principal)
| KeyGrantDecrypt (k : IKey) (p : Principal)
| GrantPublish (p : Principal)
| GrantSubscribe (p : Principal).

Record Topic : Type := {
  topic_id : string;
  superProps : SnsTopicProps;
  this_masterKey : option IKey;
  grants : list Grant;
  resourcePolicy : list PolicyStatement;
}.

Inductive Construct : Type :=
| KeyConstruct (k : IKey).

Definition createEncryptionMasterKey (id : string) : IKey :=
  NewKey (id +:+ "Key")
    {| description := "Created by " +:+ id +:+ " resource";
       enableKeyRotation := true |}.

Definition secureTopicPolicyStatement : PolicyStatement :=
  let st := {| sid := None; effect := DENY; actions := ALL_SNS_ACTIONS;
               principals := [AnyPrincipal]; resources := [TopicArn];
               conditions := [] |} in
  let st := setSid st "Enforce - HTTPS" in
  addCondition st "Bool" [("aws:SecureTransport", CvString "false")].

(** [this.masterKey?.grantX(principal)] *)
Definition keyGrant (mk : IKey → Principal → Grant) (k : option IKey)
    (p : Principal) : list Grant :=
  from_option (λ k, [mk k p]) [] k.

(** [new SnsTopic(scope, id, props)]; [cdkTopic] stands for the checks of
    the base class [Topic]. *)
Definition SnsTopic (cdkTopic : validator SnsTopicProps)
    (id : string) (props : option SnsTopicProps)
  : outcome (Topic * list Construct) :=
  match props with
  | None => Throws "SnsTopicProps must be provided."
  | Some props =>
    let enableEncryption' := default true (enableEncryption props) in
    let newKey :=
      if enableEncryption' && bool_decide (masterKey props = None)
      then Some (createEncryptionMasterKey id) else None in
    let masterKey' := assigned newKey (masterKey props) in
    (* { masterKey, ...props } *)
    let superProps' :=
      {| masterKey :=
           spread "masterKey" masterKey' (undefinedKeys props) (masterKey props);
         topicName := topicName props;
         displayName := displayName props;
         fifo := fifo props;
         requireSecureTransport := requireSecureTransport props;
         enableEncryption := enableEncryption props;
         principalsAllowedToPublish := principalsAllowedToPublish props;
         principalsAllowedToSubscribe := principalsAllowedToSubscribe props;
         undefinedKeys := undefinedKeys props |} in
    let publishGrants :=
      default [] (principalsAllowedToPublish props) ≫=
        (λ principal,
          keyGrant KeyGrantEncrypt masterKey' principal
          ++ keyGrant KeyGrantDecrypt masterKey' principal
          ++ [GrantPublish principal]) in
    let subscribeGrants :=
      default [] (principalsAllowedToSubscribe props) ≫=
        (λ principal,
          keyGrant KeyGrantDecrypt masterKey' principal
          ++ [GrantSubscribe principal]) in
    let requireSecureTransport' := default true (requireSecureTransport props) in
    let policy :=
      if requireSecureTransport' then [secureTopicPolicyStatement] else [] in
    cdk_super cdkTopic superProps'
      ({| topic_id := id;
          superProps := superProps';
          this_masterKey := masterKey';
          grants := publishGrants ++ subscribeGrants;
          resourcePolicy := policy |},
       from_option (λ k, [KeyConstruct k]) [] newKey)
  end.

(** The props [{}]. *)
Definition emptyProps : SnsTopicProps :=
  {| topicName := None; displayName := None; fifo := None; masterKey := None;
     requireSecureTransport := None; enableEncryption := None;
     principalsAllowedToPublish := None; principalsAllowedToSubscribe := None;
     undefinedKeys := [] |}.

End SNS.

(** ** dynamodb/dynamodb-table.ts *)
Module DynamoDB.

Inductive BillingMode : Type := PAY_PER_REQUEST | PROVISIONED.
#[global] Instance BillingMode_eq_dec : EqDecision BillingMode.
Proof. solve_decision. Defined.
Inductive TableEncryption : Type := DEFAULT | CUSTOMER_MANAGED | AWS_MANAGED.

Record EnableScalingProps : Type := {
  minCapacity : Z;
  maxCapacity : Z;
}.

Record UtilizationScalingProps : Type := {
  targetUtilizationPercent : Z;
  scaleInCooldown : Duration;
  scaleOutCooldown : Duration;
}.

Definition DEFAULT_UTILIZATION_SCALING_PROPS : UtilizationScalingProps :=
  {| targetUtilizationPercent := 60;
     scaleInCooldown := Duration_seconds 60;
     scaleOutCooldown := Duration_seconds 60 |}.

Record DynamoDBTableProps : Type := {
  tableName : option string;
  billingMode : option BillingMode;
  readCapacity : option Z;
  writeCapacity : option Z;
  pointInTimeRecovery : option bool;
  deletionProtection : option bool;
  encryption : option TableEncryption;
  encryptionKey : option IKey;
  readScalingProps : option EnableScalingProps;
  writeScalingProps : option EnableScalingProps;
  undefinedKeys : list string;
}.

Record DynamoDBGlobalSecondaryIndexProps : Type := {
  indexName : string;
  gsi_readCapacity : option Z;
  gsi_writeCapacity : option Z;
  gsi_readScalingProps : option EnableScalingProps;
  gsi_writeScalingProps : option EnableScalingProps;
  gsi_undefinedKeys : list string;
}.

(** Calls of [autoScale...Capacity(props).scaleOnUtilization(u)]; the index
    name is [None] for the table itself. *)
Inductive AutoScaling : Type :=
| AutoScaleRead (index : option string) (scaling : EnableScalingProps)
    (utilization : UtilizationScalingProps)
| AutoScaleWrite (index : option string) (scaling : EnableScalingProps)
    (utilization : UtilizationScalingProps).

Record Table : Type := {
  table_id : string;
  superProps : DynamoDBTableProps;
  usesProvisionedBillingMode : bool;
  globalSecondaryIndexes : list DynamoDBGlobalSecondaryIndexProps;
  autoScaling : list AutoScaling;
}.

Definition scalingError : string :=
  "For provisioned DynamoDB table, auto-scaling readScalingProps & writeScalingProps are required.".
Definition gsiScalingError : string :=
  "For provisioned DynamoDB table, auto-scaling readScalingProps & writeScalingProps for global secondary index are required.".

(** The block on lines 84-95: the check of the scaling props and the
    capacities that default to the scaling minimum. *)
Definition resolveCapacities (provisioned : bool) (error : string)
    (readCapacity writeCapacity : option Z)
    (readScaling writeScaling : option EnableScalingProps)
  : outcome (option Z * option Z) :=
  if provisioned then
    match readScaling, writeScaling with
    | Some readScaling, Some writeScaling =>
        Returns
          (if truthy_opt_number readCapacity then readCapacity
           else Some (minCapacity readScaling),
           if truthy_opt_number writeCapacity then writeCapacity
           else Some (minCapacity writeScaling))
    | _, _ => Throws error
    end
  else Returns (readCapacity, writeCapacity).

(** [new DynamoDBTable(scope, id, props)]; [cdkTable] stands for the checks
    of the base class [Table]. *)
Definition DynamoDBTable (cdkTable : validator DynamoDBTableProps)
    (id : string) (props : option DynamoDBTableProps)
  : outcome Table :=
  match props with
  | None => Throws "DynamoDB table props must be provided"
  | Some props =>
    let billingMode' := default PAY_PER_REQUEST (billingMode props) in
    bind (resolveCapacities
            (bool_decide (billingMode props = Some PROVISIONED)) scalingError
            (readCapacity props) (writeCapacity props)
            (readScalingProps props) (writeScalingProps props))
      (λ '(readCapacity', writeCapacity'),
        let pointInTimeRecovery' := default true (pointInTimeRecovery props) in
        let deletionProtection' := default true (deletionProtection props) in
        let encryption' := default CUSTOMER_MANAGED (encryption props) in
        (* { billingMode, encryption, pointInTimeRecovery,
             deletionProtection, readCapacity, writeCapacity, ...props } *)
        let updatedProps :=
          {| billingMode :=
               spread "billingMode" (Some billingMode')
                 (undefinedKeys props) (billingMode props);
             encryption :=
               spread "encryption" (Some encryption')
                 (undefinedKeys props) (encryption props);
             pointInTimeRecovery :=
               spread "pointInTimeRecovery" (Some pointInTimeRecovery')
                 (undefinedKeys props) (pointInTimeRecovery props);
             deletionProtection :=
               spread "deletionProtection" (Some deletionProtection')
                 (undefinedKeys props) (deletionProtection props);
             readCapacity :=
               spread "readCapacity" readCapacity'
                 (undefinedKeys props) (readCapacity props);
             writeCapacity :=
               spread "writeCapacity" writeCapacity'
                 (undefinedKeys props) (writeCapacity props);
             tableName := tableName props;
             encryptionKey := encryptionKey props;
             readScalingProps := readScalingProps props;
             writeScalingProps := writeScalingProps props;
             undefinedKeys := undefinedKeys props |} in
        bind (cdk_super cdkTable updatedProps ()) (λ _,
        match bool_decide (billingMode updatedProps = Some PROVISIONED),
              readScalingProps updatedProps, writeScalingProps updatedProps with
        | true, Some r, Some w =>
            Returns
              {| table_id := id; superProps := updatedProps;
                 usesProvisionedBillingMode := true;
                 globalSecondaryIndexes := [];
                 autoScaling :=
                   [ AutoScaleRead None r DEFAULT_UTILIZATION_SCALING_PROPS;
                     AutoScaleWrite None w DEFAULT_UTILIZATION_SCALING_PROPS ] |}
        | true, _, _ =>
            (* [updatedProps.readScalingProps!] on a missing value; never
               reached, the check above has thrown *)
            Throws "TypeError"
        | false, _, _ =>
            Returns
              {| table_id := id; superProps := updatedProps;
                 usesProvisionedBillingMode := false;
                 globalSecondaryIndexes := [];
                 autoScaling := [] |}
        end))
  end.

(** [table.addGlobalSecondaryIndex(props)]; returns the table after the
    call.  [cdkIndex] stands for the checks of
    [super.addGlobalSecondaryIndex]. *)
Definition addGlobalSecondaryIndex
    (cdkIndex : validator DynamoDBGlobalSecondaryIndexProps)
    (this : Table) (props : DynamoDBGlobalSecondaryIndexProps)
  : outcome Table :=
  bind (resolveCapacities (usesProvisionedBillingMode this) gsiScalingError
          (gsi_readCapacity props) (gsi_writeCapacity props)
          (gsi_readScalingProps props) (gsi_writeScalingProps props))
    (λ '(readCapacity', writeCapacity'),
      (* { readCapacity, writeCapacity, ...props } *)
      let updatedProps :=
        {| indexName := indexName props;
           gsi_readCapacity :=
             spread "readCapacity" readCapacity'
               (gsi_undefinedKeys props) (gsi_readCapacity props);
           gsi_writeCapacity :=
             spread "writeCapacity" writeCapacity'
               (gsi_undefinedKeys props) (gsi_writeCapacity props);
           gsi_readScalingProps := gsi_readScalingProps props;
           gsi_writeScalingProps := gsi_writeScalingProps props;
           gsi_undefinedKeys := gsi_undefinedKeys props |} in
      let scaling :=
        match usesProvisionedBillingMode this,
              gsi_readScalingProps updatedProps,
              gsi_writeScalingProps updatedProps with
        | true, Some r, Some w =>
            [ AutoScaleRead (Some (indexName updatedProps)) r
                DEFAULT_UTILIZATION_SCALING_PROPS;
              AutoScaleWrite (Some (indexName updatedProps)) w
                DEFAULT_UTILIZATION_SCALING_PROPS ]
        | _, _, _ => []
        end in
      cdk_super cdkIndex updatedProps
        {| table_id := table_id this; superProps := superProps this;
           usesProvisionedBillingMode := usesProvisionedBillingMode this;
           globalSecondaryIndexes :=
             globalSecondaryIndexes this ++ [updatedProps];
           autoScaling := autoScaling this ++ scaling |}).

(** A provisioned table with scaling between 10 and 100, as in the
    construct's documentation, and an index for it. *)
Definition provisionedProps : DynamoDBTableProps :=
  {| tableName := Some "ExampleTableProvisioned";
     billingMode := Some PROVISIONED;
     readCapacity := None; writeCapacity := None;
     pointInTimeRecovery := None; deletionProtection := None;
     encryption := None; encryptionKey := None;
     readScalingProps := Some {| minCapacity := 10; maxCapacity := 100 |};
     writeScalingProps := Some {| minCapacity := 10; maxCapacity := 100 |};
     undefinedKeys := [] |}.
Definition provisionedIndexProps : DynamoDBGlobalSecondaryIndexProps :=
  {| indexName := "byOwner";
     gsi_readCapacity := None; gsi_writeCapacity := None;
     gsi_readScalingProps := Some {| minCapacity := 10; maxCapacity := 100 |};
     gsi_writeScalingProps := Some {| minCapacity := 10; maxCapacity := 100 |};
     gsi_undefinedKeys := [] |}.

(** The same table and index, written with a read capacity that is left to
    the construct: [{ ..., readCapacity: undefined }]. *)
Definition undefinedCapacityProps : DynamoDBTableProps :=
  {| tableName := Some "ExampleTableProvisioned";
     billingMode := Some PROVISIONED;
     readCapacity := None; writeCapacity := None;
     pointInTimeRecovery := None; deletionProtection := None;
     encryption := None; encryptionKey := None;
     readScalingProps := Some {| minCapacity := 10; maxCapacity := 100 |};
     writeScalingProps := Some {| minCapacity := 10; maxCapacity := 100 |};
     undefinedKeys := ["readCapacity"] |}.
Definition undefinedCapacityIndexProps : DynamoDBGlobalSecondaryIndexProps :=
  {| indexName := "byOwner";
     gsi_readCapacity := None; gsi_writeCapacity := None;
     gsi_readScalingProps := Some {| minCapacity := 10; maxCapacity := 100 |};
     gsi_writeScalingProps := Some {| minCapacity := 10; maxCapacity := 100 |};
     gsi_undefinedKeys := ["readCapacity"] |}.

(** The same table without its scaling props. *)
Definition provisionedPropsWithoutScaling : DynamoDBTableProps :=
  {| tableName := Some "ExampleTableProvisioned";
     billingMode := Some PROVISIONED;
     readCapacity := None; writeCapacity := None;
     pointInTimeRecovery := None; deletionProtection := None;
     encryption := None; encryptionKey := None;
     readScalingProps := None; writeScalingProps := None;
     undefinedKeys := [] |}.

End DynamoDB.

(** ** ecs/fargate/alb-fargate-service.ts *)
Module Fargate.

Inductive FargatePlatformVersion : Type :=
| LATEST
| VERSION1_4
| VERSION1_3.

Definition DEFAULT_TASK_COUNT : Z := 1.
Definition DEFAULT_PLATFORM_VERSION : FargatePlatformVersion := LATEST.
Definition DEFAULT_MIN_HEALTHY_PERCENT : Z := 100.
Definition DEFAULT_MAX_HEALTHY_PERCENT : Z := 200.
Definition DEFAULT_HEALTH_CHECK_GRACE_PERIOD : Duration := Duration_seconds 60.

Record DeploymentCircuitBreaker : Type := {
  rollback : bool;
}.
Definition DEFAULT_CIRCUIT_BREAKER : DeploymentCircuitBreaker :=
  {| rollback := true |}.

(** The cluster, load balancer and task definition are handles that the
    constructor passes on without looking inside. *)
Record AlbFargateServiceProps : Type := {
  ecsCluster : string;
  loadBalancer : string;
  taskDefinition : string;
  platformVersion : option FargatePlatformVersion;
  desiredCount : option Z;
  minHealthyPercent : option Z;
  maxHealthyPercent : option Z;
  healthCheckGracePeriod : option Duration;
  serviceName : option string;
}.

(** The props of [new FargateService(this, 'FargateService', {...})]. *)
Record FargateServiceProps : Type := {
  fs_cluster : string;
  fs_taskDefinition : string;
  fs_desiredCount : Z;
  fs_platformVersion : FargatePlatformVersion;
  fs_minHealthyPercent : Z;
  fs_maxHealthyPercent : Z;
  fs_healthCheckGracePeriod : Duration;
  fs_circuitBreaker : DeploymentCircuitBreaker;
  fs_securityGroups : list string;
  fs_serviceName : option string;
}.

(** Lines 116-127 of [AlbFargateService]'s constructor. *)
Definition AlbFargateService_serviceProps (props : AlbFargateServiceProps)
  : FargateServiceProps :=
  {| fs_cluster := ecsCluster props;
     fs_taskDefinition := taskDefinition props;
     fs_desiredCount := or_number (desiredCount props) DEFAULT_TASK_COUNT;
     fs_platformVersion := default DEFAULT_PLATFORM_VERSION (platformVersion props);
     fs_minHealthyPercent :=
       or_number (minHealthyPercent props) DEFAULT_MIN_HEALTHY_PERCENT;
     fs_maxHealthyPercent :=
       or_number (maxHealthyPercent props) DEFAULT_MAX_HEALTHY_PERCENT;
     fs_healthCheckGracePeriod :=
       default DEFAULT_HEALTH_CHECK_GRACE_PERIOD (healthCheckGracePeriod props);
     fs_circuitBreaker := DEFAULT_CIRCUIT_BREAKER;
     fs_securityGroups := ["ServiceSecurityGroup"];
     fs_serviceName :=
       if truthy_opt_string (serviceName props) then serviceName props else None |}.

(** A service that may drop to no healthy task while it is redeployed:
    [{ ..., minHealthyPercent: 0 }]. *)
Definition zeroMinHealthyProps : AlbFargateServiceProps :=
  {| ecsCluster := "Cluster"; loadBalancer := "LoadBalancer";
     taskDefinition := "TaskDefinition";
     platformVersion := None; desiredCount := None;
     minHealthyPercent := Some 0; maxHealthyPercent := None;
     healthCheckGracePeriod := None; serviceName := None |}.

End Fargate.

(** ** Numbers as strings, durations in seconds *)
Module JsNumber.

(** [n.toString()] for a safe integer [n]: its decimal digits, after a [-]
    when [n] is negative.  (JavaScript writes the digits of every integer
    below [10^21] in absolute value and uses an exponent from there on;
    the numbers of that size are not represented.) *)
Definition toString (n : Z) : string := pretty n.

(** [Math.trunc(a / b)] for safe integers [a] and [b > 0]: the quotient,
    rounded towards zero.  The division of JavaScript rounds the quotient
    to the nearest double; below [2^53] that double lies between the same
    two integers as the quotient itself, so that truncating it gives the
    integer part of the quotient. *)
Definition trunc_quotient (a b : Z) : Z := Z.quot a b.

(** The safe integers: [Number.isSafeInteger]. *)
Definition MAX_SAFE_INTEGER : Z := 2 ^ 53 - 1.
Definition isSafeInteger (n : Z) : Prop :=
  - MAX_SAFE_INTEGER ≤ n ≤ MAX_SAFE_INTEGER.

(** [a || d] on strings. *)
Definition or_string (a d : string) : string :=
  if truthy_string a then a else d.

(** [duration.toSeconds()] *)
Definition toSeconds (d : Duration) : Z :=
  match d with
  | Duration_days amount => amount * 86400
  | Duration_seconds amount => amount
  end.

(** [obj[key]] on an object whose values are strings, kept as an
    association list in insertion order. *)
Definition property (key : string) (obj : list (string * string))
  : option string :=
  snd <$> find (λ kv, bool_decide (fst kv = key)) obj.

End JsNumber.
Export JsNumber.

(** ** cloudwatch-data-protection/data-protection-policy.ts: log groups *)
Module Logs.
Import DataProtection.

Inductive RetentionDays : Type := ONE_YEAR | TEN_YEARS | INFINITE.

(** [Stack.of(scope)] *)
Record Stack : Type := {
  region : string;
  partition : string;
  account : string;
}.

(** The L1 construct of a log group; [propertyOverrides] holds the calls of
    [addPropertyOverride] made on it, oldest first. *)
Record CfnLogGroup : Type := {
  propertyOverrides : list (string * json);
}.
Definition addPropertyOverride (propertyPath : string) (value : json)
    (cfnLogGroup : CfnLogGroup) : CfnLogGroup :=
  {| propertyOverrides :=
       propertyOverrides cfnLogGroup ++ [(propertyPath, value)] |}.

(** An L2 log group.  [logGroupName] is the attribute of that name, for a
    new group the reference aws-cdk-lib hands out. *)
Record LogGroup : Type := {
  logGroup_id : string;
  logGroupName : string;
  retention : option RetentionDays;
  encryptionKey : option IKey;
  defaultChild : CfnLogGroup;
}.

(** A statement of a key policy: its principals are service principals and
    its resources are written out. *)
Record KeyPolicyStatement : Type := {
  kp_effect : Effect;
  kp_actions : list string;
  kp_servicePrincipals : list string;
  kp_resources : list string;
  kp_conditions : list (string * list (string * ConditionValue));
}.

(** What the functions below add to [scope]. *)
Inductive Construct : Type :=
| KeyConstruct (k : IKey) (resourcePolicy : list KeyPolicyStatement)
| LogGroupConstruct (g : LogGroup).

Definition addDataProtectionPolicyForCfnLogGroup (cfnLogGroup : CfnLogGroup)
    (props : CwDataProtectionPolicyProps) : outcome CfnLogGroup :=
  bind (cloudwatchDataProtectionPolicy props) (λ policy,
    Returns (addPropertyOverride "DataProtectionPolicy" policy cfnLogGroup)).

(** Returns the log group as the call leaves it. *)
Definition addDataProtectionPolicy (logGroup : LogGroup)
    (props : CwDataProtectionPolicyProps) : outcome LogGroup :=
  let cfnLogGroup := defaultChild logGroup in
  bind (addDataProtectionPolicyForCfnLogGroup cfnLogGroup props)
    (λ cfnLogGroup',
      Returns
        {| logGroup_id := logGroup_id logGroup;
           logGroupName := logGroupName logGroup;
           retention := retention logGroup;
           encryptionKey := encryptionKey logGroup;
           defaultChild := cfnLogGroup' |}).

(** The key and the statement added to its resource policy. *)
Definition createEncryptionKeyForAuditLogGroup (stack : Stack)
  : IKey * KeyPolicyStatement :=
  let encryptionKey :=
    NewKey "CwDataProtectionKmsKey"
      {| description :=
           "KMS Key for encrypting CW data protection audit log group";
         enableKeyRotation := true |} in
  let policyStatement :=
    {| kp_actions :=
         [ "kms:Decrypt*";
           "kms:DescribeKey*";
           "kms:Encrypt*";
           "kms:GenerateDataKey*";
           "kms:ReEncrypt*" ];
       kp_effect := ALLOW;
       kp_servicePrincipals :=
         ["logs." +:+ region stack +:+ ".amazonaws.com"];
       kp_resources := ["*"];
       kp_conditions := [] |} in
  let policyStatement :=
    {| kp_actions := kp_actions policyStatement;
       kp_effect := kp_effect policyStatement;
       kp_servicePrincipals := kp_servicePrincipals policyStatement;
       kp_resources := kp_resources policyStatement;
       kp_conditions :=
         kp_conditions policyStatement
         ++ [("ArnLike",
              [("kms:EncryptionContext:aws:logs:arn",
                CvString ("arn:" +:+ partition stack +:+ ":logs:"
                            +:+ region stack +:+ ":" +:+ account stack
                            +:+ ":*"))])] |} in
  (encryptionKey, policyStatement).

(** [createDataProtectionAuditLogGroup(scope, encryptionKey?)].  [name] is
    the [logGroupName] attribute of the new group.  The result comes with
    the constructs added to [scope], oldest first.  The key and the log
    group are made under fixed ids; that [scope] has no child of these ids
    yet, so that aws-cdk-lib makes them, is taken for granted. *)
Definition createDataProtectionAuditLogGroup (stack : Stack) (name : string)
    (encryptionKey : option IKey) : LogGroup * list Construct :=
  let '(encryptionKey', keys) :=
    match encryptionKey with
    | Some k => (k, [])
    | None =>
        let '(k, st) := createEncryptionKeyForAuditLogGroup stack in
        (k, [KeyConstruct k [st]])
    end in
  let auditLogGroup :=
    {| logGroup_id := "AuditLogGroup";
       logGroupName := name;
       retention := Some TEN_YEARS;
       encryptionKey := Some encryptionKey';
       defaultChild := {| propertyOverrides := [] |} |} in
  (auditLogGroup, keys ++ [LogGroupConstruct auditLogGroup]).

End Logs.

(** ** ecs/fargate/fargate-data-protection-policy-util.ts *)
Module FargateLogs.
Import DataProtection Logs.

(** A container of a task definition: what its getter [containerPort]
    does (aws-cdk-lib reads the port off the first port mapping and throws
    when there is none) and, of its child constructs, the log groups with
    their ids. *)
Record ContainerDefinition : Type := {
  containerPort : outcome Z;
  children : list (string * LogGroup);
}.
(** [container.node.tryFindChild(id)] *)
Definition tryFindChild (id : string) (container : ContainerDefinition)
  : option LogGroup :=
  snd <$> find (λ child, bool_decide (fst child = id)) (children container).

Record FargateTaskDefinition : Type := {
  defaultContainer : option ContainerDefinition;
}.

Definition getLogGroupForFargateService (container : ContainerDefinition)
  : outcome LogGroup :=
  match tryFindChild "LogGroup" container with
  | None =>
      let errorMessage :=
        "No child found with id: 'LogGroup'."
        +:+ " This means you have setup Logs with fire-lens "
        +:+ "or created a new log group for service logs with different Id." in
      Throws errorMessage
  | Some logGroup => Returns logGroup
  end.

Definition getServiceContainerForFargateService
    (taskDefinition : FargateTaskDefinition) : option ContainerDefinition :=
  defaultContainer taskDefinition.

(** What a call of [addDataProtectionPolicyToFargateContainerLogs] has done:
    the constructs added to [scope], the dependencies added to the service,
    and the log group of the service container as the call leaves it
    ([None] when the call returned before it reached one). *)
Record LogsProtection : Type := {
  created : list Construct;
  serviceDependencies : list LogGroup;
  serviceLogGroup : option LogGroup;
}.
Definition nothingDone : LogsProtection :=
  {| created := []; serviceDependencies := []; serviceLogGroup := None |}.

(** [{ ...dataProtectionPolicyProps, auditLogGroupName: name }] *)
Definition withAuditLogGroupName
    (dataProtectionPolicyProps : option CwDataProtectionPolicyProps)
    (name : string) : CwDataProtectionPolicyProps :=
  {| auditLogGroupName := Some name;
     addToDefaultDataIdentifiers :=
       dataProtectionPolicyProps ≫= addToDefaultDataIdentifiers;
     excludeFromDefaultDataIdentifiers :=
       dataProtectionPolicyProps ≫= excludeFromDefaultDataIdentifiers |}.

(** The props [{}]. *)
Definition emptyProps : CwDataProtectionPolicyProps :=
  {| auditLogGroupName := None;
     addToDefaultDataIdentifiers := None;
     excludeFromDefaultDataIdentifiers := None |}.

(** [auditName] is the [logGroupName] attribute of the audit log group the
    function makes when it makes one.  The only error in the embedding is
    the one of the policy function; a failure of aws-cdk-lib while the
    audit log group is made has no outcome here, see
    [createDataProtectionAuditLogGroup]. *)
Definition addDataProtectionPolicyToFargateContainerLogs (stack : Stack)
    (auditName : string) (taskDefinition : FargateTaskDefinition)
    (dataProtectionPolicyProps : option CwDataProtectionPolicyProps)
  : outcome LogsProtection :=
  match getServiceContainerForFargateService taskDefinition with
  | Some serviceContainer =>
      match getLogGroupForFargateService serviceContainer with
      | Throws _ =>
          (* no log group found *)
          Returns nothingDone
      | Diverges => Diverges
      | Returns serviceLogGroup =>
          let '(dataProtectionPolicyPropsOverride, created', dependencies) :=
            if negb (truthy_opt_string
                       (dataProtectionPolicyProps ≫= auditLogGroupName))
            then
              let '(auditLogGroup, created') :=
                createDataProtectionAuditLogGroup stack auditName None in
              (Some (withAuditLogGroupName dataProtectionPolicyProps
                       (logGroupName auditLogGroup)),
               created', [auditLogGroup])
            else (dataProtectionPolicyProps, [], []) in
          match dataProtectionPolicyPropsOverride with
          | Some props =>
              bind (addDataProtectionPolicy serviceLogGroup props)
                (λ serviceLogGroup',
                  Returns
                    {| created := created';
                       serviceDependencies := dependencies;
                       serviceLogGroup := Some serviceLogGroup' |})
          | None =>
              (* [dataProtectionPolicyPropsOverride!] on a missing value;
                 never reached, a truthy name comes from present props *)
              Throws "TypeError"
          end
      end
  | None => Returns nothingDone
  end.

End FargateLogs.

(** ** alb/alb.ts *)
Module Alb.

Definition DEFAULT_LISTENER_PORT : Z := 443.
Definition DEFAULT_TARGET_GROUP_PORT : Z := 8080.
Inductive ApplicationProtocol : Type := HTTP | HTTPS.
Definition SECURE_PROTOCOL : ApplicationProtocol := HTTPS.
Inductive SslPolicy : Type := RECOMMENDED_TLS | RECOMMENDED | LEGACY.

(** alb/domain-properties.ts; of the hosted zone the constructor reads
    [zoneName] only. *)
Record HostedZone : Type := {
  zoneName : string;
}.
Record DomainProps : Type := {
  hostedZone : HostedZone;
  domainNamePrefix : string;
  enableRegionalEndpoint : option bool;
  domain_region : option string;
}.

Record ApplicationLoadBalancerProps : Type := {
  vpc : string;
  domainProps : DomainProps;
  listenerPort : option Z;
  targetGroupPort : option Z;
  accessLogsS3BucketName : option string;
  idleTimeout : option Duration;
}.

Record Listener : Type := {
  listener_protocol : ApplicationProtocol;
  listener_port : Z;
  listener_open : bool;
  sslPolicy : SslPolicy;
  certificateDomainNames : list string;
}.
Record TargetGroup : Type := {
  tg_protocol : ApplicationProtocol;
  tg_port : Z;
  healthCheck_port : string;
  healthCheck_path : string;
  healthCheck_protocol : ApplicationProtocol;
}.

(** The load balancer as the constructor leaves it. *)
Record LoadBalancer : Type := {
  securityGroup : string;
  allowAllOutbound : bool;
  internetFacing : bool;
  deletionProtection : bool;
  lb_idleTimeout : option Duration;
  attributes : list (string * string);
  accessLogsBucket : S3.S3Bucket;
  accessLogsPrefix : string;
  listener : Listener;
  targetGroup : TargetGroup;
  recordName : string;
}.

(** The props handed to [new AccessLogsBucket] on lines 96-99. *)
Definition accessLogsProps (bucketName : option string)
  : S3.BucketProps S3.IBucket :=
  {| S3.bucketName := bucketName;
     S3.encryption := Some S3.S3_MANAGED;
     S3.encryptionKey := None;
     S3.serverAccessLogsBucket := None; S3.serverAccessLogsPrefix := None;
     S3.lifecycleRules := None; S3.versioned := None;
     S3.blockPublicAccess := None; S3.objectOwnership := None;
     S3.requireSecureTransport := None;
     S3.enableAccessLogging := None; S3.enableDefaultLifecycleRules := None;
     S3.undefinedKeys := undefinedKey "bucketName" bucketName |}.

(** [new CustomApplicationLoadBalancer(scope, id, props)].  [cdkBucket]
    stands for the checks of [s3.Bucket]; [cdkBefore] and [cdkAfter] stand
    for the checks of the aws-cdk-lib constructs made before the access-log
    bucket (security group, load balancer) and after it (listener,
    certificate, target group, DNS record).  The result comes with the
    constructs the access-log bucket added to the scope. *)
Definition CustomApplicationLoadBalancer
    (cdkBefore cdkAfter : validator ApplicationLoadBalancerProps)
    (cdkBucket : validator (S3.BucketProps S3.S3Bucket))
    (id : string) (props : ApplicationLoadBalancerProps)
  : outcome (LoadBalancer * list S3.Construct) :=
  bind (cdk_super cdkBefore props ()) (λ _,
  bind (S3.AccessLogsBucket_new cdkBucket 2 "alb-access-logs"
          (accessLogsProps (accessLogsS3BucketName props)))
    (λ '(bucket, added),
      let domainName :=
        domainNamePrefix (domainProps props) +:+ "."
        +:+ zoneName (hostedZone (domainProps props)) in
      cdk_super cdkAfter props
        ({| securityGroup := "ALBSecurityGroup";
            allowAllOutbound := false;
            internetFacing := true;
            deletionProtection := true;
            lb_idleTimeout := idleTimeout props;
            attributes :=
              [("routing.http.drop_invalid_header_fields.enabled", "true")];
            accessLogsBucket := bucket;
            accessLogsPrefix := "alb-access-logs";
            listener :=
              {| listener_protocol := SECURE_PROTOCOL;
                 listener_port := default DEFAULT_LISTENER_PORT (listenerPort props);
                 listener_open := true;
                 sslPolicy := RECOMMENDED_TLS;
                 certificateDomainNames := [domainName] |};
            targetGroup :=
              {| tg_protocol := HTTP;
                 tg_port :=
                   default DEFAULT_TARGET_GROUP_PORT (targetGroupPort props);
                 healthCheck_port := "traffic-port";
                 healthCheck_path := "/ping";
                 healthCheck_protocol := HTTP |};
            recordName := domainName |},
         added))).

End Alb.

(** ** ecs/fargate/jlb-relay.ts *)
Module JlbRelay.
Import Logs.

Definition JLB_RELAY_PORT : Z := 9001.
Definition DEFAULT_SERVICE_PORT : Z := 8080.

(** [JlbRelaySidecarProps extends SidecarProps]; of [stageContext] the
    constructor reads [name] only, and the application container is a
    handle.  [maxConnections] is a number of connections: a safe integer in
    every use, which is the range [environmentVars] is to be read on. *)
Record JlbRelaySidecarProps : Type := {
  appName : string;
  appContainerDefinition : string;
  stageContext_name : string;
  certificateMaterialSet : string;
  maxConnections : Z;
  servicePort : option Z;
  cpu : option Z;
  memoryLimitMiB : option Z;
  memoryReservationMiB : option Z;
}.

(** [environmentVars] as it stands when the container is added; [random] is
    the value of [Math.random().toString(36).substring(8)].  The two
    entries computed from [maxConnections] are those of the constructor for
    a [maxConnections] that is a safe integer. *)
Definition environmentVars (random : string) (props : JlbRelaySidecarProps)
  : list (string * string) :=
  let metricNamespace := appName props +:+ "-JlbRelay" in
  let environmentVars :=
    [ ("STAGE", stageContext_name props);
      ("METRICS_NAMESPACE", metricNamespace);
      ("RELAY_METRICS_PREFIX", appName props);
      ("RELAY_METRICS_MARKETPLACE_PREFIX", appName props);
      (* JlbRelay recommends 1 worker per 100 backend connections *)
      ("RELAY_WORKERS",
       toString (trunc_quotient (maxConnections props) 100 + 1));
      (* 2 connections reserved for JlbRelay health checks *)
      ("RELAY_UPSTREAM_MAX_CONNECTIONS", toString (maxConnections props - 2));
      ("RELAY_UPSTREAM_PORT",
       if truthy_opt_number (servicePort props)
       then toString (default 0 (servicePort props))
       else toString DEFAULT_SERVICE_PORT);
      ("RELAY_HTTPS_UPSTREAM_PORT",
       if truthy_opt_number (servicePort props)
       then toString (default 0 (servicePort props))
       else toString DEFAULT_SERVICE_PORT);
      ("RELAY_HTTPS_DOWNSTREAM_PORT", toString JLB_RELAY_PORT);
      ("CERTIFICATE_MATERIAL_SET", certificateMaterialSet props) ] in
  if bool_decide (stageContext_name props = "Dev")
  then environmentVars ++ [("DEPLOYMENT_ID", random)]
  else environmentVars.

(** The options of [taskDef.addContainer('JlbRelay', {...})] with the port
    mappings and the container dependencies added afterwards. *)
Record JlbRelayContainer : Type := {
  essential : bool;
  streamPrefix : string;
  logRetention : RetentionDays;
  container_cpu : option Z;
  container_memoryLimitMiB : option Z;
  container_memoryReservationMiB : option Z;
  environment : list (string * string);
  healthCheck_command : list string;
  healthCheck_startPeriod : Duration;
  healthCheck_timeout : Duration;
  portMappings : list Z;
  containerDependencies : list string;
}.

Record JlbRelaySidecar : Type := {
  this_appName : string;
  this_metricNamespace : string;
  jlbRelayContainer : JlbRelayContainer;
}.

Definition JlbRelaySidecar_new (random : string) (props : JlbRelaySidecarProps)
  : JlbRelaySidecar :=
  {| this_appName := appName props;
     this_metricNamespace := appName props +:+ "-JlbRelay";
     jlbRelayContainer :=
       {| essential := true;
          streamPrefix := appName props +:+ "-JlbRelay";
          logRetention := TEN_YEARS;
          container_cpu := cpu props;
          container_memoryLimitMiB := memoryLimitMiB props;
          container_memoryReservationMiB := memoryReservationMiB props;
          environment := environmentVars random props;
          healthCheck_command :=
            ["CMD-SHELL"; "/opt/amazon/bin/health-check.sh"];
          (* [Duration.minutes(5)] *)
          healthCheck_startPeriod := Duration_seconds (5 * 60);
          healthCheck_timeout := Duration_seconds 5;
          portMappings := [JLB_RELAY_PORT];
          containerDependencies := [appContainerDefinition props] |} |}.

End JlbRelay.

(** ** ecs/fargate/alb-fargate-service.ts, ecs/fargate/nlb-fargate-service.ts *)
Module FargateServices.
Import DataProtection Logs FargateLogs.

Definition DEFAULT_CONTAINER_PORT : Z := 8080.

(** [ec2.Peer.ipv4(cluster.vpc.vpcCidrBlock)] or a security group *)
Inductive Peer : Type :=
| VpcCidrBlock (cluster : string)
| SecurityGroupOf (loadBalancer : string).

Record IngressRule : Type := {
  rule_peer : Peer;
  rule_port : Z;
  rule_description : string;
}.

(** [AlbFargateService] as the constructor leaves it: the props of its
    [FargateService], what was done for the logs, the ingress rules of the
    service security group and the targets added to the load balancer's
    target group. *)
Record AlbFargateService : Type := {
  service : Fargate.FargateServiceProps;
  logsProtection : LogsProtection;
  ingressRules : list IngressRule;
  targets : list string;
}.

(** [this.loadBalancer.targetGroup.addTarget(this.service)]: the targets of
    the target group after the call.  aws-cdk-lib registers the default
    container of the service's task definition and reads its name for that;
    on a task definition without containers this read is one of a property
    of [undefined] and throws a [TypeError], whose text is the engine's. *)
Definition addTarget (taskDefinition : FargateTaskDefinition)
    (service : string) : outcome (list string) :=
  match defaultContainer taskDefinition with
  | Some _ => Returns [service]
  | None => Throws "TypeError"
  end.

(** [new AlbFargateService(scope, id, props)].  [taskDefinition] and
    [dataProtectionPolicyProps] are the members of [props] of these names:
    the task definition itself, of which [Fargate.AlbFargateServiceProps]
    keeps the handle, and the policy props.  [cdkService] stands for the
    checks of [FargateService]. *)
Definition AlbFargateService_new
    (cdkService : validator Fargate.FargateServiceProps)
    (stack : Stack) (auditName : string)
    (props : Fargate.AlbFargateServiceProps)
    (taskDefinition : FargateTaskDefinition)
    (dataProtectionPolicyProps : option CwDataProtectionPolicyProps)
  : outcome AlbFargateService :=
  let serviceProps := Fargate.AlbFargateService_serviceProps props in
  bind (cdk_super cdkService serviceProps ()) (λ _,
  (* Add data protection policy to aws-logs *)
  bind (addDataProtectionPolicyToFargateContainerLogs stack auditName
          taskDefinition dataProtectionPolicyProps)
    (λ logs,
  bind (match defaultContainer taskDefinition with
        | Some container => containerPort container
        | None => Returns DEFAULT_CONTAINER_PORT
        end)
    (λ containerPort,
  bind (addTarget taskDefinition "FargateService")
    (λ targets,
      Returns
        {| service := serviceProps;
           logsProtection := logs;
           ingressRules :=
             [ {| rule_peer := SecurityGroupOf (Fargate.loadBalancer props);
                  rule_port := containerPort;
                  rule_description :=
                    "Allow the inbound traffic on port "
                    +:+ toString containerPort |} ];
           targets := targets |})))).

Record EndToEndTlsConfig : Type := {
}.

(** A task definition with one container, which listens on port 8443 and
    logs to the log group ['LogGroup']. *)
Definition exampleTaskDefinition : FargateTaskDefinition :=
  {| defaultContainer :=
       Some {| containerPort := Returns 8443;
               children :=
                 [("LogGroup",
                   {| logGroup_id := "LogGroup"; logGroupName := "service";
                      retention := None; encryptionKey := None;
                      defaultChild := {| propertyOverrides := [] |} |})] |} |}.

Record NlbFargateServiceProps : Type := {
  ecsCluster : string;
  taskDefinition : FargateTaskDefinition;
  accessLogsS3BucketName : option string;
  publicAccessEnabled : option bool;
  platformVersion : option Fargate.FargatePlatformVersion;
  desiredCount : option Z;
  minHealthyPercent : option Z;
  maxHealthyPercent : option Z;
  healthCheckGracePeriod : option Duration;
  deregistrationDelay : option Duration;
  endToEndTlsConfig : option EndToEndTlsConfig;
  circuitBreakerEnabled : option bool;
  circuitBreaker : option Fargate.DeploymentCircuitBreaker;
  dataProtectionPolicyProps : option CwDataProtectionPolicyProps;
}.

Definition DEFAULT_PUBLIC_ACCESS : bool := false.
Definition DEFAULT_TASK_COUNT : Z := 1.
Definition DEFAULT_PLATFORM_VERSION : Fargate.FargatePlatformVersion :=
  Fargate.LATEST.
Definition DEFAULT_MIN_HEALTHY_PERCENT : Z := 100.
Definition DEFAULT_MAX_HEALTHY_PERCENT : Z := 200.
Definition DEFAULT_HEALTH_CHECK_GRACE_PERIOD : Duration := Duration_seconds 60.
Definition DEFAULT_DEREGISTRATION_DELAY : Duration := Duration_seconds 60.
Definition DEFAULT_CIRCUIT_BREAKER_ENABLED : bool := true.
Definition DEFAULT_CIRCUIT_BREAKER : Fargate.DeploymentCircuitBreaker :=
  {| Fargate.rollback := false |}.

(** The props of [new ecsPatterns.NetworkLoadBalancedFargateService]. *)
Record NetworkLoadBalancedFargateServiceProps : Type := {
  nlb_cluster : string;
  nlb_taskDefinition : FargateTaskDefinition;
  nlb_publicLoadBalancer : bool;
  nlb_desiredCount : Z;
  nlb_platformVersion : Fargate.FargatePlatformVersion;
  nlb_minHealthyPercent : Z;
  nlb_maxHealthyPercent : Z;
  nlb_healthCheckGracePeriod : Duration;
  nlb_circuitBreaker : option Fargate.DeploymentCircuitBreaker;
}.

Inductive Protocol : Type := HTTP | HTTPS | TCP | TLS | UDP | TCP_UDP.

Record HealthCheck : Type := {
  healthCheck_port : string;
  healthCheck_protocol : Protocol;
}.

(** [NlbFargateService] as the constructor leaves it.  [listenerOverride]
    and [targetGroupOverride] are the port and protocol written into the L1
    listener and target group, [allowedFrom] the calls of
    [connections.allowFrom] and [targetGroupAttributes] those of
    [setAttribute], oldest first. *)
Record NlbFargateService : Type := {
  nlbFargateService : NetworkLoadBalancedFargateServiceProps;
  nlb_logsProtection : LogsProtection;
  accessLogsBucket : S3.S3Bucket;
  accessLogsPrefix : string;
  listenerOverride : option (Z * Protocol);
  targetGroupOverride : option (Z * Protocol);
  allowedFrom : list IngressRule;
  healthCheck : HealthCheck;
  targetGroupAttributes : list (string * string);
}.

(** Lines 146-147. *)
Definition resolveCircuitBreaker (props : NlbFargateServiceProps)
  : option Fargate.DeploymentCircuitBreaker :=
  let circuitBreakerEnabled :=
    match circuitBreakerEnabled props with
    | None => DEFAULT_CIRCUIT_BREAKER_ENABLED
    | Some enabled => enabled
    end in
  if circuitBreakerEnabled
  then Some (default DEFAULT_CIRCUIT_BREAKER (circuitBreaker props))
  else None.

(** The value of ['deregistration_delay.timeout_seconds'] on line 231. *)
Definition deregistrationDelaySeconds (props : NlbFargateServiceProps)
  : string :=
  let fallback := toString (toSeconds DEFAULT_DEREGISTRATION_DELAY) in
  match deregistrationDelay props with
  | Some d => or_string (toString (toSeconds d)) fallback
  | None => fallback
  end.

(** [new NlbFargateService(scope, id, props)].  [cdkPattern] stands for the
    checks of [NetworkLoadBalancedFargateService] and [cdkBucket] for those
    of [s3.Bucket].  The result comes with the constructs the access-log
    bucket added to the scope. *)
Definition NlbFargateService_new
    (cdkPattern : validator NetworkLoadBalancedFargateServiceProps)
    (cdkBucket : validator (S3.BucketProps S3.S3Bucket))
    (stack : Stack) (auditName : string)
    (id : string) (props : NlbFargateServiceProps)
  : outcome (NlbFargateService * list S3.Construct) :=
  let circuitBreaker := resolveCircuitBreaker props in
  let patternProps :=
    {| nlb_cluster := ecsCluster props;
       nlb_taskDefinition := taskDefinition props;
       nlb_publicLoadBalancer :=
         if truthy_opt_bool (publicAccessEnabled props) then true
         else DEFAULT_PUBLIC_ACCESS;
       nlb_desiredCount := or_number (desiredCount props) DEFAULT_TASK_COUNT;
       nlb_platformVersion :=
         default DEFAULT_PLATFORM_VERSION (platformVersion props);
       nlb_minHealthyPercent :=
         or_number (minHealthyPercent props) DEFAULT_MIN_HEALTHY_PERCENT;
       nlb_maxHealthyPercent :=
         or_number (maxHealthyPercent props) DEFAULT_MAX_HEALTHY_PERCENT;
       nlb_healthCheckGracePeriod :=
         default DEFAULT_HEALTH_CHECK_GRACE_PERIOD
           (healthCheckGracePeriod props);
       nlb_circuitBreaker := circuitBreaker |} in
  bind (cdk_super cdkPattern patternProps ()) (λ _,
  (* Add data protection policy to aws-logs *)
  bind (addDataProtectionPolicyToFargateContainerLogs stack auditName
          (nlb_taskDefinition patternProps) (dataProtectionPolicyProps props))
    (λ logs,
  bind (S3.AccessLogsBucket_new cdkBucket 2 "nlb-access-logs"
          (Alb.accessLogsProps (accessLogsS3BucketName props)))
    (λ '(bucket, added),
      let vpc := VpcCidrBlock (nlb_cluster patternProps) in
      let '(listener, rules, target, check, attributes) :=
        match endToEndTlsConfig props with
        | Some _ =>
            (Some (443, TCP),
             [ {| rule_peer := vpc;
                  rule_port := JlbRelay.JLB_RELAY_PORT;
                  rule_description :=
                    "Allow only the traffic that originated from within the VPC on port "
                    +:+ toString JlbRelay.JLB_RELAY_PORT |} ],
             Some (JlbRelay.JLB_RELAY_PORT, TCP),
             {| healthCheck_port := toString JlbRelay.JLB_RELAY_PORT;
                healthCheck_protocol := TCP |},
             [("proxy_protocol_v2.enabled", "false")])
        | None =>
            (None,
             [ {| rule_peer := vpc;
                  rule_port := 80;
                  rule_description :=
                    "Allow only the traffic that originated from within the VPC on port 80" |};
               {| rule_peer := vpc;
                  rule_port := 8080;
                  rule_description :=
                    "Allow only the traffic that originated from within the VPC on port 8080" |} ],
             None,
             {| healthCheck_port := "traffic-port";
                healthCheck_protocol := TCP |},
             [])
        end in
      Returns
        ({| nlbFargateService := patternProps;
            nlb_logsProtection := logs;
            accessLogsBucket := bucket;
            accessLogsPrefix := "nlb-fargate-access-logs";
            listenerOverride := listener;
            targetGroupOverride := target;
            allowedFrom := rules;
            healthCheck := check;
            targetGroupAttributes :=
              attributes
              ++ [("deregistration_delay.timeout_seconds",
                   deregistrationDelaySeconds props)] |},
         added)))).

End FargateServices.

(** ** Predicates used to state the properties *)
Module Predicates.

(** The invariant of a [DynamoDBTable] with its indexes: a provisioned table
    carries two scaling registrations for itself and two for each index, any
    other table carries none. *)
Definition scalingRegistered (t : DynamoDB.Table) : Prop :=
  length (DynamoDB.autoScaling t)
  = if DynamoDB.usesProvisionedBillingMode t
    then (2 * (1 + length (DynamoDB.globalSecondaryIndexes t)))%nat
    else 0%nat.

(** The principal a grant is made to, and the key it is made on. *)
Definition granteeOf (g : SNS.Grant) : Principal :=
  match g with
  | SNS.KeyGrantEncrypt _ p | SNS.KeyGrantDecrypt _ p
  | SNS.GrantPublish p | SNS.GrantSubscribe p => p
  end.
Definition grantKeyOf (g : SNS.Grant) : option IKey :=
  match g with
  | SNS.KeyGrantEncrypt k _ | SNS.KeyGrantDecrypt k _ => Some k
  | SNS.GrantPublish _ | SNS.GrantSubscribe _ => None
  end.

(** The principals a queue has granted the right to consume and to send
    messages; the constructor makes no grant on a queue of the caller's. *)
Definition grantedConsumeOf (q : SQS.Queue) : list Principal :=
  match q with
  | SQS.CallerQueue _ => []
  | SQS.NewSQSQueue _ _ _ grantedConsume _ _ => grantedConsume
  end.
Definition grantedSendOf (q : SQS.Queue) : list Principal :=
  match q with
  | SQS.CallerQueue _ => []
  | SQS.NewSQSQueue _ _ _ _ grantedSend _ => grantedSend
  end.

(** A statement that denies uploads which name no KMS key. *)
Definition isRequireKmsDeny (st : PolicyStatement) : bool :=
  bool_decide (effect st = DENY) &&
  bool_decide (("Null",
                [("s3:x-amz-server-side-encryption-aws-kms-key-id", CvBool true)])
                 ∈ conditions st).

End Predicates.

(* ===================================================================== *)
(** * Part II: properties                                                 *)
(* ===================================================================== *)

(** ** Facts about the JavaScript primitives *)
Module JsFacts.

Lemma elem_of_foldl_set_add (l acc : list string) (x : string) :
  x ∈ foldl set_add acc l ↔ x ∈ acc ∨ x ∈ l.
Proof.
  revert acc. induction l as [|y l IH]; intros acc; simpl.
  - rewrite elem_of_nil. tauto.
  - rewrite IH, elem_of_cons. unfold set_add.
    destruct (decide (y ∈ acc)) as [Hy|Hy].
    + split; [tauto|]. intros [?|[->|?]]; auto.
    + rewrite elem_of_app, list_elem_of_singleton. tauto.
Qed.

Lemma NoDup_foldl_set_add (l acc : list string) :
  NoDup acc → NoDup (foldl set_add acc l).
Proof.
  revert acc. induction l as [|y l IH]; intros acc Hacc; simpl; [done|].
  apply IH. unfold set_add. destruct (decide (y ∈ acc)) as [Hy|Hy]; [done|].
  apply NoDup_app. split_and!; [done| |apply NoDup_singleton].
  intros z Hz ->%list_elem_of_singleton. done.
Qed.

Lemma elem_of_Set_from (l : list string) (x : string) :
  x ∈ Set_from l ↔ x ∈ l.
Proof.
  unfold Set_from. rewrite elem_of_foldl_set_add, elem_of_nil. tauto.
Qed.

Lemma NoDup_Set_from (l : list string) : NoDup (Set_from l).
Proof. apply NoDup_foldl_set_add, NoDup_nil_2. Qed.

Lemma sort_Permutation (l : list string) : sort l ≡ₚ l.
Proof. apply merge_sort_Permutation. Qed.

Lemma sort_sorted (l : list string) : StronglySorted String.le (sort l).
Proof. apply (StronglySorted_merge_sort String.le). Qed.

Lemma elem_of_sort (l : list string) (x : string) : x ∈ sort l ↔ x ∈ l.
Proof. by rewrite sort_Permutation. Qed.

Lemma NoDup_sort (l : list string) : NoDup l → NoDup (sort l).
Proof. by rewrite sort_Permutation. Qed.

Lemma mapM_json_string (ids : list string) :
  mapM json_string (JStr <$> ids) = Some ids.
Proof.
  induction ids as [|x ids IH]; [done|].
  cbn. rewrite IH. done.
Qed.

(** Strings: [+:+], [length] and [substring]. *)
Lemma string_app_nil_l (s : string) : "" +:+ s = s.
Proof. reflexivity. Qed.

Lemma string_app_cons (a : Ascii.ascii) (s t : string) :
  String a s +:+ t = String a (s +:+ t).
Proof. reflexivity. Qed.

Lemma string_app_assoc (s t u : string) : (s +:+ t) +:+ u = s +:+ (t +:+ u).
Proof.
  induction s as [|a s IH]; [done|].
  rewrite !string_app_cons. by rewrite IH.
Qed.

Lemma string_length_app (s t : string) :
  String.length (s +:+ t) = (String.length s + String.length t)%nat.
Proof.
  induction s as [|a s IH]; [done|].
  rewrite string_app_cons. simpl. by rewrite IH.
Qed.

Lemma substring_0_length (s : string) :
  String.substring 0 (String.length s) s = s.
Proof. induction s as [|a s IH]; [done|]. simpl. by rewrite IH. Qed.

Lemma substring_app_r (p s : string) (k : nat) :
  String.substring (String.length p) k (p +:+ s) = String.substring 0 k s.
Proof.
  induction p as [|a p IH]; [done|].
  rewrite string_app_cons. simpl. apply IH.
Qed.

Lemma substring_app_l (p s : string) :
  String.substring 0 (String.length p) (p +:+ s) = p.
Proof.
  induction p as [|a p IH]; [by destruct s|].
  rewrite string_app_cons. simpl. by rewrite IH.
Qed.

Lemma substring_split (s : string) (i : nat) :
  (i ≤ String.length s)%nat →
  s = String.substring 0 i s
      +:+ String.substring i (String.length s - i) s.
Proof.
  revert i. induction s as [|a s IH]; intros i Hi.
  - simpl in Hi. by replace i with 0%nat by lia.
  - destruct i as [|i].
    + simpl String.substring at 1. rewrite string_app_nil_l, Nat.sub_0_r.
      by rewrite substring_0_length.
    + simpl in Hi. simpl. rewrite string_app_cons. f_equal.
      apply IH. lia.
Qed.

(** [endsWith] says what it should. *)
Lemma endsWith_app (p suffix : string) : endsWith (p +:+ suffix) suffix = true.
Proof.
  unfold endsWith. rewrite string_length_app.
  destruct (decide _) as [_|Hk]; [|lia].
  replace (String.length p + String.length suffix - String.length suffix)%nat
    with (String.length p) by lia.
  rewrite substring_app_r, substring_0_length. apply String.eqb_refl.
Qed.

Lemma endsWith_inv (s suffix : string) :
  endsWith s suffix = true →
  ∃ p : string, s = p +:+ suffix
    ∧ String.length p = (String.length s - String.length suffix)%nat.
Proof.
  unfold endsWith. destruct (decide _) as [Hk|Hk]; [|done].
  intros Heq%String.eqb_eq.
  exists (String.substring 0 (String.length s - String.length suffix) s).
  assert (Hs := substring_split s (String.length s - String.length suffix)).
  replace (String.length s - (String.length s - String.length suffix))%nat
    with (String.length suffix) in Hs by lia.
  rewrite Heq in Hs. split; [apply Hs; lia|].
  apply (f_equal String.length) in Hs; [|lia].
  rewrite string_length_app in Hs. lia.
Qed.

Lemma lastIndexOf_endsWith (s suffix : string) :
  endsWith s suffix = true →
  lastIndexOf s suffix = Some (String.length s - String.length suffix)%nat.
Proof.
  unfold endsWith, lastIndexOf. destruct (decide _) as [Hk|Hk]; [|done].
  intros Heq.
  destruct (String.length s - String.length suffix)%nat; simpl; by rewrite Heq.
Qed.

End JsFacts.

(** ** The data-protection policy document *)
Module DataProtectionSpec.
Import DataIdentifiers DataProtection JsFacts.

Lemma excludeOne_cons (y x : string) (l : list string) :
  excludeOne (y :: l) x = if decide (y = x) then l else y :: excludeOne l x.
Proof.
  unfold excludeOne, splice1. simpl.
  destruct (decide (y = x)); [done|].
  destruct (indexOf l x); done.
Qed.

Lemma occurrences_cons (id y : string) (l : list string) :
  occurrences id (y :: l)
  = ((if decide (y = id) then 1 else 0) + occurrences id l)%nat.
Proof.
  unfold occurrences. rewrite filter_cons.
  destruct (decide (y = id)); done.
Qed.

Lemma occurrences_app (id : string) (l1 l2 : list string) :
  occurrences id (l1 ++ l2) = (occurrences id l1 + occurrences id l2)%nat.
Proof. unfold occurrences. by rewrite filter_app, length_app. Qed.

Lemma occurrences_pos (id : string) (l : list string) :
  (0 < occurrences id l)%nat ↔ id ∈ l.
Proof.
  induction l as [|y l IH]; [rewrite elem_of_nil; cbn; lia|].
  rewrite occurrences_cons, elem_of_cons.
  destruct (decide (y = id)) as [->|Hne]; [split; [auto|lia]|].
  rewrite Nat.add_0_l, IH. split; [auto|]. intros [?|?]; [congruence|done].
Qed.

(** Removing [x] takes away one occurrence of [x] and none of anything
    else. *)
Lemma occurrences_excludeOne (id x : string) (l : list string) :
  occurrences id (excludeOne l x)
  = if decide (x = id) then pred (occurrences id l) else occurrences id l.
Proof.
  induction l as [|y l IH].
  - cbn. by destruct (decide (x = id)).
  - rewrite excludeOne_cons.
    destruct (decide (y = x)) as [->|Hyx].
    + rewrite occurrences_cons. destruct (decide (x = id)); done.
    + rewrite !occurrences_cons, IH.
      destruct (decide (x = id)) as [->|Hx]; [|done].
      destruct (decide (y = id)); [congruence|]. done.
Qed.

Lemma occurrences_foldl_excludeOne (id : string) (excluded l : list string) :
  (occurrences id l - occurrences id excluded
   ≤ occurrences id (foldl excludeOne l excluded))%nat.
Proof.
  revert l. induction excluded as [|x excluded IH]; intros l; simpl.
  - cbn. lia.
  - specialize (IH (excludeOne l x)).
    rewrite occurrences_excludeOne in IH. rewrite occurrences_cons.
    destruct (decide (x = id)); lia.
Qed.

Lemma resolve_sorted (props : CwDataProtectionPolicyProps) :
  StronglySorted String.le (resolveDataIdentifiers props).
Proof. apply sort_sorted. Qed.

Lemma resolve_NoDup (props : CwDataProtectionPolicyProps) :
  NoDup (resolveDataIdentifiers props).
Proof. apply NoDup_sort, NoDup_Set_from. Qed.

Lemma policyDocument_mask (ids : list string) (dest : json) :
  dataIdentifierOf 0 (policyDocument ids dest) = Some ids.
Proof. cbn. apply mapM_json_string. Qed.

Lemma policyDocument_audit (ids : list string) (dest : json) :
  dataIdentifierOf 1 (policyDocument ids dest) = Some ids.
Proof. cbn. apply mapM_json_string. Qed.

Lemma policyDocument_destination (ids : list string) (dest : json) :
  findingsDestinationOf (policyDocument ids dest) = Some dest.
Proof. reflexivity. Qed.

Lemma policy_returns (props : CwDataProtectionPolicyProps) (doc : json) :
  cloudwatchDataProtectionPolicy props = Returns doc ↔
  resolveDataIdentifiers props ≠ [] ∧
  doc = policyDocument (resolveDataIdentifiers props) (findingsDestination props).
Proof.
  unfold cloudwatchDataProtectionPolicy.
  destruct (decide _) as [Hlen|Hlen].
  - apply nil_length_inv in Hlen. split; [done|]. intros [? _]. done.
  - split.
    + intros [= <-]. split; [|done]. intros Hnil. by rewrite Hnil in Hlen.
    + intros [_ ->]. done.
Qed.

(** The document for [{}]: the six default identifiers, in ascending
    order. *)
Example policy_of_empty_props :
  cloudwatchDataProtectionPolicy
    {| auditLogGroupName := None;
       addToDefaultDataIdentifiers := None;
       excludeFromDefaultDataIdentifiers := None |}
  = Returns
      (policyDocument
         [ ADDRESS_DATA_IDENTIFIER;
           AWS_SECRET_KEY_DATA_IDENTIFIER;
           EMAIL_DATA_IDENTIFIER;
           PHONE_NUM_US_DATA_IDENTIFIER;
           SSN_ES_DATA_IDENTIFIER;
           SSN_US_DATA_IDENTIFIER ]
         (JObj [])).
Proof. vm_compute. reflexivity. Qed.

(** Excluding every default leaves nothing, unless one of them was also
    added. *)
Example policy_without_identifiers :
  cloudwatchDataProtectionPolicy
    {| auditLogGroupName := None;
       addToDefaultDataIdentifiers := None;
       excludeFromDefaultDataIdentifiers :=
         Some DEFAULT_SENSITIVE_DATA_IDENTIFIERS |}
  = Throws "There should be at least one data identifier in the policy.".
Proof. vm_compute. reflexivity. Qed.

Example policy_added_default_survives :
  resolveDataIdentifiers
    {| auditLogGroupName := None;
       addToDefaultDataIdentifiers := Some [EMAIL_DATA_IDENTIFIER];
       excludeFromDefaultDataIdentifiers :=
         Some DEFAULT_SENSITIVE_DATA_IDENTIFIERS |}
  = [EMAIL_DATA_IDENTIFIER].
Proof. vm_compute. reflexivity. Qed.

(** C1, as stated, fails: with [auditLogGroupName] set to the empty string
    the document is returned, and its [FindingsDestination] is the empty
    object, not a reference to the supplied log group. *)
Lemma C1_counterexample_empty_audit_name :
  ¬ (∀ (props : CwDataProtectionPolicyProps) (doc : json) (name : string),
       cloudwatchDataProtectionPolicy props = Returns doc →
       auditLogGroupName props = Some name →
       findingsDestinationOf doc
       = Some (JObj [("CloudWatchLogs", JObj [("LogGroup", JStr name)])])).
Proof.
  intros H.
  specialize (H {| auditLogGroupName := Some "";
                   addToDefaultDataIdentifiers := None;
                   excludeFromDefaultDataIdentifiers := None |}
                _ "" eq_refl eq_refl).
  vm_compute in H. discriminate H.
Qed.

(** C1 (amended): whenever [cloudwatchDataProtectionPolicy] returns, the
    document has the name, the description, the version ['2021-06-01'] and
    exactly two statements; the mask statement and the audit statement carry
    one and the same sorted, duplicate-free identifier list; the audit
    statement's [FindingsDestination] references the supplied log group when
    [auditLogGroupName] is a non-empty string and is the empty object when it
    is unset or empty. *)
Theorem C1_policy_document_shape
    (props : CwDataProtectionPolicyProps) (doc : json) :
  cloudwatchDataProtectionPolicy props = Returns doc →
  ∃ (ids : list string) (destination : json),
    doc = JObj [
      ("Name", JStr "data-protection-policy");
      ("Description", JStr "Data protection policy for cloudwatch logs");
      ("Version", JStr "2021-06-01");
      ("Statement", JArr [
        JObj [
          ("Sid", JStr "redact-data-protection-policy");
          ("Operation", JObj [("Deidentify", JObj [("MaskConfig", JObj [])])]);
          ("DataIdentifier", JArr (JStr <$> ids)) ];
        JObj [
          ("Sid", JStr "audit-data-protection-policy");
          ("Operation",
            JObj [("Audit", JObj [("FindingsDestination", destination)])]);
          ("DataIdentifier", JArr (JStr <$> ids)) ] ]) ]
    ∧ StronglySorted String.le ids
    ∧ NoDup ids
    ∧ dataIdentifierOf 0 doc = Some ids
    ∧ dataIdentifierOf 1 doc = Some ids
    ∧ findingsDestinationOf doc = Some destination
    ∧ destination =
        match auditLogGroupName props with
        | Some name =>
            if decide (name = "") then JObj []
            else JObj [("CloudWatchLogs", JObj [("LogGroup", JStr name)])]
        | None => JObj []
        end.
Proof.
  intros [Hne ->]%policy_returns.
  exists (resolveDataIdentifiers props), (findingsDestination props).
  split_and!.
  - reflexivity.
  - apply resolve_sorted.
  - apply resolve_NoDup.
  - apply policyDocument_mask.
  - apply policyDocument_audit.
  - apply policyDocument_destination.
  - unfold findingsDestination, truthy_string.
    destruct (auditLogGroupName props) as [name|]; [|done].
    destruct (decide (name = "")) as [->|Hname]; [done|].
    apply String.eqb_neq in Hname. by rewrite Hname.
Qed.

Lemma C1_policy_document_shape_witness :
  ∃ doc : json,
    cloudwatchDataProtectionPolicy
      {| auditLogGroupName := Some "audit-findings";
         addToDefaultDataIdentifiers := None;
         excludeFromDefaultDataIdentifiers := None |} = Returns doc
    ∧ dataIdentifierOf 0 doc = dataIdentifierOf 1 doc
    ∧ findingsDestinationOf doc
      = Some (JObj [("CloudWatchLogs",
                     JObj [("LogGroup", JStr "audit-findings")])]).
Proof.
  eexists. split; [vm_compute; reflexivity|].
  destruct (C1_policy_document_shape
              {| auditLogGroupName := Some "audit-findings";
                 addToDefaultDataIdentifiers := None;
                 excludeFromDefaultDataIdentifiers := None |} _ eq_refl)
    as (ids & destination & _ & _ & _ & Hmask & Haudit & Hdest & Hd).
  split.
  - etrans; [exact Hmask|symmetry; exact Haudit].
  - etrans; [exact Hdest|]. rewrite Hd. reflexivity.
Defined.

(** C2: the identifier list of a synthesized document is sorted, free of
    duplicates and non-empty, in both statements; and when the resolved list
    (defaults, then additions, then exclusions, then deduplication) is empty
    the function throws and returns no document. *)
Theorem C2_identifier_list_sorted_dedup_nonempty
    (props : CwDataProtectionPolicyProps) :
  (∀ doc : json,
     cloudwatchDataProtectionPolicy props = Returns doc →
     ∃ ids : list string,
       dataIdentifierOf 0 doc = Some ids
       ∧ dataIdentifierOf 1 doc = Some ids
       ∧ StronglySorted String.le ids
       ∧ NoDup ids
       ∧ ids ≠ [])
  ∧ (resolveDataIdentifiers props = [] →
     cloudwatchDataProtectionPolicy props
     = Throws "There should be at least one data identifier in the policy.")
  ∧ (∀ x : string,
       x ∈ resolveDataIdentifiers props ↔
       x ∈ foldl excludeOne
             (DEFAULT_SENSITIVE_DATA_IDENTIFIERS
                ++ default [] (addToDefaultDataIdentifiers props))
             (default [] (excludeFromDefaultDataIdentifiers props))).
Proof.
  split_and!.
  - intros doc [Hne ->]%policy_returns.
    exists (resolveDataIdentifiers props). split_and!.
    + apply policyDocument_mask.
    + apply policyDocument_audit.
    + apply resolve_sorted.
    + apply resolve_NoDup.
    + done.
  - intros Hnil. unfold cloudwatchDataProtectionPolicy. by rewrite Hnil.
  - intros x. unfold resolveDataIdentifiers.
    rewrite elem_of_sort, elem_of_Set_from.
    by destruct (excludeFromDefaultDataIdentifiers props).
Qed.

Lemma C2_identifier_list_witness :
  (∃ ids : list string,
     dataIdentifierOf 0
       (policyDocument [ADDRESS_DATA_IDENTIFIER] (JObj [])) = Some ids
     ∧ ids ≠ [])
  ∧ cloudwatchDataProtectionPolicy
      {| auditLogGroupName := None;
         addToDefaultDataIdentifiers := None;
         excludeFromDefaultDataIdentifiers :=
           Some DEFAULT_SENSITIVE_DATA_IDENTIFIERS |}
    = Throws "There should be at least one data identifier in the policy.".
Proof.
  split.
  - destruct (C2_identifier_list_sorted_dedup_nonempty
                {| auditLogGroupName := None;
                   addToDefaultDataIdentifiers := None;
                   excludeFromDefaultDataIdentifiers :=
                     Some [ EMAIL_DATA_IDENTIFIER; SSN_US_DATA_IDENTIFIER;
                            SSN_ES_DATA_IDENTIFIER; PHONE_NUM_US_DATA_IDENTIFIER;
                            AWS_SECRET_KEY_DATA_IDENTIFIER ] |})
      as (Hdoc & _ & _).
    destruct (Hdoc (policyDocument [ADDRESS_DATA_IDENTIFIER] (JObj [])) eq_refl)
      as (ids & Hmask & _ & _ & _ & Hne).
    by exists ids.
  - apply (C2_identifier_list_sorted_dedup_nonempty
             {| auditLogGroupName := None;
                addToDefaultDataIdentifiers := None;
                excludeFromDefaultDataIdentifiers :=
                  Some DEFAULT_SENSITIVE_DATA_IDENTIFIERS |}).
    reflexivity.
Defined.

(** C9: an identifier that is both a default and an added one, and that is
    excluded once, is still in the identifier list of the policy, which is
    returned: exclusion removes one occurrence, before deduplication. *)
Theorem C9_duplicated_identifier_survives_exclusion
    (props : CwDataProtectionPolicyProps) (id : string) :
  id ∈ DEFAULT_SENSITIVE_DATA_IDENTIFIERS →
  id ∈ default [] (addToDefaultDataIdentifiers props) →
  occurrences id (default [] (excludeFromDefaultDataIdentifiers props)) = 1%nat →
  ∃ (doc : json) (ids : list string),
    cloudwatchDataProtectionPolicy props = Returns doc
    ∧ dataIdentifierOf 0 doc = Some ids
    ∧ dataIdentifierOf 1 doc = Some ids
    ∧ id ∈ ids.
Proof.
  intros Hdef Hadd Hexcl.
  assert (Hin : id ∈ resolveDataIdentifiers props).
  { unfold resolveDataIdentifiers.
    rewrite elem_of_sort, elem_of_Set_from.
    apply occurrences_pos in Hdef, Hadd.
    set (l := DEFAULT_SENSITIVE_DATA_IDENTIFIERS
                ++ default [] (addToDefaultDataIdentifiers props)).
    assert (Hl : (2 ≤ occurrences id l)%nat).
    { unfold l. rewrite occurrences_app. lia. }
    destruct (excludeFromDefaultDataIdentifiers props) as [excluded|];
      simpl in Hexcl.
    - apply occurrences_pos.
      pose proof (occurrences_foldl_excludeOne id excluded l). lia.
    - apply occurrences_pos. lia. }
  exists (policyDocument (resolveDataIdentifiers props) (findingsDestination props)),
         (resolveDataIdentifiers props).
  split_and!.
  - apply policy_returns. split; [|done].
    intros Hnil. rewrite Hnil in Hin. by apply elem_of_nil in Hin.
  - apply policyDocument_mask.
  - apply policyDocument_audit.
  - done.
Qed.

Lemma C9_duplicated_identifier_witness :
  ∃ (doc : json) (ids : list string),
    cloudwatchDataProtectionPolicy
      {| auditLogGroupName := None;
         addToDefaultDataIdentifiers := Some [ADDRESS_DATA_IDENTIFIER];
         excludeFromDefaultDataIdentifiers := Some [ADDRESS_DATA_IDENTIFIER] |}
    = Returns doc
    ∧ dataIdentifierOf 0 doc = Some ids
    ∧ dataIdentifierOf 1 doc = Some ids
    ∧ ADDRESS_DATA_IDENTIFIER ∈ ids.
Proof.
  apply (C9_duplicated_identifier_survives_exclusion
           {| auditLogGroupName := None;
              addToDefaultDataIdentifiers := Some [ADDRESS_DATA_IDENTIFIER];
              excludeFromDefaultDataIdentifiers := Some [ADDRESS_DATA_IDENTIFIER] |}
           ADDRESS_DATA_IDENTIFIER).
  - apply elem_of_cons. left. reflexivity.
  - apply elem_of_cons. left. reflexivity.
  - reflexivity.
Defined.

End DataProtectionSpec.

(** ** SQSQueue *)
Module SQSSpec.
Import SQS JsFacts.

Lemma getQueueNameForFifoDlq_suffix (p : string) :
  getQueueNameForFifoDlq (p +:+ ".fifo") = Returns (p +:+ "-dlq" +:+ ".fifo").
Proof.
  unfold getQueueNameForFifoDlq.
  rewrite (lastIndexOf_endsWith _ _ (endsWith_app p ".fifo")).
  rewrite endsWith_app. simpl negb. cbv iota.
  rewrite string_length_app.
  replace (String.length p + String.length ".fifo" - String.length ".fifo")%nat
    with (String.length p) by lia.
  unfold substr0, substring_from.
  rewrite substring_app_l, substring_app_r, string_length_app.
  replace (String.length p + String.length ".fifo" - String.length p)%nat
    with (String.length ".fifo") by lia.
  reflexivity.
Qed.

Lemma getQueueNameForFifoDlq_throws (queueName : string) :
  endsWith queueName ".fifo" = false →
  getQueueNameForFifoDlq queueName
  = Throws ("Fifo queue must have name ending with .fifo suffix. Present queue name : "
              +:+ queueName).
Proof. intros H. unfold getQueueNameForFifoDlq. by rewrite H. Qed.

Lemma getQueueNameForFifoDlq_inv (queueName name : string) :
  getQueueNameForFifoDlq queueName = Returns name →
  ∃ p : string, queueName = p +:+ ".fifo" ∧ name = p +:+ "-dlq" +:+ ".fifo".
Proof.
  destruct (endsWith queueName ".fifo") eqn:Hends.
  - apply endsWith_inv in Hends as (p & -> & _).
    rewrite getQueueNameForFifoDlq_suffix. intros [= <-]. by exists p.
  - by rewrite getQueueNameForFifoDlq_throws.
Qed.

Example fifo_dlq_name :
  getQueueNameForFifoDlq "orders.fifo" = Returns "orders-dlq.fifo".
Proof. reflexivity. Qed.

Example fifo_dlq_name_last_suffix :
  getQueueNameForFifoDlq "a.fifo.fifo" = Returns "a.fifo-dlq.fifo".
Proof. reflexivity. Qed.

Example fifo_dlq_name_missing_suffix :
  getQueueNameForFifoDlq "orders.fifo.v2"
  = Throws "Fifo queue must have name ending with .fifo suffix. Present queue name : orders.fifo.v2".
Proof. reflexivity. Qed.

(** A name that comes out of the resolution at all fits the length limit
    and, for a FIFO queue, carries the suffix. *)
Lemma resolveDeadLetterQueueName_Some
    (props : SQSQueueProps IQueue) (name : string) :
  deadLetterQueue props = None →
  resolveDeadLetterQueueName props = Returns (Some name) →
  (String.length name ≤ MAX_ALLOWED_QUEUE_NAME_LENGTH)%nat
  ∧ truthy_string name = true
  ∧ (truthy_opt_bool (fifo props) = true → endsWith name ".fifo" = true).
Proof.
  intros Hdlq. unfold resolveDeadLetterQueueName. rewrite Hdlq. simpl.
  rewrite andb_true_r.
  destruct (truthy_opt_string (queueName props)); [|done].
  destruct (truthy_opt_bool (fifo props)) eqn:Hfifo.
  - destruct (getQueueNameForFifoDlq _) as [derived| |] eqn:Hd; simpl; [|done..].
    destruct (decide _) as [Hlen|Hlen]; intros [= <-].
    apply getQueueNameForFifoDlq_inv in Hd as (p & _ & ->).
    split_and!; [lia| |].
    + by destruct p.
    + intros _. replace (p +:+ "-dlq" +:+ ".fifo")
        with ((p +:+ "-dlq") +:+ ".fifo") by apply string_app_assoc.
      apply endsWith_app.
  - simpl. destruct (decide _) as [Hlen|Hlen]; intros [= <-].
    split_and!; [lia| |done].
    destruct (default "" (queueName props)); done.
Qed.

(** The name resolution of a dead-letter queue's own props never throws. *)
Lemma resolveDeadLetterQueueName_dlq
    (props : SQSQueueProps IQueue) (name : option string)
    (enc : QueueEncryption) (key : option IKey) (rst : bool) :
  deadLetterQueue props = None →
  resolveDeadLetterQueueName props = Returns name →
  ∃ name' : option string,
    resolveDeadLetterQueueName (deadLetterQueueProps props name enc key rst)
    = Returns name'.
Proof.
  intros Hdlq Hname.
  destruct name as [name|]; [|by eexists].
  destruct (resolveDeadLetterQueueName_Some _ _ Hdlq Hname)
    as (_ & Htruthy & Hfifo).
  unfold resolveDeadLetterQueueName. simpl. rewrite Htruthy. simpl.
  destruct (truthy_opt_bool (fifo props)).
  - apply endsWith_inv in Hfifo as (p & -> & _); [|done].
    rewrite getQueueNameForFifoDlq_suffix. simpl.
    destruct (decide _); by eexists.
  - simpl. destruct (decide _); by eexists.
Qed.

Lemma resolveDeadLetterQueueName_no_divergence (props : SQSQueueProps IQueue) :
  resolveDeadLetterQueueName props ≠ Diverges.
Proof.
  unfold resolveDeadLetterQueueName, getQueueNameForFifoDlq.
  repeat (case_match; simpl; try done).
Qed.

Lemma cdk_super_Returns {P A : Type} (validate : validator P) (props : P) (a b : A) :
  cdk_super validate props a = Returns b ↔ validate props = None ∧ a = b.
Proof.
  unfold cdk_super. destruct (validate props); split;
    first [by intros [= ->] | by intros [? ->] | done | by intros [? ?]].
Qed.

Lemma cdk_super_no_divergence {P A : Type} (validate : validator P)
    (props : P) (a : A) :
  cdk_super validate props a ≠ Diverges.
Proof. unfold cdk_super. by destruct (validate props). Qed.

Section Constructor.
Context (cdkQueue : validator (SQSQueueProps Queue)).

(** One step of the constructor. *)
Lemma SQSQueue_new_S (fuel : nat) (id : string) (props : SQSQueueProps IQueue) :
  SQSQueue_new cdkQueue (S fuel) id (Some props)
  = bind (resolveDeadLetterQueueName props) (λ deadLetterQueueName,
      bind
        (if default true (enableDeadLetterQueue props)
            && bool_decide (deadLetterQueue props = None)
         then
           bind (SQSQueue_new cdkQueue fuel (id +:+ "Dlq")
                   (Some (deadLetterQueueProps props deadLetterQueueName
                            (default KMS (encryption props))
                            (assigned (newMasterKey id props)
                                    (encryptionMasterKey props))
                            (default true (requireSecureTransport props)))))
             (λ '(dlq, added),
               Returns
                 (Some {| queue := dlq;
                          maxReceiveCount :=
                            default DEFAULT_RECEIVE_COUNT (dlqMaxReceiveCount props) |},
                  added ++ [QueueConstruct dlq]))
         else Returns (callerDlq <$> deadLetterQueue props, []))
        (λ '(deadLetterQueue', added),
          cdk_super cdkQueue
            (superPropsFor props (default KMS (encryption props))
               (assigned (newMasterKey id props) (encryptionMasterKey props))
               deadLetterQueue')
            (NewSQSQueue id
               (superPropsFor props (default KMS (encryption props))
                  (assigned (newMasterKey id props) (encryptionMasterKey props))
                  deadLetterQueue')
               deadLetterQueue'
               (default [] (principalsAllowedToConsume props))
               (default [] (principalsAllowedToSend props))
               (if default true (requireSecureTransport props)
                then [secureQueuePolicyStatement] else []),
             (from_option (λ k, [KeyConstruct k]) [] (newMasterKey id props))
             ++ added))).
Proof. reflexivity. Qed.

(** The dead-letter queue of [props], as the nested constructor call leaves
    it when the base class accepts it.  It needs no key of its own and no
    dead-letter queue. *)
Lemma SQSQueue_new_dlq (fuel : nat) (id : string)
    (props : SQSQueueProps IQueue) (name : option string) :
  deadLetterQueue props = None →
  resolveDeadLetterQueueName props = Returns name →
  SQSQueue_new cdkQueue (S fuel) (id +:+ "Dlq")
    (Some (deadLetterQueueProps props name
             (default KMS (encryption props))
             (assigned (newMasterKey id props) (encryptionMasterKey props))
             (default true (requireSecureTransport props))))
  = let dlqProps :=
      dlqSuperProps props name
        (assigned (newMasterKey id props) (encryptionMasterKey props)) in
    cdk_super cdkQueue dlqProps
      (NewSQSQueue (id +:+ "Dlq") dlqProps None
         (default [] (principalsAllowedToConsume props))
         (default [] (principalsAllowedToSend props))
         (if default true (requireSecureTransport props)
          then [secureQueuePolicyStatement] else []),
       []).
Proof.
  intros Hdlq Hname.
  rewrite SQSQueue_new_S.
  destruct (resolveDeadLetterQueueName_dlq props name
              (default KMS (encryption props))
              (assigned (newMasterKey id props) (encryptionMasterKey props))
              (default true (requireSecureTransport props)) Hdlq Hname)
    as [name' ->].
  unfold newMasterKey, superPropsFor, dlqSuperProps, spread. simpl.
  destruct (encryption props) as [[]|], (encryptionMasterKey props) as [k|];
    simpl; repeat case_bool_decide; reflexivity.
Qed.

(** The queue and the added constructs, as a function of the props and of
    the resolved dead-letter-queue name. *)
Lemma SQSQueue_new_inv (fuel : nat) (id : string)
    (props : SQSQueueProps IQueue) (q : Queue) (added : list Construct) :
  SQSQueue_new cdkQueue (S (S fuel)) id (Some props) = Returns (q, added) →
  ∃ name : option string,
    resolveDeadLetterQueueName props = Returns name
    ∧ (let enc := default KMS (encryption props) in
       let key := assigned (newMasterKey id props) (encryptionMasterKey props) in
       let policy :=
         if default true (requireSecureTransport props)
         then [secureQueuePolicyStatement] else [] in
       let consume := default [] (principalsAllowedToConsume props) in
       let send := default [] (principalsAllowedToSend props) in
       let keys :=
         from_option (λ k, [KeyConstruct k]) [] (newMasterKey id props) in
       if default true (enableDeadLetterQueue props)
          && bool_decide (deadLetterQueue props = None)
       then
         let dlq :=
           NewSQSQueue (id +:+ "Dlq") (dlqSuperProps props name key) None
             consume send policy in
         let deadLetterQueue' :=
           Some {| queue := dlq;
                   maxReceiveCount :=
                     default DEFAULT_RECEIVE_COUNT (dlqMaxReceiveCount props) |} in
         Returns
           (NewSQSQueue id (superPropsFor props enc key deadLetterQueue')
              deadLetterQueue' consume send policy,
            keys ++ [QueueConstruct dlq])
       else
         let deadLetterQueue' := callerDlq <$> deadLetterQueue props in
         Returns
           (NewSQSQueue id (superPropsFor props enc key deadLetterQueue')
              deadLetterQueue' consume send policy,
            keys ++ []))
      = Returns (q, added).
Proof.
  rewrite SQSQueue_new_S.
  destruct (resolveDeadLetterQueueName props) as [name| |] eqn:Hname; [|done..].
  intros H. exists name. split; [done|]. revert H. cbn [bind]. cbv zeta.
  destruct (default true (enableDeadLetterQueue props)).
  - destruct (deadLetterQueue props) as [d|] eqn:Hdlq.
    + cbn. by intros [_ <-]%cdk_super_Returns.
    + cbn [andb]. rewrite bool_decide_eq_true_2 by done.
      rewrite (SQSQueue_new_dlq fuel id props name Hdlq Hname). cbv zeta.
      unfold cdk_super at 1. destruct (cdkQueue _); [done|]. cbn.
      by intros [_ <-]%cdk_super_Returns.
  - cbn. by intros [_ <-]%cdk_super_Returns.
Qed.

(** The base class has accepted the props of a queue that was built. *)
Lemma SQSQueue_new_accepted (fuel : nat) (id : string)
    (props : SQSQueueProps IQueue) (q : Queue) (added : list Construct) :
  SQSQueue_new cdkQueue (S fuel) id (Some props) = Returns (q, added) →
  ∃ p : SQSQueueProps Queue, superPropsOf q = Some p ∧ cdkQueue p = None.
Proof.
  rewrite SQSQueue_new_S.
  destruct (resolveDeadLetterQueueName props) as [name| |]; [|done..].
  cbn [bind].
  destruct (if _ && _ then _ else _) as [[dlq' added']| |]; [|done..].
  cbn. intros [Hok [= <- _]]%cdk_super_Returns. by eexists.
Qed.

Lemma SQSQueue_new_throws (fuel : nat) (id : string)
    (props : SQSQueueProps IQueue) (msg : string) :
  resolveDeadLetterQueueName props = Throws msg →
  SQSQueue_new cdkQueue (S fuel) id (Some props) = Throws msg.
Proof. intros Hname. by rewrite SQSQueue_new_S, Hname. Qed.

(** More budget than two changes nothing, and two is enough never to run
    out. *)
Lemma SQSQueue_new_fuel (fuel : nat) (id : string)
    (props : option (SQSQueueProps IQueue)) :
  SQSQueue_new cdkQueue (S (S fuel)) id props = SQSQueue cdkQueue id props
  ∧ SQSQueue cdkQueue id props ≠ Diverges.
Proof.
  unfold SQSQueue. destruct props as [props|]; [|done].
  rewrite !SQSQueue_new_S.
  destruct (resolveDeadLetterQueueName props) as [name|msg|] eqn:Hname;
    [|done|by apply resolveDeadLetterQueueName_no_divergence in Hname].
  cbn [bind].
  destruct (default true (enableDeadLetterQueue props)
            && bool_decide (deadLetterQueue props = None)) eqn:Hsynth.
  - apply andb_prop in Hsynth as [_ Hdlq%bool_decide_eq_true_1].
    rewrite !(SQSQueue_new_dlq _ id props name Hdlq Hname). cbv zeta.
    split; [done|].
    unfold cdk_super at 1. destruct (cdkQueue _); [done|]. cbn.
    apply cdk_super_no_divergence.
  - split; [done|]. cbn. apply cdk_super_no_divergence.
Qed.

End Constructor.

(** When the name resolution throws. *)
Lemma resolveDeadLetterQueueName_throws (props : SQSQueueProps IQueue) :
  (∃ msg, resolveDeadLetterQueueName props = Throws msg) ↔
  truthy_opt_string (queueName props) = true
  ∧ deadLetterQueue props = None
  ∧ truthy_opt_bool (fifo props) = true
  ∧ endsWith (default "" (queueName props)) ".fifo" = false.
Proof.
  unfold resolveDeadLetterQueueName.
  destruct (truthy_opt_string (queueName props)); simpl;
    [|split; [intros [? ?]; done|intros [? _]; done]].
  destruct (deadLetterQueue props) as [d|]; simpl;
    [split; [intros [? ?]; done|intros (_ & ? & _); done]|].
  destruct (truthy_opt_bool (fifo props)); simpl.
  - destruct (endsWith (default "" (queueName props)) ".fifo") eqn:Hends.
    + apply endsWith_inv in Hends as (p & -> & _).
      rewrite getQueueNameForFifoDlq_suffix. simpl.
      split; [|intros (_ & _ & _ & ?); done].
      intros [msg Hmsg]. by destruct (decide _).
    + rewrite (getQueueNameForFifoDlq_throws _ Hends). simpl.
      split; [done|]. intros _. by eexists.
  - split; [|intros (_ & _ & ? & _); done].
    intros [msg Hmsg]. by destruct (decide _).
Qed.

End SQSSpec.

(** ** Bucket and AccessLogsBucket *)
Module S3Spec.
Import S3 SQSSpec.

Section Constructor.
Context (cdkBucket : validator (BucketProps S3Bucket)).

(** The access-log bucket of [props], as the nested constructor call leaves
    it when the base class accepts it: S3-managed encryption, hence no key,
    and no log bucket of its own. *)
Lemma Bucket_new_accessLogs (fuel : nat) (id : string)
    (props : BucketProps IBucket) (name : option string) :
  Bucket_new cdkBucket (S fuel) id
    (Some (accessLogsUpdatedProps (accessLogsBucketProps props name)))
  = let logsProps :=
      updatedPropsFor
        (accessLogsUpdatedProps (accessLogsBucketProps props name))
        None None in
    cdk_super cdkBucket logsProps
      (NewBucket id logsProps None
         (if default true (requireSecureTransport props)
          then [secureTransportStatement] else []),
       []).
Proof.
  cbn. destruct (requireSecureTransport props) as [[]|]; reflexivity.
Qed.

Lemma AccessLogsBucket_new_eq (fuel : nat) (id : string)
    (props : BucketProps IBucket) (name : option string) :
  AccessLogsBucket_new cdkBucket fuel id (accessLogsBucketProps props name)
  = Bucket_new cdkBucket fuel id
      (Some (accessLogsUpdatedProps (accessLogsBucketProps props name))).
Proof. reflexivity. Qed.

(** One step of the constructor. *)
Lemma Bucket_new_S (fuel : nat) (id : string) (props : BucketProps IBucket) :
  Bucket_new cdkBucket (S fuel) id (Some props)
  = bind
      (if default true (enableAccessLogging props)
          && bool_decide (serverAccessLogsBucket props = None)
       then
         bind (Bucket_new cdkBucket fuel (id +:+ "AccessLog")
                 (Some (accessLogsUpdatedProps
                          (accessLogsBucketProps props
                             (resolveAccessLogBucketName props)))))
           (λ '(logs, added), Returns (Some logs, added ++ [BucketConstruct logs]))
       else Returns (callerBucket <$> serverAccessLogsBucket props, []))
      (λ '(serverAccessLogsBucket', added),
        cdk_super cdkBucket
          (updatedPropsFor props
             (assigned (newEncryptionKey id props) (encryptionKey props))
             serverAccessLogsBucket')
          (NewBucket id
             (updatedPropsFor props
                (assigned (newEncryptionKey id props) (encryptionKey props))
                serverAccessLogsBucket')
             serverAccessLogsBucket'
             ((if default true (requireSecureTransport props)
               then [secureTransportStatement] else [])
              ++ (if bool_decide
                       (encryption
                          (updatedPropsFor props
                             (assigned (newEncryptionKey id props)
                                     (encryptionKey props))
                             serverAccessLogsBucket') = Some KMS)
                  then [requireKmsStatement] else [])),
           (from_option (λ k, [KeyConstruct k]) [] (newEncryptionKey id props))
           ++ added)).
Proof. reflexivity. Qed.

(** The bucket and the added constructs, as a function of the props. *)
Lemma Bucket_new_inv (fuel : nat) (id : string) (props : BucketProps IBucket)
    (b : S3Bucket) (added : list Construct) :
  Bucket_new cdkBucket (S (S fuel)) id (Some props) = Returns (b, added) →
  (let key := assigned (newEncryptionKey id props) (encryptionKey props) in
   let keys :=
     from_option (λ k, [KeyConstruct k]) [] (newEncryptionKey id props) in
   let policy logs :=
     (if default true (requireSecureTransport props)
      then [secureTransportStatement] else [])
     ++ (if bool_decide (encryption (updatedPropsFor props key logs) = Some KMS)
         then [requireKmsStatement] else []) in
   if default true (enableAccessLogging props)
      && bool_decide (serverAccessLogsBucket props = None)
   then
     let logs :=
       NewBucket (id +:+ "AccessLog")
         (updatedPropsFor
            (accessLogsUpdatedProps
               (accessLogsBucketProps props (resolveAccessLogBucketName props)))
            None None)
         None
         (if default true (requireSecureTransport props)
          then [secureTransportStatement] else []) in
     Returns
       (NewBucket id (updatedPropsFor props key (Some logs)) (Some logs)
          (policy (Some logs)),
        keys ++ [BucketConstruct logs])
   else
     let logs := callerBucket <$> serverAccessLogsBucket props in
     Returns
       (NewBucket id (updatedPropsFor props key logs) logs (policy logs),
        keys ++ []))
  = Returns (b, added).
Proof.
  rewrite Bucket_new_S, Bucket_new_accessLogs. cbv zeta.
  destruct (default true (enableAccessLogging props)
            && bool_decide (serverAccessLogsBucket props = None)).
  - unfold cdk_super at 1. destruct (cdkBucket _); [done|]. cbn [bind].
    by intros [_ <-]%cdk_super_Returns.
  - cbn [bind]. by intros [_ <-]%cdk_super_Returns.
Qed.

Lemma Bucket_new_fuel (fuel : nat) (id : string)
    (props : option (BucketProps IBucket)) :
  Bucket_new cdkBucket (S (S fuel)) id props = Bucket cdkBucket id props
  ∧ Bucket cdkBucket id props ≠ Diverges.
Proof.
  unfold Bucket. destruct props as [props|]; [|done].
  rewrite (Bucket_new_S (S fuel)), (Bucket_new_S 1), !Bucket_new_accessLogs.
  cbv zeta. split; [done|].
  destruct (default true (enableAccessLogging props)
            && bool_decide (serverAccessLogsBucket props = None)).
  - unfold cdk_super at 1. destruct (cdkBucket _); [done|]. cbn [bind].
    apply cdk_super_no_divergence.
  - cbn [bind]. apply cdk_super_no_divergence.
Qed.

End Constructor.

End S3Spec.

(** ** The claims about the wrappers *)
Module WrapperSpec.
Import JsFacts SQSSpec S3Spec.

(** The three cases of a spread: the caller's value, the default for a key
    the caller's props do not have, and [undefined] for a key they have
    with that value. *)
Lemma spread_Some {A} (key : string) (base : option A) (keys : list string)
    (v : A) :
  spread key base keys (Some v) = Some v.
Proof. reflexivity. Qed.

Lemma spread_absent {A} (key : string) (base : option A) (keys : list string) :
  key ∉ keys → spread key base keys None = base.
Proof. intros Hkey. unfold spread. by rewrite bool_decide_eq_false_2. Qed.

Lemma spread_undefined {A} (key : string) (base : option A)
    (keys : list string) :
  key ∈ keys → spread key base keys None = None.
Proof. intros Hkey. unfold spread. by rewrite bool_decide_eq_true_2. Qed.

Lemma spread_None {A} (key : string) (keys : list string) :
  spread key (@None A) keys None = None.
Proof. unfold spread. by case_bool_decide. Qed.

Lemma spread_default {A} (key : string) (d : A) (keys : list string)
    (o : option A) :
  key ∉ keys → spread key (Some (default d o)) keys o = Some (default d o).
Proof. intros Hkey. destruct o; [done|]. by apply spread_absent. Qed.

(** A spread adds nothing to what the caller's props and the default hold. *)
Lemma spread_cases {A} (key : string) (base : option A) (keys : list string)
    (o : option A) :
  spread key base keys o
  = match o with
    | Some v => Some v
    | None => if bool_decide (key ∈ keys) then None else base
    end.
Proof. reflexivity. Qed.

Lemma elem_of_keys_app {C} (f : IKey → C) (k : option IKey) (x : C) (l : list C) :
  x ∈ from_option (λ k, [f k]) [] k ++ l ↔ (∃ k', k = Some k' ∧ x = f k') ∨ x ∈ l.
Proof.
  rewrite elem_of_app. destruct k as [k|]; simpl.
  - rewrite list_elem_of_singleton. split.
    + intros [->|?]; [left; by exists k|by right].
    + intros [(k' & [= <-] & ->)|?]; [by left|by right].
  - rewrite elem_of_nil. split; [intros [[]|?]; by right|].
    intros [(k' & ? & _)|?]; [done|by right].
Qed.

(** Turns a successful constructor call in hypothesis [H] into the equation
    that gives the resource and the added constructs. *)
Ltac sqs_inversion H name Hname :=
  unfold SQS.SQSQueue in H;
  apply SQSQueue_new_inv in H as (name & Hname & H);
  cbv zeta in H.
Ltac bucket_inversion H :=
  unfold S3.Bucket in H;
  apply Bucket_new_inv in H;
  cbv zeta in H.

(** Membership in an explicit list: [in_list] finds the element of a goal
    [x ∈ [a; b; ...]], [not_in_list H] refutes or splits a hypothesis of that
    shape. *)
Ltac in_list :=
  solve [repeat first [by apply list_elem_of_here | apply list_elem_of_further]].
Ltac not_in_list H :=
  set_unfold in H; destruct_or?; simplify_eq; try done.

(** Settles the test [updatedProps.billingMode === PROVISIONED] of a table
    whose props have no billing mode: whether the key is missing or holds
    [undefined], the mode handed on is not [PROVISIONED]. *)
Ltac not_provisioned :=
  match goal with
  | |- context [bool_decide (?x = Some DynamoDB.PROVISIONED)] =>
      rewrite (bool_decide_eq_false_2 (x = Some DynamoDB.PROVISIONED))
        by (unfold spread; by case_bool_decide)
  end.

Section S3_claims.
Import S3.
Context (cdkBucket : validator (BucketProps S3Bucket)).

(** The access-log bucket's name: omitted when too long, whole otherwise. *)
Lemma Bucket_access_log_name (id : string) (props : BucketProps IBucket)
    (n : string) (b : S3Bucket) (added : list Construct) :
  Bucket cdkBucket id (Some props) = Returns (b, added) →
  bucketName props = Some n →
  default true (enableAccessLogging props) = true →
  serverAccessLogsBucket props = None →
  ∃ (logs : S3Bucket) (logsProps : BucketProps S3Bucket),
    serverAccessLogsBucketOf b = Some logs
    ∧ BucketConstruct logs ∈ added
    ∧ superPropsOf logs = Some logsProps
    ∧ ((MAX_ALLOWED_BUCKET_NAME_LENGTH < String.length (n +:+ "-logs"))%nat →
       bucketName logsProps = None)
    ∧ (∀ m : string, bucketName logsProps = Some m →
         m = n +:+ "-logs"
         ∧ (String.length m ≤ MAX_ALLOWED_BUCKET_NAME_LENGTH)%nat).
Proof.
  intros H Hn Hen Hlogs. bucket_inversion H. revert H.
  rewrite Hen, Hlogs. rewrite bool_decide_eq_true_2 by done. simpl andb.
  cbv iota. intros [= <- <-].
  do 2 eexists. split_and!.
  - reflexivity.
  - apply elem_of_app. right. apply list_elem_of_singleton. reflexivity.
  - reflexivity.
  - simpl. unfold resolveAccessLogBucketName. rewrite Hn. simpl.
    intros Hlong. destruct (truthy_string n); [|done].
    by destruct (decide _).
  - simpl. unfold resolveAccessLogBucketName. rewrite Hn. simpl.
    intros m. destruct (truthy_string n); [|done].
    destruct (decide _); [done|]. intros [= <-]. split; [done|lia].
Qed.

Lemma Bucket_companions (id : string) (props : BucketProps IBucket)
    (b : S3Bucket) (added : list Construct) :
  Bucket cdkBucket id (Some props) = Returns (b, added) →
  ((∃ k : IKey, KeyConstruct k ∈ added) ↔
     default KMS (encryption props) = KMS ∧ encryptionKey props = None)
  ∧ ((∃ logs : S3Bucket, BucketConstruct logs ∈ added) ↔
       default true (enableAccessLogging props) = true
       ∧ serverAccessLogsBucket props = None)
  ∧ (∀ k : IKey, KeyConstruct k ∈ added →
       "encryptionKey" ∉ undefinedKeys props →
       superPropsOf b ≫= encryptionKey = Some k)
  ∧ (∀ logs : S3Bucket, BucketConstruct logs ∈ added →
       serverAccessLogsBucketOf b = Some logs)
  ∧ (∀ k : IKey, encryptionKey props = Some k →
       superPropsOf b ≫= encryptionKey = Some k)
  ∧ (∀ l : IBucket, serverAccessLogsBucket props = Some l →
       serverAccessLogsBucketOf b = Some (CallerBucket l)).
Proof.
  intros H. bucket_inversion H. revert H.
  unfold newEncryptionKey, serverAccessLogsBucketOf.
  destruct (default KMS (encryption props)) eqn:Henc;
    destruct (encryptionKey props) as [k0|] eqn:Hkey;
    destruct (default true (enableAccessLogging props)) eqn:Hen;
    destruct (serverAccessLogsBucket props) as [l0|] eqn:Hlogs;
    simpl; intros [= <- <-]; simpl; rewrite ?Hkey, ?Hlogs; simpl;
    (split_and!;
     [ split;
       [ intros [k Hk]; not_in_list Hk
       | intros [? ?]; try done; eexists; in_list ]
     | split;
       [ intros [x Hx]; not_in_list Hx
       | intros [? ?]; try done; eexists; in_list ]
     | intros k Hk Habsent; not_in_list Hk;
       by rewrite bool_decide_eq_false_2
     | intros x Hx; not_in_list Hx
     | intros k Hk; by simplify_eq
     | intros x Hx; by simplify_eq ]).
Qed.

Lemma Bucket_secure_transport (id : string) (props : BucketProps IBucket)
    (b : S3Bucket) (added : list Construct) :
  Bucket cdkBucket id (Some props) = Returns (b, added) →
  (∃ st : PolicyStatement,
     st ∈ resourcePolicyOf b ∧ isSecureTransportDeny st = true)
  ↔ requireSecureTransport props ≠ Some false.
Proof.
  intros H. bucket_inversion H. revert H.
  assert (Hkms : isSecureTransportDeny requireKmsStatement = false) by done.
  assert (Hst : isSecureTransportDeny secureTransportStatement = true) by done.
  destruct (requireSecureTransport props) as [[]|] eqn:Hrst;
    case_match; intros [= <- <-]; simpl; case_match;
    (split;
     [ intros (st & Hin & Hdeny); not_in_list Hin; congruence
     | intros Hne; first [done | exists secureTransportStatement];
       (split; [in_list|done]) ]).
Qed.

Lemma Bucket_forwards_explicit (id : string) (props : BucketProps IBucket)
    (b : S3Bucket) (added : list Construct) :
  Bucket cdkBucket id (Some props) = Returns (b, added) →
  ∃ p : BucketProps S3Bucket,
    superPropsOf b = Some p
    ∧ bucketName p = bucketName props
    ∧ (∀ v, encryption props = Some v → encryption p = Some v)
    ∧ (∀ v, encryptionKey props = Some v → encryptionKey p = Some v)
    ∧ (∀ v, lifecycleRules props = Some v → lifecycleRules p = Some v)
    ∧ (∀ v, versioned props = Some v → versioned p = Some v)
    ∧ (∀ v, blockPublicAccess props = Some v → blockPublicAccess p = Some v)
    ∧ (∀ v, enableAccessLogging props = Some v →
         enableAccessLogging p = Some v)
    ∧ serverAccessLogsPrefix p = serverAccessLogsPrefix props
    ∧ objectOwnership p = objectOwnership props
    ∧ requireSecureTransport p = requireSecureTransport props.
Proof.
  intros H. bucket_inversion H. revert H.
  case_match; intros [= <- <-]; eexists; (split; [reflexivity|]); simpl;
    split_and!; try done; by intros v ->.
Qed.

End S3_claims.

(** With a base class that accepts everything a bucket is always built. *)
Lemma Bucket_returns (id : string) (props : S3.BucketProps S3.IBucket) :
  ∃ (b : S3.S3Bucket) (added : list S3.Construct),
    S3.Bucket accepting id (Some props) = Returns (b, added).
Proof.
  unfold S3.Bucket. rewrite (Bucket_new_S accepting 1).
  rewrite Bucket_new_accessLogs. cbv zeta. unfold cdk_super, accepting.
  case_match; by do 2 eexists.
Qed.

Section SQS_claims.
Import SQS.
Context (cdkQueue : validator (SQSQueueProps Queue)).

(** What the resolution makes of the name [n] of a primary queue without a
    supplied dead-letter queue. *)
Lemma resolveDeadLetterQueueName_named (props : SQSQueueProps IQueue)
    (n : string) (name : option string) :
  queueName props = Some n →
  deadLetterQueue props = None →
  resolveDeadLetterQueueName props = Returns name →
  ((MAX_ALLOWED_QUEUE_NAME_LENGTH < String.length (n +:+ "-dlq"))%nat →
   name = None)
  ∧ (∀ m : string, name = Some m →
       (String.length m ≤ MAX_ALLOWED_QUEUE_NAME_LENGTH)%nat
       ∧ if truthy_opt_bool (fifo props)
         then ∃ p : string, n = p +:+ ".fifo" ∧ m = p +:+ "-dlq" +:+ ".fifo"
         else m = n +:+ "-dlq").
Proof.
  intros Hn Hdlq. unfold resolveDeadLetterQueueName. rewrite Hn, Hdlq. simpl.
  destruct (truthy_string n); simpl; [|by intros [= <-]].
  destruct (truthy_opt_bool (fifo props)).
  - destruct (getQueueNameForFifoDlq n) as [derived| |] eqn:Hd; [|done..].
    apply getQueueNameForFifoDlq_inv in Hd as (p & -> & ->). simpl.
    rewrite !string_length_app. simpl.
    destruct (decide _) as [Hlen|Hlen]; intros [= <-].
    + split; done.
    + split; [intros; lia|]. intros m [= <-]. split; [|by exists p].
      rewrite !string_length_app. simpl. lia.
  - simpl. destruct (decide _) as [Hlen|Hlen]; intros [= <-].
    + split; done.
    + split; [intros; lia|]. intros m [= <-]. split; [lia|done].
Qed.

(** The dead-letter queue's name: omitted when too long, whole otherwise. *)
Lemma SQSQueue_dlq_name (id : string) (props : SQSQueueProps IQueue)
    (n : string) (q : Queue) (added : list Construct) :
  SQSQueue cdkQueue id (Some props) = Returns (q, added) →
  queueName props = Some n →
  default true (enableDeadLetterQueue props) = true →
  deadLetterQueue props = None →
  ∃ (dlq : DeadLetterQueue Queue) (dlqProps : SQSQueueProps Queue),
    deadLetterQueueOf q = Some dlq
    ∧ QueueConstruct (queue dlq) ∈ added
    ∧ superPropsOf (queue dlq) = Some dlqProps
    ∧ ((MAX_ALLOWED_QUEUE_NAME_LENGTH < String.length (n +:+ "-dlq"))%nat →
       queueName dlqProps = None)
    ∧ (∀ m : string, queueName dlqProps = Some m →
         (String.length m ≤ MAX_ALLOWED_QUEUE_NAME_LENGTH)%nat
         ∧ if truthy_opt_bool (fifo props)
           then ∃ p : string, n = p +:+ ".fifo" ∧ m = p +:+ "-dlq" +:+ ".fifo"
           else m = n +:+ "-dlq").
Proof.
  intros H Hn Hen Hdlq. sqs_inversion H name Hname. revert H.
  destruct (resolveDeadLetterQueueName_named props n name Hn Hdlq Hname)
    as [Hlong Hwhole].
  rewrite Hen, Hdlq. rewrite bool_decide_eq_true_2 by done. simpl andb.
  cbv iota. intros [= <- <-].
  do 2 eexists. split_and!.
  - reflexivity.
  - apply elem_of_app. right. apply list_elem_of_singleton. reflexivity.
  - reflexivity.
  - exact Hlong.
  - exact Hwhole.
Qed.

Lemma SQSQueue_companions (id : string) (props : SQSQueueProps IQueue)
    (q : Queue) (added : list Construct) :
  SQSQueue cdkQueue id (Some props) = Returns (q, added) →
  ((∃ k : IKey, KeyConstruct k ∈ added) ↔
     default KMS (encryption props) = KMS ∧ encryptionMasterKey props = None)
  ∧ ((∃ dlq : Queue, QueueConstruct dlq ∈ added) ↔
       default true (enableDeadLetterQueue props) = true
       ∧ deadLetterQueue props = None)
  ∧ (∀ k : IKey, KeyConstruct k ∈ added →
       "encryptionMasterKey" ∉ undefinedKeys props →
       superPropsOf q ≫= encryptionMasterKey = Some k)
  ∧ (∀ dlq : Queue, QueueConstruct dlq ∈ added →
       queue <$> deadLetterQueueOf q = Some dlq)
  ∧ (∀ k : IKey, encryptionMasterKey props = Some k →
       superPropsOf q ≫= encryptionMasterKey = Some k)
  ∧ (∀ d : DeadLetterQueue IQueue, deadLetterQueue props = Some d →
       deadLetterQueueOf q = Some (callerDlq d)).
Proof.
  intros H. sqs_inversion H name Hname. revert H.
  unfold newMasterKey, deadLetterQueueOf.
  destruct (default KMS (encryption props)) eqn:Henc;
    destruct (encryptionMasterKey props) as [k0|] eqn:Hkey;
    destruct (default true (enableDeadLetterQueue props)) eqn:Hen;
    destruct (deadLetterQueue props) as [d0|] eqn:Hdlq;
    simpl; intros [= <- <-]; simpl; rewrite ?Hkey, ?Hdlq; simpl;
    (split_and!;
     [ split;
       [ intros [k Hk]; not_in_list Hk
       | intros [? ?]; try done; eexists; in_list ]
     | split;
       [ intros [x Hx]; not_in_list Hx
       | intros [? ?]; try done; eexists; in_list ]
     | intros k Hk Habsent; not_in_list Hk;
       by rewrite bool_decide_eq_false_2
     | intros x Hx; not_in_list Hx
     | intros k Hk; by simplify_eq
     | intros x Hx; by simplify_eq ]).
Qed.

Lemma SQSQueue_secure_transport (id : string) (props : SQSQueueProps IQueue)
    (q : Queue) (added : list Construct) :
  SQSQueue cdkQueue id (Some props) = Returns (q, added) →
  (∃ st : PolicyStatement,
     st ∈ resourcePolicyOf q ∧ isSecureTransportDeny st = true)
  ↔ requireSecureTransport props ≠ Some false.
Proof.
  intros H. sqs_inversion H name Hname. revert H.
  assert (Hst : isSecureTransportDeny secureQueuePolicyStatement = true) by done.
  destruct (requireSecureTransport props) as [[]|] eqn:Hrst;
    case_match; intros [= <- <-]; simpl;
    (split;
     [ intros (st & Hin & Hdeny); not_in_list Hin
     | intros Hne; first [done | exists secureQueuePolicyStatement];
       (split; [in_list|done]) ]).
Qed.

(** What the synthesized dead-letter queue shares with its primary.  The
    dead-letter queue is built from the values the constructor has resolved
    and is assigned to the member [deadLetterQueue]; the props the primary
    hands to the base class carry the same values for the keys that the
    caller's props do not hold as [undefined]. *)
Lemma SQSQueue_dlq_mirrors (id : string) (props : SQSQueueProps IQueue)
    (q : Queue) (added : list Construct) (d : Queue) :
  SQSQueue cdkQueue id (Some props) = Returns (q, added) →
  QueueConstruct d ∈ added →
  ∃ (p dp : SQSQueueProps Queue),
    superPropsOf q = Some p
    ∧ superPropsOf d = Some dp
    ∧ deadLetterQueueOf q
      = Some {| queue := d;
                maxReceiveCount := default 100 (dlqMaxReceiveCount props) |}
    ∧ encryption dp = Some (default KMS (encryption props))
    ∧ encryptionMasterKey dp
      = assigned (newMasterKey id props) (encryptionMasterKey props)
    ∧ ("deadLetterQueue" ∉ undefinedKeys props →
       deadLetterQueue p = deadLetterQueueOf q)
    ∧ ("encryption" ∉ undefinedKeys props → encryption dp = encryption p)
    ∧ ("encryptionMasterKey" ∉ undefinedKeys props →
       encryptionMasterKey dp = encryptionMasterKey p)
    ∧ default true (requireSecureTransport dp)
      = default true (requireSecureTransport p)
    ∧ resourcePolicyOf d = resourcePolicyOf q
    ∧ fifo dp = fifo p
    ∧ retentionPeriod dp = Some (Duration_days 14)
    ∧ deadLetterQueue dp = None
    ∧ enableDeadLetterQueue dp = Some false.
Proof.
  intros H Hd. sqs_inversion H name Hname. revert H.
  destruct (default true (enableDeadLetterQueue props)) eqn:Hen;
    destruct (deadLetterQueue props) as [d0|] eqn:Hdlq;
    simpl; intros [= <- <-].
  1,3,4: apply elem_of_keys_app in Hd as [(k & _ & [=])|Hd]; not_in_list Hd.
  apply elem_of_keys_app in Hd as [(k & _ & [=])|Hd].
  apply list_elem_of_singleton in Hd as [= ->].
  do 2 eexists. split_and!; try reflexivity; cbn -[spread].
  - intros Habsent. rewrite Hdlq. cbn -[spread]. by rewrite spread_absent.
  - intros Habsent. by rewrite spread_default.
  - intros Habsent. destruct (encryptionMasterKey props); [done|].
    by rewrite spread_absent.
Qed.

Lemma SQSQueue_forwards_explicit (id : string) (props : SQSQueueProps IQueue)
    (q : Queue) (added : list Construct) :
  SQSQueue cdkQueue id (Some props) = Returns (q, added) →
  ∃ p : SQSQueueProps Queue,
    superPropsOf q = Some p
    ∧ queueName p = queueName props
    ∧ (∀ v, encryption props = Some v → encryption p = Some v)
    ∧ (∀ v, encryptionMasterKey props = Some v →
         encryptionMasterKey p = Some v)
    ∧ (∀ v, retentionPeriod props = Some v → retentionPeriod p = Some v)
    ∧ visibilityTimeout p = visibilityTimeout props
    ∧ contentBasedDeduplication p = contentBasedDeduplication props
    ∧ fifo p = fifo props.
Proof.
  intros H. sqs_inversion H name Hname. revert H.
  case_match; intros [= <- <-]; eexists; (split; [reflexivity|]); simpl;
    split_and!; try done; by intros v ->.
Qed.

End SQS_claims.

(** With a base class that accepts everything a queue is built unless the
    FIFO name check throws. *)
Lemma SQSQueue_returns (id : string) (props : SQS.SQSQueueProps SQS.IQueue) :
  (truthy_opt_string (SQS.queueName props) = true →
   SQS.deadLetterQueue props = None →
   truthy_opt_bool (SQS.fifo props) = true →
   endsWith (default "" (SQS.queueName props)) ".fifo" = true) →
  ∃ (q : SQS.Queue) (added : list SQS.Construct),
    SQS.SQSQueue accepting id (Some props) = Returns (q, added).
Proof.
  intros Hok. unfold SQS.SQSQueue. rewrite SQSQueue_new_S.
  destruct (SQS.resolveDeadLetterQueueName props) as [name|msg|] eqn:Hname.
  - cbn [bind].
    destruct (default true (SQS.enableDeadLetterQueue props)
              && bool_decide (SQS.deadLetterQueue props = None)) eqn:Hsynth.
    + apply andb_prop in Hsynth as [_ Hdlq%bool_decide_eq_true_1].
      rewrite (SQSQueue_new_dlq accepting 0 id props name Hdlq Hname).
      by do 2 eexists.
    + by do 2 eexists.
  - assert (Hthrows : ∃ msg, SQS.resolveDeadLetterQueueName props = Throws msg)
      by by exists msg.
    apply resolveDeadLetterQueueName_throws in Hthrows as (H1 & H2 & H3 & H4).
    rewrite Hok in H4; done.
  - by apply resolveDeadLetterQueueName_no_divergence in Hname.
Qed.

Section SNS_claims.
Import SNS.
Context (cdkTopic : validator SnsTopicProps).

Lemma SnsTopic_inv (id : string) (props : SnsTopicProps)
    (t : Topic) (added : list Construct) :
  SnsTopic cdkTopic id (Some props) = Returns (t, added) →
  SnsTopic accepting id (Some props) = Returns (t, added).
Proof. unfold SnsTopic. by intros [_ <-]%cdk_super_Returns. Qed.

Lemma SnsTopic_companions (id : string) (props : SnsTopicProps)
    (t : Topic) (added : list Construct) :
  SnsTopic cdkTopic id (Some props) = Returns (t, added) →
  ((∃ k : IKey, KeyConstruct k ∈ added) ↔
     default true (enableEncryption props) = true ∧ masterKey props = None)
  ∧ (∀ k : IKey, KeyConstruct k ∈ added →
       this_masterKey t = Some k
       ∧ ("masterKey" ∉ undefinedKeys props →
          masterKey (superProps t) = Some k))
  ∧ (∀ k : IKey, masterKey props = Some k →
       masterKey (superProps t) = Some k ∧ this_masterKey t = Some k).
Proof.
  intros H%SnsTopic_inv. revert H. unfold SnsTopic, cdk_super, accepting.
  destruct (default true (enableEncryption props)) eqn:Hen;
    destruct (masterKey props) as [k0|] eqn:Hkey;
    simpl; intros [= <- <-]; simpl;
    (split_and!;
     [ split;
       [ intros [k Hk]; not_in_list Hk
       | intros [? ?]; try done; eexists; in_list ]
     | intros k Hk; not_in_list Hk;
       (split; [done|intros Habsent; by rewrite bool_decide_eq_false_2])
     | intros k Hk; by simplify_eq ]).
Qed.

Lemma SnsTopic_secure_transport (id : string) (props : SnsTopicProps)
    (t : Topic) (added : list Construct) :
  SnsTopic cdkTopic id (Some props) = Returns (t, added) →
  (∃ st : PolicyStatement,
     st ∈ resourcePolicy t ∧ isSecureTransportDeny st = true)
  ↔ requireSecureTransport props ≠ Some false.
Proof.
  intros H%SnsTopic_inv. revert H. unfold SnsTopic, cdk_super, accepting.
  assert (Hst : isSecureTransportDeny secureTopicPolicyStatement = true) by done.
  destruct (requireSecureTransport props) as [[]|] eqn:Hrst;
    intros [= <- <-]; simpl;
    (split;
     [ intros (st & Hin & Hdeny); not_in_list Hin
     | intros Hne; first [done | exists secureTopicPolicyStatement];
       (split; [in_list|done]) ]).
Qed.

End SNS_claims.

Section DynamoDB_claims.
Import DynamoDB.
Context (cdkTable : validator DynamoDBTableProps).
Context (cdkIndex : validator DynamoDBGlobalSecondaryIndexProps).

Lemma resolveCapacities_provisioned (error : string)
    (readCapacity writeCapacity : option Z)
    (readScaling writeScaling : option EnableScalingProps) :
  resolveCapacities true error readCapacity writeCapacity readScaling writeScaling
  = match readScaling, writeScaling with
    | Some r, Some w =>
        Returns
          (if truthy_opt_number readCapacity then readCapacity
           else Some (minCapacity r),
           if truthy_opt_number writeCapacity then writeCapacity
           else Some (minCapacity w))
    | _, _ => Throws error
    end.
Proof. reflexivity. Qed.

(** A table that the base class lets through is the table that an
    all-accepting base class lets through. *)
Lemma DynamoDBTable_inv (id : string) (props : DynamoDBTableProps) (t : Table) :
  DynamoDBTable cdkTable id (Some props) = Returns t →
  DynamoDBTable accepting id (Some props) = Returns t.
Proof.
  unfold DynamoDBTable.
  destruct (resolveCapacities _ _ _ _ _ _) as [[rc wc]| |]; [|done..].
  cbn [bind]. unfold cdk_super at 1. by destruct (cdkTable _).
Qed.

Lemma addGlobalSecondaryIndex_inv (this : Table)
    (props : DynamoDBGlobalSecondaryIndexProps) (t : Table) :
  addGlobalSecondaryIndex cdkIndex this props = Returns t →
  addGlobalSecondaryIndex accepting this props = Returns t.
Proof.
  unfold addGlobalSecondaryIndex.
  destruct (resolveCapacities _ _ _ _ _ _) as [[rc wc]| |]; [|done..].
  cbn [bind]. unfold cdk_super at 1. by destruct (cdkIndex _).
Qed.

Lemma DynamoDBTable_provisioned (id : string) (props : DynamoDBTableProps) :
  billingMode props = Some PROVISIONED →
  ((readScalingProps props = None ∨ writeScalingProps props = None) →
   DynamoDBTable cdkTable id (Some props) = Throws scalingError)
  ∧ (∀ (r w : EnableScalingProps) (t : Table),
       readScalingProps props = Some r →
       writeScalingProps props = Some w →
       DynamoDBTable cdkTable id (Some props) = Returns t →
       usesProvisionedBillingMode t = true
       ∧ billingMode (superProps t) = Some PROVISIONED
       ∧ (readCapacity props = None →
          readCapacity (superProps t)
          = if bool_decide ("readCapacity" ∈ undefinedKeys props)
            then None else Some (minCapacity r))
       ∧ (writeCapacity props = None →
          writeCapacity (superProps t)
          = if bool_decide ("writeCapacity" ∈ undefinedKeys props)
            then None else Some (minCapacity w))
       ∧ (∀ c : Z, readCapacity props = Some c →
            readCapacity (superProps t) = Some c)
       ∧ (∀ c : Z, writeCapacity props = Some c →
            writeCapacity (superProps t) = Some c)).
Proof.
  intros Hmode. split.
  - unfold DynamoDBTable. rewrite Hmode.
    rewrite bool_decide_eq_true_2 by done.
    rewrite resolveCapacities_provisioned.
    intros [Hr|Hw].
    + by rewrite Hr.
    + rewrite Hw. by destruct (readScalingProps props).
  - intros r w t Hr Hw Ht%DynamoDBTable_inv. revert Ht.
    unfold DynamoDBTable. rewrite Hmode, Hr, Hw. simpl.
    intros [= <-]. simpl. split_and!; try done.
    + by intros ->.
    + by intros ->.
    + by intros c ->.
    + by intros c ->.
Qed.

Lemma DynamoDBTable_uses_provisioned (id : string) (props : DynamoDBTableProps)
    (t : Table) :
  DynamoDBTable cdkTable id (Some props) = Returns t →
  usesProvisionedBillingMode t = true ↔ billingMode props = Some PROVISIONED.
Proof.
  intros Ht%DynamoDBTable_inv. revert Ht. unfold DynamoDBTable.
  destruct (billingMode props) as [[]|] eqn:Hmode; simpl.
  - intros [= <-]. done.
  - destruct (readScalingProps props), (writeScalingProps props); simpl;
      [|done..].
    intros [= <-]. done.
  - not_provisioned. by intros [= <-].
Qed.

Lemma addGlobalSecondaryIndex_provisioned (this : Table)
    (props : DynamoDBGlobalSecondaryIndexProps) :
  usesProvisionedBillingMode this = true →
  ((gsi_readScalingProps props = None ∨ gsi_writeScalingProps props = None) →
   addGlobalSecondaryIndex cdkIndex this props = Throws gsiScalingError)
  ∧ (∀ (r w : EnableScalingProps) (t : Table),
       gsi_readScalingProps props = Some r →
       gsi_writeScalingProps props = Some w →
       addGlobalSecondaryIndex cdkIndex this props = Returns t →
       ∃ index : DynamoDBGlobalSecondaryIndexProps,
         globalSecondaryIndexes t = globalSecondaryIndexes this ++ [index]
         ∧ indexName index = indexName props
         ∧ (gsi_readCapacity props = None →
            gsi_readCapacity index
            = if bool_decide ("readCapacity" ∈ gsi_undefinedKeys props)
              then None else Some (minCapacity r))
         ∧ (gsi_writeCapacity props = None →
            gsi_writeCapacity index
            = if bool_decide ("writeCapacity" ∈ gsi_undefinedKeys props)
              then None else Some (minCapacity w))
         ∧ (∀ c : Z, gsi_readCapacity props = Some c →
              gsi_readCapacity index = Some c)
         ∧ (∀ c : Z, gsi_writeCapacity props = Some c →
              gsi_writeCapacity index = Some c)).
Proof.
  intros Hmode. split.
  - unfold addGlobalSecondaryIndex. rewrite Hmode.
    rewrite resolveCapacities_provisioned.
    intros [Hr|Hw].
    + by rewrite Hr.
    + rewrite Hw. by destruct (gsi_readScalingProps props).
  - intros r w t Hr Hw Ht%addGlobalSecondaryIndex_inv. revert Ht.
    unfold addGlobalSecondaryIndex. rewrite Hmode, Hr, Hw. simpl.
    intros [= <-]. simpl. eexists. split_and!; [reflexivity..| | | |]; simpl.
    + by intros ->.
    + by intros ->.
    + by intros c ->.
    + by intros c ->.
Qed.

End DynamoDB_claims.

(** [AlbFargateService] resolves its numbers with [||]: what is forwarded is
    the caller's value when that value is not zero. *)
Lemma AlbFargateService_forwards_nonzero (props : Fargate.AlbFargateServiceProps) :
  (∀ v, Fargate.desiredCount props = Some v → v ≠ 0 →
     Fargate.fs_desiredCount (Fargate.AlbFargateService_serviceProps props) = v)
  ∧ (∀ v, Fargate.minHealthyPercent props = Some v → v ≠ 0 →
       Fargate.fs_minHealthyPercent (Fargate.AlbFargateService_serviceProps props)
       = v)
  ∧ (∀ v, Fargate.maxHealthyPercent props = Some v → v ≠ 0 →
       Fargate.fs_maxHealthyPercent (Fargate.AlbFargateService_serviceProps props)
       = v)
  ∧ (∀ v, Fargate.platformVersion props = Some v →
       Fargate.fs_platformVersion (Fargate.AlbFargateService_serviceProps props)
       = v)
  ∧ (∀ v, Fargate.healthCheckGracePeriod props = Some v →
       Fargate.fs_healthCheckGracePeriod
         (Fargate.AlbFargateService_serviceProps props) = v).
Proof.
  unfold Fargate.AlbFargateService_serviceProps, or_number, truthy_number.
  split_and!; intros v -> ; simpl; try done;
    intros Hv; apply Z.eqb_neq in Hv; by rewrite Hv.
Qed.

(** C3: a companion whose derived name ([bucketName + '-logs'] over 63
    characters, [queueName + '-dlq'] over 80) is too long is created without
    an explicit name; a companion that does get a name gets the whole
    derived name, within the limit. *)
Theorem C3_overlong_companion_name_is_omitted :
  (∀ (cdkBucket : validator (S3.BucketProps S3.S3Bucket))
     (id : string) (props : S3.BucketProps S3.IBucket) (n : string)
     (b : S3.S3Bucket) (added : list S3.Construct),
     S3.Bucket cdkBucket id (Some props) = Returns (b, added) →
     S3.bucketName props = Some n →
     default true (S3.enableAccessLogging props) = true →
     S3.serverAccessLogsBucket props = None →
     ∃ (logs : S3.S3Bucket) (logsProps : S3.BucketProps S3.S3Bucket),
       S3.serverAccessLogsBucketOf b = Some logs
       ∧ S3.BucketConstruct logs ∈ added
       ∧ S3.superPropsOf logs = Some logsProps
       ∧ ((63 < String.length (n +:+ "-logs"))%nat →
          S3.bucketName logsProps = None)
       ∧ (∀ m : string, S3.bucketName logsProps = Some m →
            m = n +:+ "-logs" ∧ (String.length m ≤ 63)%nat))
  ∧ (∀ (cdkQueue : validator (SQS.SQSQueueProps SQS.Queue))
       (id : string) (props : SQS.SQSQueueProps SQS.IQueue) (n : string)
       (q : SQS.Queue) (added : list SQS.Construct),
       SQS.SQSQueue cdkQueue id (Some props) = Returns (q, added) →
       SQS.queueName props = Some n →
       default true (SQS.enableDeadLetterQueue props) = true →
       SQS.deadLetterQueue props = None →
       ∃ (dlq : SQS.DeadLetterQueue SQS.Queue)
         (dlqProps : SQS.SQSQueueProps SQS.Queue),
         SQS.deadLetterQueueOf q = Some dlq
         ∧ SQS.QueueConstruct (SQS.queue dlq) ∈ added
         ∧ SQS.superPropsOf (SQS.queue dlq) = Some dlqProps
         ∧ ((80 < String.length (n +:+ "-dlq"))%nat →
            SQS.queueName dlqProps = None)
         ∧ (∀ m : string, SQS.queueName dlqProps = Some m →
              (String.length m ≤ 80)%nat
              ∧ if truthy_opt_bool (SQS.fifo props)
                then ∃ p : string,
                       n = p +:+ ".fifo" ∧ m = p +:+ "-dlq" +:+ ".fifo"
                else m = n +:+ "-dlq")).
Proof.
  split.
  - exact Bucket_access_log_name.
  - exact SQSQueue_dlq_name.
Qed.

Lemma C3_overlong_companion_name_witness :
  (∃ (b : S3.S3Bucket) (added : list S3.Construct) (logs : S3.S3Bucket)
     (logsProps : S3.BucketProps S3.S3Bucket),
     S3.Bucket accepting "Data" (Some (S3.namedProps S3.longBucketName))
     = Returns (b, added)
     ∧ S3.serverAccessLogsBucketOf b = Some logs
     ∧ S3.superPropsOf logs = Some logsProps
     ∧ S3.bucketName logsProps = None)
  ∧ (∃ (q : SQS.Queue) (added : list SQS.Construct)
       (dlq : SQS.DeadLetterQueue SQS.Queue)
       (dlqProps : SQS.SQSQueueProps SQS.Queue),
       SQS.SQSQueue accepting "Orders"
         (Some (SQS.namedProps SQS.longQueueName None))
       = Returns (q, added)
       ∧ SQS.deadLetterQueueOf q = Some dlq
       ∧ SQS.superPropsOf (SQS.queue dlq) = Some dlqProps
       ∧ SQS.queueName dlqProps = None).
Proof.
  destruct C3_overlong_companion_name_is_omitted as [HB HQ]. split.
  - eexists _, _.
    destruct (HB accepting "Data" (S3.namedProps S3.longBucketName)
                S3.longBucketName _ _ eq_refl eq_refl eq_refl eq_refl)
      as (logs & logsProps & H2 & _ & H4 & H5 & _).
    exists logs, logsProps. split_and!; [reflexivity|done..|].
    apply H5. vm_compute. lia.
  - eexists _, _.
    destruct (HQ accepting "Orders" (SQS.namedProps SQS.longQueueName None)
                SQS.longQueueName _ _ eq_refl eq_refl eq_refl eq_refl)
      as (dlq & dlqProps & H2 & _ & H4 & H5 & _).
    exists dlq, dlqProps. split_and!; [reflexivity|done..|].
    apply H5. vm_compute. lia.
Defined.

(** C4: a companion is synthesized exactly when the resolved mode asks for
    it and the caller supplied none.  [Bucket]: a KMS key iff encryption
    resolves to KMS and no [encryptionKey] is given, an access-log bucket iff
    [enableAccessLogging] resolves to true and no [serverAccessLogsBucket] is
    given.  [SQSQueue]: a dead-letter queue iff [enableDeadLetterQueue]
    resolves to true and no [deadLetterQueue] is given.  [SnsTopic]: a master
    key iff [enableEncryption] resolves to true and no [masterKey] is given.
    A companion the caller supplies is the one the resource uses. *)
Theorem C4_companion_synthesized_iff_implied_and_not_supplied :
  (∀ (cdkBucket : validator (S3.BucketProps S3.S3Bucket))
     (id : string) (props : S3.BucketProps S3.IBucket)
     (b : S3.S3Bucket) (added : list S3.Construct),
     S3.Bucket cdkBucket id (Some props) = Returns (b, added) →
     ((∃ k : IKey, S3.KeyConstruct k ∈ added) ↔
        default S3.KMS (S3.encryption props) = S3.KMS
        ∧ S3.encryptionKey props = None)
     ∧ ((∃ logs : S3.S3Bucket, S3.BucketConstruct logs ∈ added) ↔
          default true (S3.enableAccessLogging props) = true
          ∧ S3.serverAccessLogsBucket props = None)
     ∧ (∀ k : IKey, S3.encryptionKey props = Some k →
          S3.superPropsOf b ≫= S3.encryptionKey = Some k)
     ∧ (∀ l : S3.IBucket, S3.serverAccessLogsBucket props = Some l →
          S3.serverAccessLogsBucketOf b = Some (S3.CallerBucket l)))
  ∧ (∀ (cdkQueue : validator (SQS.SQSQueueProps SQS.Queue))
       (id : string) (props : SQS.SQSQueueProps SQS.IQueue)
       (q : SQS.Queue) (added : list SQS.Construct),
       SQS.SQSQueue cdkQueue id (Some props) = Returns (q, added) →
       ((∃ dlq : SQS.Queue, SQS.QueueConstruct dlq ∈ added) ↔
          default true (SQS.enableDeadLetterQueue props) = true
          ∧ SQS.deadLetterQueue props = None)
       ∧ (∀ d : SQS.DeadLetterQueue SQS.IQueue,
            SQS.deadLetterQueue props = Some d →
            SQS.deadLetterQueueOf q = Some (SQS.callerDlq d)))
  ∧ (∀ (cdkTopic : validator SNS.SnsTopicProps)
       (id : string) (props : SNS.SnsTopicProps)
       (t : SNS.Topic) (added : list SNS.Construct),
       SNS.SnsTopic cdkTopic id (Some props) = Returns (t, added) →
       ((∃ k : IKey, SNS.KeyConstruct k ∈ added) ↔
          default true (SNS.enableEncryption props) = true
          ∧ SNS.masterKey props = None)
       ∧ (∀ k : IKey, SNS.masterKey props = Some k →
            SNS.masterKey (SNS.superProps t) = Some k
            ∧ SNS.this_masterKey t = Some k)).
Proof.
  split_and!.
  - intros cdk id props b added H.
    destruct (Bucket_companions cdk id props b added H)
      as (Hkey & Hlogs & _ & _ & Hk & Hl).
    done.
  - intros cdk id props q added H.
    destruct (SQSQueue_companions cdk id props q added H)
      as (_ & Hdlq & _ & _ & _ & Hd).
    done.
  - intros cdk id props t added H.
    destruct (SnsTopic_companions cdk id props t added H) as (Hkey & _ & Hk).
    done.
Qed.

Lemma C4_companion_synthesized_witness :
  (∃ (b : S3.S3Bucket) (added : list S3.Construct),
     S3.Bucket accepting "Data" (Some S3.emptyProps) = Returns (b, added)
     ∧ (∃ k : IKey, S3.KeyConstruct k ∈ added)
     ∧ (∃ logs : S3.S3Bucket, S3.BucketConstruct logs ∈ added))
  ∧ (∃ (q : SQS.Queue) (added : list SQS.Construct),
       SQS.SQSQueue accepting "Orders" (Some SQS.emptyProps) = Returns (q, added)
       ∧ (∃ dlq : SQS.Queue, SQS.QueueConstruct dlq ∈ added))
  ∧ (∃ (t : SNS.Topic) (added : list SNS.Construct),
       SNS.SnsTopic accepting "Events" (Some SNS.emptyProps) = Returns (t, added)
       ∧ (∃ k : IKey, SNS.KeyConstruct k ∈ added)).
Proof.
  destruct C4_companion_synthesized_iff_implied_and_not_supplied
    as (HB & HQ & HT).
  split_and!.
  - eexists _, _. split; [vm_compute; reflexivity|].
    destruct (HB accepting "Data" S3.emptyProps _ _ eq_refl) as (Hkey & Hlogs & _).
    split; [apply Hkey|apply Hlogs]; split; reflexivity.
  - eexists _, _. split; [vm_compute; reflexivity|].
    destruct (HQ accepting "Orders" SQS.emptyProps _ _ eq_refl) as (Hdlq & _).
    apply Hdlq. split; reflexivity.
  - eexists _, _. split; [vm_compute; reflexivity|].
    destruct (HT accepting "Events" SNS.emptyProps _ _ eq_refl) as (Hkey & _).
    apply Hkey. split; reflexivity.
Defined.

(** C5: [Bucket], [SQSQueue] and [SnsTopic] carry a statement that denies
    access under [aws:SecureTransport] = false whenever
    [requireSecureTransport] is unset or true, and carry none exactly when it
    is explicitly false. *)
Theorem C5_secure_transport_deny_unless_disabled :
  (∀ (cdkBucket : validator (S3.BucketProps S3.S3Bucket))
     (id : string) (props : S3.BucketProps S3.IBucket)
     (b : S3.S3Bucket) (added : list S3.Construct),
     S3.Bucket cdkBucket id (Some props) = Returns (b, added) →
     (∃ st : PolicyStatement,
        st ∈ S3.resourcePolicyOf b ∧ isSecureTransportDeny st = true)
     ↔ S3.requireSecureTransport props ≠ Some false)
  ∧ (∀ (cdkQueue : validator (SQS.SQSQueueProps SQS.Queue))
       (id : string) (props : SQS.SQSQueueProps SQS.IQueue)
       (q : SQS.Queue) (added : list SQS.Construct),
       SQS.SQSQueue cdkQueue id (Some props) = Returns (q, added) →
       (∃ st : PolicyStatement,
          st ∈ SQS.resourcePolicyOf q ∧ isSecureTransportDeny st = true)
       ↔ SQS.requireSecureTransport props ≠ Some false)
  ∧ (∀ (cdkTopic : validator SNS.SnsTopicProps)
       (id : string) (props : SNS.SnsTopicProps)
       (t : SNS.Topic) (added : list SNS.Construct),
       SNS.SnsTopic cdkTopic id (Some props) = Returns (t, added) →
       (∃ st : PolicyStatement,
          st ∈ SNS.resourcePolicy t ∧ isSecureTransportDeny st = true)
       ↔ SNS.requireSecureTransport props ≠ Some false).
Proof.
  split_and!.
  - exact Bucket_secure_transport.
  - exact SQSQueue_secure_transport.
  - exact SnsTopic_secure_transport.
Qed.

Lemma C5_secure_transport_deny_witness :
  (∃ (b : S3.S3Bucket) (added : list S3.Construct),
     S3.Bucket accepting "Data" (Some S3.emptyProps) = Returns (b, added)
     ∧ ∃ st : PolicyStatement,
         st ∈ S3.resourcePolicyOf b ∧ isSecureTransportDeny st = true)
  ∧ (∃ (q : SQS.Queue) (added : list SQS.Construct),
       SQS.SQSQueue accepting "Orders" (Some SQS.emptyProps) = Returns (q, added)
       ∧ ∃ st : PolicyStatement,
           st ∈ SQS.resourcePolicyOf q ∧ isSecureTransportDeny st = true)
  ∧ (∃ (t : SNS.Topic) (added : list SNS.Construct),
       SNS.SnsTopic accepting "Events" (Some SNS.emptyProps) = Returns (t, added)
       ∧ ∃ st : PolicyStatement,
           st ∈ SNS.resourcePolicy t ∧ isSecureTransportDeny st = true).
Proof.
  destruct C5_secure_transport_deny_unless_disabled as (HB & HQ & HT).
  split_and!.
  - eexists _, _. split; [vm_compute; reflexivity|].
    apply (HB accepting "Data" S3.emptyProps _ _ eq_refl). discriminate.
  - eexists _, _. split; [vm_compute; reflexivity|].
    apply (HQ accepting "Orders" SQS.emptyProps _ _ eq_refl). discriminate.
  - eexists _, _. split; [vm_compute; reflexivity|].
    apply (HT accepting "Events" SNS.emptyProps _ _ eq_refl). discriminate.
Defined.

(** C6: for a FIFO [SQSQueue] with an explicit [queueName] and no
    dead-letter queue supplied.  If the name does not end with ['.fifo'],
    construction throws: for a non-empty name the constructor itself throws,
    before anything is handed to the base class; the empty name passes the
    constructor's own test ([props.queueName] is falsy) and is refused by the
    base class, provided the base class enforces the suffix as aws-cdk-lib's
    [Queue] does.  If the name ends with ['.fifo'], the derived
    dead-letter-queue name is the name with ['-dlq'] put right before that
    final ['.fifo'], and it is the name of the synthesized dead-letter queue
    whenever it fits in 80 characters. *)
Theorem C6_fifo_queue_name_suffix
    (cdkQueue : validator (SQS.SQSQueueProps SQS.Queue))
    (id : string) (props : SQS.SQSQueueProps SQS.IQueue) (n : string) :
  SQS.fifo props = Some true →
  SQS.queueName props = Some n →
  SQS.deadLetterQueue props = None →
  (endsWith n ".fifo" = false →
   n ≠ "" →
   SQS.SQSQueue cdkQueue id (Some props)
   = Throws ("Fifo queue must have name ending with .fifo suffix. Present queue name : "
               +:+ n))
  ∧ (endsWith n ".fifo" = false →
     SQS.enforcesFifoSuffix cdkQueue →
     ∃ msg : string, SQS.SQSQueue cdkQueue id (Some props) = Throws msg)
  ∧ (endsWith n ".fifo" = true →
     ∃ p : string,
       n = p +:+ ".fifo"
       ∧ SQS.getQueueNameForFifoDlq n = Returns (p +:+ "-dlq" +:+ ".fifo")
       ∧ SQS.resolveDeadLetterQueueName props
         = Returns
             (if decide (80 < String.length (p +:+ "-dlq" +:+ ".fifo"))%nat
              then None else Some (p +:+ "-dlq" +:+ ".fifo"))
       ∧ (∀ (q : SQS.Queue) (added : list SQS.Construct),
            SQS.SQSQueue cdkQueue id (Some props) = Returns (q, added) →
            default true (SQS.enableDeadLetterQueue props) = true →
            ∃ (dlq : SQS.DeadLetterQueue SQS.Queue)
              (dlqProps : SQS.SQSQueueProps SQS.Queue),
              SQS.deadLetterQueueOf q = Some dlq
              ∧ SQS.superPropsOf (SQS.queue dlq) = Some dlqProps
              ∧ SQS.queueName dlqProps
                = if decide (80 < String.length (p +:+ "-dlq" +:+ ".fifo"))%nat
                  then None else Some (p +:+ "-dlq" +:+ ".fifo"))).
Proof.
  intros Hfifo Hn Hdlq.
  assert (Hwrapper : endsWith n ".fifo" = false → n ≠ "" →
    SQS.SQSQueue cdkQueue id (Some props)
    = Throws ("Fifo queue must have name ending with .fifo suffix. Present queue name : "
                +:+ n)).
  { intros Hends Hne. unfold SQS.SQSQueue.
    apply SQSQueue_new_throws.
    unfold SQS.resolveDeadLetterQueueName. rewrite Hn, Hdlq, Hfifo. simpl.
    unfold truthy_string. apply String.eqb_neq in Hne. rewrite Hne. simpl.
    by rewrite (getQueueNameForFifoDlq_throws _ Hends). }
  split_and!.
  - exact Hwrapper.
  - intros Hends Hcdk.
    destruct (decide (n = "")) as [->|Hne]; [|by eexists; apply Hwrapper].
    assert (Hname : SQS.resolveDeadLetterQueueName props = Returns None).
    { unfold SQS.resolveDeadLetterQueueName. by rewrite Hn, Hdlq. }
    assert (Hsuper : ∀ (dlq' : option (SQS.DeadLetterQueue SQS.Queue))
                       (enc : SQS.QueueEncryption) (key : option IKey)
                       (a : SQS.Queue * list SQS.Construct),
              ∃ msg : string,
                cdk_super cdkQueue (SQS.superPropsFor props enc key dlq') a
                = Throws msg).
    { intros dlq' enc key a. unfold cdk_super.
      destruct (cdkQueue _) as [msg|] eqn:Hreject; [by exists msg|].
      by apply (Hcdk (SQS.superPropsFor props enc key dlq') ""
                  Hfifo Hn Hends) in Hreject. }
    unfold SQS.SQSQueue. rewrite SQSQueue_new_S, Hname. cbn [bind].
    rewrite Hdlq. rewrite bool_decide_eq_true_2 by done.
    destruct (default true (SQS.enableDeadLetterQueue props)); cbn [andb].
    + rewrite (SQSQueue_new_dlq cdkQueue 0 id props None Hdlq Hname). cbv zeta.
      unfold cdk_super at 1. destruct (cdkQueue _) as [msg|]; [by exists msg|].
      cbn [bind]. apply Hsuper.
    + cbn [bind]. apply Hsuper.
  - intros Hends. apply endsWith_inv in Hends as (p & -> & _).
    exists p.
    assert (Hname : SQS.resolveDeadLetterQueueName props
      = Returns
          (if decide (80 < String.length (p +:+ "-dlq" +:+ ".fifo"))%nat
           then None else Some (p +:+ "-dlq" +:+ ".fifo"))).
    { unfold SQS.resolveDeadLetterQueueName. rewrite Hn, Hdlq, Hfifo. simpl.
      assert (Htruthy : truthy_string (p +:+ ".fifo") = true) by by destruct p.
      rewrite Htruthy. simpl. rewrite getQueueNameForFifoDlq_suffix. simpl.
      unfold SQS.MAX_ALLOWED_QUEUE_NAME_LENGTH. by destruct (decide _). }
    split_and!; [done|apply getQueueNameForFifoDlq_suffix|done|].
    intros q added H Hen. sqs_inversion H name Hname'. revert H.
    rewrite Hname in Hname'. injection Hname' as <-.
    rewrite Hen, Hdlq. rewrite bool_decide_eq_true_2 by done.
    simpl andb. cbv iota. intros [= <- <-].
    do 2 eexists. split_and!.
    + reflexivity.
    + reflexivity.
    + reflexivity.
Qed.

Lemma fifoSuffixCheck_enforces : SQS.enforcesFifoSuffix SQS.fifoSuffixCheck.
Proof.
  intros p name Hfifo Hname Hends. unfold SQS.fifoSuffixCheck.
  by rewrite Hfifo, Hname, Hends.
Defined.

Lemma C6_fifo_queue_name_suffix_witness :
  SQS.SQSQueue accepting "Orders" (Some (SQS.namedProps "orders" (Some true)))
  = Throws "Fifo queue must have name ending with .fifo suffix. Present queue name : orders"
  ∧ (∃ msg : string,
       SQS.SQSQueue SQS.fifoSuffixCheck "Orders"
         (Some (SQS.namedProps "" (Some true))) = Throws msg)
  ∧ ∃ p : string,
      "orders.fifo" = p +:+ ".fifo"
      ∧ SQS.getQueueNameForFifoDlq "orders.fifo"
        = Returns (p +:+ "-dlq" +:+ ".fifo").
Proof.
  split_and!.
  - apply (C6_fifo_queue_name_suffix accepting "Orders"
             (SQS.namedProps "orders" (Some true)) "orders"
             eq_refl eq_refl eq_refl).
    + reflexivity.
    + discriminate.
  - apply (C6_fifo_queue_name_suffix SQS.fifoSuffixCheck "Orders"
             (SQS.namedProps "" (Some true)) "" eq_refl eq_refl eq_refl).
    + reflexivity.
    + exact fifoSuffixCheck_enforces.
  - destruct (C6_fifo_queue_name_suffix accepting "Orders"
                (SQS.namedProps "orders.fifo" (Some true)) "orders.fifo"
                eq_refl eq_refl eq_refl) as (_ & _ & H).
    destruct (H eq_refl) as (p & Hp & Hname & _).
    by exists p.
Defined.

(** The queue and its dead-letter queue for
    [{ queueName: 'orders.fifo', fifo: true, dlqMaxReceiveCount: 5 }]. *)
Example fifo_queue_with_dlq :
  ∃ (q dlq : SQS.Queue) (k : IKey),
    SQS.SQSQueue accepting "Orders"
      (Some (SQS.namedProps "orders.fifo" (Some true)))
    = Returns (q, [SQS.KeyConstruct k; SQS.QueueConstruct dlq])
    ∧ SQS.deadLetterQueueOf q
      = Some {| SQS.queue := dlq; SQS.maxReceiveCount := 5 |}
    ∧ SQS.superPropsOf dlq ≫= SQS.queueName = Some "orders-dlq.fifo".
Proof. do 3 eexists. split_and!; vm_compute; reflexivity. Qed.

(** What holds of the claim about provisioned tables on every input: both
    checks throw when a scaling props is missing, a table uses provisioned
    billing exactly when it was built with that explicit mode, and a
    capacity that the props do not mention becomes the [minCapacity] of the
    matching scaling props. *)
Lemma provisioned_mode_requires_scaling_props :
  (∀ (cdkTable : validator DynamoDB.DynamoDBTableProps)
     (id : string) (props : DynamoDB.DynamoDBTableProps),
     DynamoDB.billingMode props = Some DynamoDB.PROVISIONED →
     ((DynamoDB.readScalingProps props = None
       ∨ DynamoDB.writeScalingProps props = None) →
      DynamoDB.DynamoDBTable cdkTable id (Some props)
      = Throws "For provisioned DynamoDB table, auto-scaling readScalingProps & writeScalingProps are required.")
     ∧ (∀ (r w : DynamoDB.EnableScalingProps) (t : DynamoDB.Table),
          DynamoDB.readScalingProps props = Some r →
          DynamoDB.writeScalingProps props = Some w →
          DynamoDB.DynamoDBTable cdkTable id (Some props) = Returns t →
          DynamoDB.usesProvisionedBillingMode t = true
          ∧ (DynamoDB.readCapacity props = None →
             "readCapacity" ∉ DynamoDB.undefinedKeys props →
             DynamoDB.readCapacity (DynamoDB.superProps t)
             = Some (DynamoDB.minCapacity r))
          ∧ (DynamoDB.writeCapacity props = None →
             "writeCapacity" ∉ DynamoDB.undefinedKeys props →
             DynamoDB.writeCapacity (DynamoDB.superProps t)
             = Some (DynamoDB.minCapacity w))))
  ∧ (∀ (cdkTable : validator DynamoDB.DynamoDBTableProps)
       (id : string) (props : DynamoDB.DynamoDBTableProps) (t : DynamoDB.Table),
       DynamoDB.DynamoDBTable cdkTable id (Some props) = Returns t →
       DynamoDB.usesProvisionedBillingMode t = true
       ↔ DynamoDB.billingMode props = Some DynamoDB.PROVISIONED)
  ∧ (∀ (cdkIndex : validator DynamoDB.DynamoDBGlobalSecondaryIndexProps)
       (this : DynamoDB.Table)
       (props : DynamoDB.DynamoDBGlobalSecondaryIndexProps),
       DynamoDB.usesProvisionedBillingMode this = true →
       ((DynamoDB.gsi_readScalingProps props = None
         ∨ DynamoDB.gsi_writeScalingProps props = None) →
        DynamoDB.addGlobalSecondaryIndex cdkIndex this props
        = Throws "For provisioned DynamoDB table, auto-scaling readScalingProps & writeScalingProps for global secondary index are required.")
       ∧ (∀ (r w : DynamoDB.EnableScalingProps) (t : DynamoDB.Table),
            DynamoDB.gsi_readScalingProps props = Some r →
            DynamoDB.gsi_writeScalingProps props = Some w →
            DynamoDB.addGlobalSecondaryIndex cdkIndex this props = Returns t →
            ∃ index : DynamoDB.DynamoDBGlobalSecondaryIndexProps,
              DynamoDB.globalSecondaryIndexes t
              = DynamoDB.globalSecondaryIndexes this ++ [index]
              ∧ (DynamoDB.gsi_readCapacity props = None →
                 "readCapacity" ∉ DynamoDB.gsi_undefinedKeys props →
                 DynamoDB.gsi_readCapacity index
                 = Some (DynamoDB.minCapacity r))
              ∧ (DynamoDB.gsi_writeCapacity props = None →
                 "writeCapacity" ∉ DynamoDB.gsi_undefinedKeys props →
                 DynamoDB.gsi_writeCapacity index
                 = Some (DynamoDB.minCapacity w)))).
Proof.
  split_and!.
  - intros cdk id props Hmode.
    destruct (DynamoDBTable_provisioned cdk id props Hmode) as [Hthrow Hok].
    split; [exact Hthrow|].
    intros r w t Hr Hw Ht.
    destruct (Hok r w t Hr Hw Ht) as (Huses & _ & Hrc & Hwc & _).
    split_and!; [done| |].
    + intros Hnone Habsent. by rewrite Hrc, bool_decide_eq_false_2.
    + intros Hnone Habsent. by rewrite Hwc, bool_decide_eq_false_2.
  - exact DynamoDBTable_uses_provisioned.
  - intros cdk this props Hmode.
    destruct (addGlobalSecondaryIndex_provisioned cdk this props Hmode)
      as [Hthrow Hok].
    split; [exact Hthrow|].
    intros r w t Hr Hw Ht.
    destruct (Hok r w t Hr Hw Ht) as (index & Hidx & _ & Hrc & Hwc & _).
    exists index. split_and!; [done| |].
    + intros Hnone Habsent. by rewrite Hrc, bool_decide_eq_false_2.
    + intros Hnone Habsent. by rewrite Hwc, bool_decide_eq_false_2.
Qed.

(** C7, at the provisioned table of the documentation written with
    [readCapacity: undefined], and at an index written so for a provisioned
    table: both scaling props are supplied and the read capacity is unset,
    the constructor sets its variable [readCapacity] to the scaling
    [minCapacity] of 10, and the props handed to the base class carry no
    read capacity, because [...props] comes last in
    [{ ..., readCapacity, writeCapacity, ...props }].  The write capacity,
    which the props do not mention, arrives as 10. *)
Theorem C7_undefined_capacity_is_not_defaulted :
  DynamoDB.billingMode DynamoDB.undefinedCapacityProps
  = Some DynamoDB.PROVISIONED
  ∧ DynamoDB.readScalingProps DynamoDB.undefinedCapacityProps
    = Some {| DynamoDB.minCapacity := 10; DynamoDB.maxCapacity := 100 |}
  ∧ DynamoDB.readCapacity DynamoDB.undefinedCapacityProps = None
  ∧ DynamoDB.writeCapacity DynamoDB.undefinedCapacityProps = None
  ∧ ∃ t : DynamoDB.Table,
      DynamoDB.DynamoDBTable accepting "Table"
        (Some DynamoDB.undefinedCapacityProps) = Returns t
      ∧ DynamoDB.readCapacity (DynamoDB.superProps t) = None
      ∧ DynamoDB.writeCapacity (DynamoDB.superProps t) = Some 10
      ∧ ∃ (t' : DynamoDB.Table)
          (index : DynamoDB.DynamoDBGlobalSecondaryIndexProps),
          DynamoDB.addGlobalSecondaryIndex accepting t
            DynamoDB.undefinedCapacityIndexProps = Returns t'
          ∧ DynamoDB.globalSecondaryIndexes t' = [index]
          ∧ DynamoDB.gsi_readCapacity index = None
          ∧ DynamoDB.gsi_writeCapacity index = Some 10.
Proof.
  split_and!; [reflexivity..|].
  eexists. split_and!; [reflexivity..|].
  do 2 eexists. split_and!; reflexivity.
Qed.

(** C8, at [{ ..., minHealthyPercent: 0 }]: the caller set
    [minHealthyPercent], and the props [AlbFargateService] forwards to
    [FargateService] carry the wrapper's default of 100 in its place. *)
Theorem C8_explicit_zero_minHealthyPercent_is_replaced :
  Fargate.minHealthyPercent Fargate.zeroMinHealthyProps = Some 0
  ∧ Fargate.fs_minHealthyPercent
      (Fargate.AlbFargateService_serviceProps Fargate.zeroMinHealthyProps)
    = 100.
Proof. split; reflexivity. Qed.

(** What holds of the claim about dead-letter queues on every input.  The
    dead-letter queue that is made has the secure-transport setting of its
    primary, is FIFO exactly when the primary is, keeps messages for 14
    days, has no dead-letter queue of its own, and is attached with the
    caller's [dlqMaxReceiveCount], or 100 when there is none.  Its
    encryption and its master key are the ones the constructor resolved;
    they are those of the primary when the caller's props do not hold
    [encryption] and [encryptionMasterKey] as [undefined]. *)
Lemma synthesized_dlq_mirrors_primary
    (cdkQueue : validator (SQS.SQSQueueProps SQS.Queue))
    (id : string) (props : SQS.SQSQueueProps SQS.IQueue)
    (q : SQS.Queue) (added : list SQS.Construct) (d : SQS.Queue) :
  SQS.SQSQueue cdkQueue id (Some props) = Returns (q, added) →
  SQS.QueueConstruct d ∈ added →
  ∃ (p dp : SQS.SQSQueueProps SQS.Queue),
    SQS.superPropsOf q = Some p
    ∧ SQS.superPropsOf d = Some dp
    ∧ SQS.deadLetterQueueOf q
      = Some {| SQS.queue := d;
                SQS.maxReceiveCount :=
                  default 100 (SQS.dlqMaxReceiveCount props) |}
    ∧ ("deadLetterQueue" ∉ SQS.undefinedKeys props →
       SQS.deadLetterQueue p = SQS.deadLetterQueueOf q)
    ∧ ("encryption" ∉ SQS.undefinedKeys props →
       SQS.encryption dp = SQS.encryption p)
    ∧ ("encryptionMasterKey" ∉ SQS.undefinedKeys props →
       SQS.encryptionMasterKey dp = SQS.encryptionMasterKey p)
    ∧ default true (SQS.requireSecureTransport dp)
      = default true (SQS.requireSecureTransport p)
    ∧ SQS.resourcePolicyOf d = SQS.resourcePolicyOf q
    ∧ truthy_opt_bool (SQS.fifo dp) = truthy_opt_bool (SQS.fifo p)
    ∧ SQS.retentionPeriod dp = Some (Duration_days 14)
    ∧ SQS.deadLetterQueue dp = None
    ∧ SQS.enableDeadLetterQueue dp = Some false.
Proof.
  intros H Hd.
  destruct (SQSQueue_dlq_mirrors cdkQueue id props q added d H Hd)
    as (p & dp & ? & ? & ? & _ & _ & ? & ? & ? & ? & ? & Hfifo & ? & ? & ?).
  exists p, dp. rewrite Hfifo. done.
Qed.

(** C10, at [{ encryptionMasterKey: undefined }]: encryption resolves to
    KMS, the constructor makes the key ['OrdersKey'] and builds the
    dead-letter queue with it ("same encryption master key as the primary
    queue"), and the props it hands to the base class for the primary queue
    carry KMS encryption and no master key, because [...props] comes last
    in [{...{encryption, encryptionMasterKey, ...}, ...props}]: the
    dead-letter queue does not have the master key of its primary. *)
Theorem C10_dlq_key_is_not_the_primarys_at_undefined_key :
  SQS.encryption SQS.undefinedKeyProps = None
  ∧ SQS.encryptionMasterKey SQS.undefinedKeyProps = None
  ∧ ∃ (q d : SQS.Queue) (k : IKey),
      SQS.SQSQueue accepting "Orders" (Some SQS.undefinedKeyProps)
      = Returns (q, [SQS.KeyConstruct k; SQS.QueueConstruct d])
      ∧ k = SQS.createEncryptionMasterKey "Orders"
      ∧ SQS.queue <$> SQS.deadLetterQueueOf q = Some d
      ∧ SQS.superPropsOf d ≫= SQS.encryption = Some SQS.KMS
      ∧ SQS.superPropsOf d ≫= SQS.encryptionMasterKey = Some k
      ∧ SQS.superPropsOf q ≫= SQS.encryption = Some SQS.KMS
      ∧ SQS.superPropsOf q ≫= SQS.encryptionMasterKey = None.
Proof.
  split_and!; [reflexivity..|].
  do 3 eexists. split_and!; reflexivity.
Qed.

End WrapperSpec.

(** ** The identifier list as a function of the three input lists *)
Module IdentifierSpec.
Import DataIdentifiers DataProtection JsFacts DataProtectionSpec.

(** Proves a decidable proposition about closed terms by evaluation. *)
Ltac by_evaluation := apply (bool_decide_unpack _); vm_compute; exact I.

(** The exclusions take away as many occurrences as they name, as far as
    there are any. *)
Lemma occurrences_foldl_excludeOne_eq (id : string) (excluded l : list string) :
  occurrences id (foldl excludeOne l excluded)
  = (occurrences id l - occurrences id excluded)%nat.
Proof.
  revert l. induction excluded as [|x excluded IH]; intros l; simpl.
  - cbn. lia.
  - rewrite IH, occurrences_excludeOne, occurrences_cons.
    destruct (decide (x = id)); lia.
Qed.

Lemma occurrences_Permutation (id : string) (l1 l2 : list string) :
  l1 ≡ₚ l2 → occurrences id l1 = occurrences id l2.
Proof. intros H. unfold occurrences. by rewrite H. Qed.

Lemma occurrences_zero (id : string) (l : list string) :
  id ∉ l → occurrences id l = 0%nat.
Proof.
  intros Hnot. destruct (occurrences id l) eqn:Hocc; [done|].
  exfalso. apply Hnot, occurrences_pos. lia.
Qed.

(** An identifier is kept exactly when it is named more often among the
    defaults and additions than among the exclusions. *)
Lemma elem_of_resolve (props : CwDataProtectionPolicyProps) (x : string) :
  x ∈ resolveDataIdentifiers props ↔
  (occurrences x (default [] (excludeFromDefaultDataIdentifiers props))
   < occurrences x (DEFAULT_SENSITIVE_DATA_IDENTIFIERS
                      ++ default [] (addToDefaultDataIdentifiers props)))%nat.
Proof.
  unfold resolveDataIdentifiers.
  rewrite elem_of_sort, elem_of_Set_from, <-occurrences_pos.
  destruct (excludeFromDefaultDataIdentifiers props) as [excluded|]; simpl.
  - rewrite occurrences_foldl_excludeOne_eq. lia.
  - cbn. lia.
Qed.

(** Two inputs that keep the same identifiers and name the same audit log
    group have the same outcome. *)
Lemma policy_ext (p q : CwDataProtectionPolicyProps) :
  auditLogGroupName p = auditLogGroupName q →
  (∀ x : string, x ∈ resolveDataIdentifiers p ↔ x ∈ resolveDataIdentifiers q) →
  cloudwatchDataProtectionPolicy p = cloudwatchDataProtectionPolicy q.
Proof.
  intros Hname Hsame.
  assert (Hids : resolveDataIdentifiers p = resolveDataIdentifiers q).
  { apply (StronglySorted_unique String.le); [apply resolve_sorted..|].
    apply NoDup_Permutation; [apply resolve_NoDup..|done]. }
  unfold cloudwatchDataProtectionPolicy, findingsDestination.
  by rewrite Hids, Hname.
Qed.

(** The function throws exactly when nothing is kept. *)
Lemma policy_Throws (props : CwDataProtectionPolicyProps) (msg : string) :
  cloudwatchDataProtectionPolicy props = Throws msg ↔
  (∀ x : string,
     (occurrences x (DEFAULT_SENSITIVE_DATA_IDENTIFIERS
                       ++ default [] (addToDefaultDataIdentifiers props))
      ≤ occurrences x (default [] (excludeFromDefaultDataIdentifiers props)))%nat)
  ∧ msg = "There should be at least one data identifier in the policy.".
Proof.
  unfold cloudwatchDataProtectionPolicy.
  destruct (decide _) as [Hlen|Hlen].
  - apply nil_length_inv in Hlen. split.
    + intros [= <-]. split; [|done]. intros x.
      pose proof (elem_of_resolve props x) as Hx. rewrite Hlen in Hx.
      apply Nat.nlt_ge. intros Hlt. apply Hx in Hlt. by apply elem_of_nil in Hlt.
    + by intros [_ ->].
  - split; [done|]. intros [Hall _]. exfalso. apply Hlen.
    destruct (resolveDataIdentifiers props) as [|x ids] eqn:Hids; [done|].
    assert (Hx : x ∈ resolveDataIdentifiers props)
      by (rewrite Hids; apply list_elem_of_here).
    apply elem_of_resolve in Hx. specialize (Hall x). lia.
Qed.

(** X1: in every document the function returns, an identifier is listed
    exactly when the defaults and additions name it more often than the
    exclusions do; and the function throws exactly when no identifier is
    named more often there than among the exclusions. *)
Theorem X1_identifier_listed_iff_named_more_often_than_excluded
    (props : CwDataProtectionPolicyProps) :
  (∀ (doc : json) (ids : list string),
     cloudwatchDataProtectionPolicy props = Returns doc →
     dataIdentifierOf 0 doc = Some ids →
     ∀ x : string,
       x ∈ ids ↔
       (occurrences x (default [] (excludeFromDefaultDataIdentifiers props))
        < occurrences x (DEFAULT_SENSITIVE_DATA_IDENTIFIERS
                           ++ default [] (addToDefaultDataIdentifiers props)))%nat)
  ∧ (cloudwatchDataProtectionPolicy props
     = Throws "There should be at least one data identifier in the policy."
     ↔ ∀ x : string,
         (occurrences x (DEFAULT_SENSITIVE_DATA_IDENTIFIERS
                           ++ default [] (addToDefaultDataIdentifiers props))
          ≤ occurrences x (default [] (excludeFromDefaultDataIdentifiers props)))%nat).
Proof.
  split.
  - intros doc ids [Hne ->]%policy_returns. rewrite policyDocument_mask.
    intros [= <-] x. apply elem_of_resolve.
  - rewrite policy_Throws. split; [by intros [? _]|by intros ?].
Qed.

Lemma X1_identifier_listed_witness :
  ∃ (doc : json) (ids : list string),
    cloudwatchDataProtectionPolicy
      {| auditLogGroupName := None;
         addToDefaultDataIdentifiers :=
           Some [EMAIL_DATA_IDENTIFIER; "arn:aws:dataprotection::aws:data-identifier/IpAddress"];
         excludeFromDefaultDataIdentifiers :=
           Some [EMAIL_DATA_IDENTIFIER; EMAIL_DATA_IDENTIFIER;
                 ADDRESS_DATA_IDENTIFIER] |} = Returns doc
    ∧ dataIdentifierOf 0 doc = Some ids
    ∧ (EMAIL_DATA_IDENTIFIER ∉ ids)
    ∧ SSN_US_DATA_IDENTIFIER ∈ ids.
Proof.
  eexists _, _. split; [vm_compute; reflexivity|]. split; [vm_compute; reflexivity|].
  pose proof (proj1 (X1_identifier_listed_iff_named_more_often_than_excluded
    {| auditLogGroupName := None;
       addToDefaultDataIdentifiers :=
         Some [EMAIL_DATA_IDENTIFIER; "arn:aws:dataprotection::aws:data-identifier/IpAddress"];
       excludeFromDefaultDataIdentifiers :=
         Some [EMAIL_DATA_IDENTIFIER; EMAIL_DATA_IDENTIFIER;
               ADDRESS_DATA_IDENTIFIER] |}) _ _ eq_refl eq_refl) as H.
  split.
  - intros Hin. apply H in Hin. vm_compute in Hin. lia.
  - apply H. vm_compute. lia.
Defined.

(** X2: the order in which identifiers are added and excluded does not
    matter: two inputs with the same audit log group whose additions are a
    rearrangement of each other, and whose exclusions are, give the same
    document or both throw. *)
Theorem X2_policy_independent_of_list_order
    (p q : CwDataProtectionPolicyProps) :
  auditLogGroupName p = auditLogGroupName q →
  default [] (addToDefaultDataIdentifiers p)
    ≡ₚ default [] (addToDefaultDataIdentifiers q) →
  default [] (excludeFromDefaultDataIdentifiers p)
    ≡ₚ default [] (excludeFromDefaultDataIdentifiers q) →
  cloudwatchDataProtectionPolicy p = cloudwatchDataProtectionPolicy q.
Proof.
  intros Hname Hadd Hexcl. apply policy_ext; [done|].
  intros x. rewrite !elem_of_resolve, !occurrences_app.
  by rewrite (occurrences_Permutation x _ _ Hadd),
             (occurrences_Permutation x _ _ Hexcl).
Qed.

Lemma X2_policy_independent_of_list_order_witness :
  cloudwatchDataProtectionPolicy
    {| auditLogGroupName := Some "audit";
       addToDefaultDataIdentifiers := Some ["b"; "a"; "b"];
       excludeFromDefaultDataIdentifiers :=
         Some [EMAIL_DATA_IDENTIFIER; "b"] |}
  = cloudwatchDataProtectionPolicy
      {| auditLogGroupName := Some "audit";
         addToDefaultDataIdentifiers := Some ["a"; "b"; "b"];
         excludeFromDefaultDataIdentifiers :=
           Some ["b"; EMAIL_DATA_IDENTIFIER] |}.
Proof.
  apply X2_policy_independent_of_list_order.
  - reflexivity.
  - simpl. apply Permutation_swap.
  - simpl. apply Permutation_swap.
Defined.

(** X3: excluding an identifier that is neither a default nor an added one
    changes nothing, wherever it stands among the exclusions. *)
Theorem X3_excluding_an_absent_identifier_is_a_no_op
    (props : CwDataProtectionPolicyProps) (x : string)
    (before after : list string) :
  x ∉ DEFAULT_SENSITIVE_DATA_IDENTIFIERS →
  x ∉ default [] (addToDefaultDataIdentifiers props) →
  cloudwatchDataProtectionPolicy
    {| auditLogGroupName := auditLogGroupName props;
       addToDefaultDataIdentifiers := addToDefaultDataIdentifiers props;
       excludeFromDefaultDataIdentifiers := Some (before ++ x :: after) |}
  = cloudwatchDataProtectionPolicy
      {| auditLogGroupName := auditLogGroupName props;
         addToDefaultDataIdentifiers := addToDefaultDataIdentifiers props;
         excludeFromDefaultDataIdentifiers := Some (before ++ after) |}.
Proof.
  intros Hdef Hadd. apply policy_ext; [done|].
  intros y. rewrite !elem_of_resolve.
  cbn [from_option excludeFromDefaultDataIdentifiers addToDefaultDataIdentifiers]. unfold id in *.
  rewrite !occurrences_app, occurrences_cons.
  destruct (decide (x = y)) as [->|Hne]; [|done].
  rewrite (occurrences_zero y DEFAULT_SENSITIVE_DATA_IDENTIFIERS Hdef),
          (occurrences_zero y _ Hadd). lia.
Qed.

Lemma X3_excluding_an_absent_identifier_witness :
  cloudwatchDataProtectionPolicy
    {| auditLogGroupName := None;
       addToDefaultDataIdentifiers := None;
       excludeFromDefaultDataIdentifiers :=
         Some [SSN_ES_DATA_IDENTIFIER; "not-an-identifier"; SSN_US_DATA_IDENTIFIER] |}
  = cloudwatchDataProtectionPolicy
      {| auditLogGroupName := None;
         addToDefaultDataIdentifiers := None;
         excludeFromDefaultDataIdentifiers :=
           Some [SSN_ES_DATA_IDENTIFIER; SSN_US_DATA_IDENTIFIER] |}.
Proof.
  apply (X3_excluding_an_absent_identifier_is_a_no_op
           {| auditLogGroupName := None;
              addToDefaultDataIdentifiers := None;
              excludeFromDefaultDataIdentifiers := None |}
           "not-an-identifier" [SSN_ES_DATA_IDENTIFIER] [SSN_US_DATA_IDENTIFIER]).
  - by_evaluation.
  - by_evaluation.
Defined.

End IdentifierSpec.

(** ** The data-protection policy of the logs of a Fargate service *)
Module LogsSpec.
Import DataIdentifiers DataProtection Logs FargateLogs.
Import JsFacts DataProtectionSpec IdentifierSpec.

(** The log group that [addDataProtectionPolicy] leaves behind. *)
Lemma addDataProtectionPolicy_Returns (logGroup logGroup' : LogGroup)
    (props : CwDataProtectionPolicyProps) :
  addDataProtectionPolicy logGroup props = Returns logGroup' ↔
  ∃ doc : json,
    cloudwatchDataProtectionPolicy props = Returns doc
    ∧ logGroup'
      = {| logGroup_id := logGroup_id logGroup;
           logGroupName := logGroupName logGroup;
           retention := retention logGroup;
           encryptionKey := encryptionKey logGroup;
           defaultChild :=
             addPropertyOverride "DataProtectionPolicy" doc
               (defaultChild logGroup) |}.
Proof.
  unfold addDataProtectionPolicy, addDataProtectionPolicyForCfnLogGroup.
  destruct (cloudwatchDataProtectionPolicy props) as [doc|msg|]; simpl.
  - split; [intros [= <-]; by exists doc|by intros (? & [= <-] & ->)].
  - split; [done|by intros (? & ? & _)].
  - split; [done|by intros (? & ? & _)].
Qed.

(** The identifier list does not depend on the audit log group. *)
Lemma resolve_withAuditLogGroupName
    (props : option CwDataProtectionPolicyProps) (name : string) :
  resolveDataIdentifiers (withAuditLogGroupName props name)
  = resolveDataIdentifiers (default emptyProps props).
Proof. by destruct props. Qed.

(** The props the policy is computed from, as a function of the caller's. *)
Lemma addDataProtectionPolicyToFargateContainerLogs_found
    (stack : Stack) (auditName : string) (taskDefinition : FargateTaskDefinition)
    (props : option CwDataProtectionPolicyProps)
    (container : ContainerDefinition) (logGroup : LogGroup) :
  defaultContainer taskDefinition = Some container →
  tryFindChild "LogGroup" container = Some logGroup →
  addDataProtectionPolicyToFargateContainerLogs stack auditName taskDefinition props
  = if truthy_opt_string (props ≫= auditLogGroupName)
    then
      bind (addDataProtectionPolicy logGroup (default emptyProps props))
        (λ logGroup',
          Returns {| created := []; serviceDependencies := [];
                     serviceLogGroup := Some logGroup' |})
    else
      bind (addDataProtectionPolicy logGroup
              (withAuditLogGroupName props auditName))
        (λ logGroup',
          Returns
            {| created :=
                 snd (createDataProtectionAuditLogGroup stack auditName None);
               serviceDependencies :=
                 [fst (createDataProtectionAuditLogGroup stack auditName None)];
               serviceLogGroup := Some logGroup' |}).
Proof.
  intros Hc Hlg.
  unfold addDataProtectionPolicyToFargateContainerLogs,
    getServiceContainerForFargateService, getLogGroupForFargateService.
  rewrite Hc, Hlg.
  destruct props as [props|]; [|reflexivity].
  simpl. destruct (truthy_opt_string (auditLogGroupName props)); reflexivity.
Qed.

Lemma findingsDestination_truthy (props : CwDataProtectionPolicyProps)
    (name : string) :
  auditLogGroupName props = Some name →
  truthy_string name = true →
  findingsDestination props = getCloudwatchAuditDestination name.
Proof. intros Hname Htruthy. unfold findingsDestination. by rewrite Hname, Htruthy. Qed.

(** X4: when the task definition has no default container, or that
    container has no child construct with the id ['LogGroup'], the function
    returns without creating or changing anything, whatever the policy props
    are: also for props on which the policy function would throw. *)
Theorem X4_no_service_log_group_nothing_done
    (stack : Stack) (auditName : string) (taskDefinition : FargateTaskDefinition)
    (props : option CwDataProtectionPolicyProps) :
  defaultContainer taskDefinition ≫= tryFindChild "LogGroup" = None →
  addDataProtectionPolicyToFargateContainerLogs stack auditName taskDefinition props
  = Returns nothingDone.
Proof.
  unfold addDataProtectionPolicyToFargateContainerLogs,
    getServiceContainerForFargateService, getLogGroupForFargateService.
  destruct (defaultContainer taskDefinition) as [container|]; simpl; [|done].
  by intros ->.
Qed.

Lemma X4_no_service_log_group_witness :
  cloudwatchDataProtectionPolicy
    {| auditLogGroupName := None; addToDefaultDataIdentifiers := None;
       excludeFromDefaultDataIdentifiers :=
         Some DEFAULT_SENSITIVE_DATA_IDENTIFIERS |}
  = Throws "There should be at least one data identifier in the policy."
  ∧ addDataProtectionPolicyToFargateContainerLogs
      {| region := "eu-west-1"; partition := "aws"; account := "123456789012" |}
      "audit"
      {| defaultContainer :=
           Some {| containerPort := Returns 8080;
                   children :=
                     [("ServiceLogs",
                       {| logGroup_id := "ServiceLogs"; logGroupName := "service";
                          retention := None; encryptionKey := None;
                          defaultChild := {| propertyOverrides := [] |} |})] |} |}
      (Some {| auditLogGroupName := None; addToDefaultDataIdentifiers := None;
               excludeFromDefaultDataIdentifiers :=
                 Some DEFAULT_SENSITIVE_DATA_IDENTIFIERS |})
    = Returns nothingDone.
Proof.
  split; [vm_compute; reflexivity|].
  apply X4_no_service_log_group_nothing_done. vm_compute. reflexivity.
Defined.

(** X5: when the log group of the default container is found and the call
    returns, that log group has received one more property override,
    ['DataProtectionPolicy'], and is otherwise unchanged.  The document of
    the override lists the identifiers resolved from the caller's props
    ([{}] when there are none), and its findings destination is a log
    group: the caller's when [auditLogGroupName] is a non-empty string, the
    newly made audit log group otherwise.  It is never the empty object,
    given that the name of the new group is not the empty string. *)
Theorem X5_fargate_logs_always_get_an_audit_destination
    (stack : Stack) (auditName : string) (taskDefinition : FargateTaskDefinition)
    (props : option CwDataProtectionPolicyProps)
    (container : ContainerDefinition) (logGroup : LogGroup)
    (done : LogsProtection) :
  defaultContainer taskDefinition = Some container →
  tryFindChild "LogGroup" container = Some logGroup →
  truthy_string auditName = true →
  addDataProtectionPolicyToFargateContainerLogs stack auditName taskDefinition props
  = Returns done →
  ∃ (logGroup' : LogGroup) (doc : json) (name : string),
    serviceLogGroup done = Some logGroup'
    ∧ propertyOverrides (defaultChild logGroup')
      = propertyOverrides (defaultChild logGroup)
        ++ [("DataProtectionPolicy", doc)]
    ∧ logGroup_id logGroup' = logGroup_id logGroup
    ∧ logGroupName logGroup' = logGroupName logGroup
    ∧ retention logGroup' = retention logGroup
    ∧ encryptionKey logGroup' = encryptionKey logGroup
    ∧ dataIdentifierOf 0 doc
      = Some (resolveDataIdentifiers (default emptyProps props))
    ∧ dataIdentifierOf 1 doc
      = Some (resolveDataIdentifiers (default emptyProps props))
    ∧ findingsDestinationOf doc = Some (getCloudwatchAuditDestination name)
    ∧ truthy_string name = true
    ∧ name = (if truthy_opt_string (props ≫= auditLogGroupName)
              then default "" (props ≫= auditLogGroupName)
              else auditName).
Proof.
  intros Hc Hlg Haudit.
  rewrite (addDataProtectionPolicyToFargateContainerLogs_found
             _ _ _ _ _ _ Hc Hlg).
  destruct (truthy_opt_string (props ≫= auditLogGroupName)) eqn:Hcaller.
  - destruct props as [props|]; [|done]. simpl in Hcaller |- *.
    destruct (auditLogGroupName props) as [name|] eqn:Hname; [|done].
    simpl in Hcaller.
    destruct (addDataProtectionPolicy logGroup props) as [logGroup'| |] eqn:Hadd;
      [|done..].
    apply addDataProtectionPolicy_Returns in Hadd as (doc & Hdoc & ->).
    apply policy_returns in Hdoc as [_ ->].
    simpl. intros [= <-]. eexists; eexists; exists name. simpl.
    split_and!; try reflexivity.
    + apply policyDocument_mask.
    + apply policyDocument_audit.
    + by rewrite policyDocument_destination,
        (findingsDestination_truthy props name).
    + done.
  - destruct (addDataProtectionPolicy logGroup _) as [logGroup'| |] eqn:Hadd;
      [|done..].
    apply addDataProtectionPolicy_Returns in Hadd as (doc & Hdoc & ->).
    apply policy_returns in Hdoc as [_ ->].
    simpl. intros [= <-]. eexists; eexists; exists auditName. simpl.
    split_and!; try reflexivity.
    + by rewrite policyDocument_mask, resolve_withAuditLogGroupName.
    + by rewrite policyDocument_audit, resolve_withAuditLogGroupName.
    + by rewrite policyDocument_destination,
        (findingsDestination_truthy _ auditName).
    + done.
Qed.

Lemma X5_fargate_logs_audit_destination_witness :
  ∃ (done : LogsProtection) (logGroup' : LogGroup) (doc : json),
    addDataProtectionPolicyToFargateContainerLogs
      {| region := "eu-west-1"; partition := "aws"; account := "123456789012" |}
      "audit"
      {| defaultContainer :=
           Some {| containerPort := Returns 8080;
                   children :=
                     [("LogGroup",
                       {| logGroup_id := "LogGroup"; logGroupName := "service";
                          retention := None; encryptionKey := None;
                          defaultChild := {| propertyOverrides := [] |} |})] |} |}
      (Some {| auditLogGroupName := Some "";
               addToDefaultDataIdentifiers := None;
               excludeFromDefaultDataIdentifiers := None |})
    = Returns done
    ∧ serviceLogGroup done = Some logGroup'
    ∧ propertyOverrides (defaultChild logGroup')
      = [("DataProtectionPolicy", doc)]
    ∧ findingsDestinationOf doc
      = Some (getCloudwatchAuditDestination "audit").
Proof.
  eexists. 
  destruct (X5_fargate_logs_always_get_an_audit_destination
    {| region := "eu-west-1"; partition := "aws"; account := "123456789012" |}
    "audit"
    {| defaultContainer :=
         Some {| containerPort := Returns 8080;
                 children :=
                   [("LogGroup",
                     {| logGroup_id := "LogGroup"; logGroupName := "service";
                        retention := None; encryptionKey := None;
                        defaultChild := {| propertyOverrides := [] |} |})] |} |}
    (Some {| auditLogGroupName := Some "";
             addToDefaultDataIdentifiers := None;
             excludeFromDefaultDataIdentifiers := None |})
    _ _ _ eq_refl eq_refl eq_refl eq_refl)
    as (logGroup' & doc & name & Hlg & Hover & _ & _ & _ & _ & _ & _ & Hdest & _ & Hname).
  exists logGroup', doc. split; [reflexivity|]. split; [exact Hlg|].
  split; [exact Hover|]. rewrite Hdest, Hname. reflexivity.
Defined.

(** X6: an audit log group is made exactly when the caller names none
    (no policy props at all, no [auditLogGroupName], or the empty string).
    It is then the only log group the service is made to depend on, keeps
    its logs for ten years, and is encrypted with a key made for it, with
    key rotation switched on, that the CloudWatch Logs service of the
    stack's region may use.  When the caller names a log group nothing is
    added to the scope and no dependency is added. *)
Theorem X6_audit_log_group_made_iff_none_named
    (stack : Stack) (auditName : string) (taskDefinition : FargateTaskDefinition)
    (props : option CwDataProtectionPolicyProps)
    (container : ContainerDefinition) (logGroup : LogGroup)
    (done : LogsProtection) :
  defaultContainer taskDefinition = Some container →
  tryFindChild "LogGroup" container = Some logGroup →
  addDataProtectionPolicyToFargateContainerLogs stack auditName taskDefinition props
  = Returns done →
  if truthy_opt_string (props ≫= auditLogGroupName)
  then created done = [] ∧ serviceDependencies done = []
  else
    ∃ (key : IKey) (statement : KeyPolicyStatement) (auditLogGroup : LogGroup),
      created done
      = [KeyConstruct key [statement]; LogGroupConstruct auditLogGroup]
      ∧ serviceDependencies done = [auditLogGroup]
      ∧ logGroup_id auditLogGroup = "AuditLogGroup"
      ∧ logGroupName auditLogGroup = auditName
      ∧ retention auditLogGroup = Some TEN_YEARS
      ∧ encryptionKey auditLogGroup = Some key
      ∧ (∃ description : string,
           key = NewKey "CwDataProtectionKmsKey"
                   {| description := description; enableKeyRotation := true |})
      ∧ kp_effect statement = ALLOW
      ∧ kp_servicePrincipals statement
        = ["logs." +:+ region stack +:+ ".amazonaws.com"].
Proof.
  intros Hc Hlg.
  rewrite (addDataProtectionPolicyToFargateContainerLogs_found
             _ _ _ _ _ _ Hc Hlg).
  destruct (truthy_opt_string (props ≫= auditLogGroupName)).
  - destruct (addDataProtectionPolicy logGroup _); [|done..].
    simpl. by intros [= <-].
  - destruct (addDataProtectionPolicy logGroup _); [|done..].
    simpl. intros [= <-]. simpl.
    do 3 eexists. split_and!; try reflexivity. by eexists.
Qed.

Lemma X6_audit_log_group_witness :
  ∃ (done : LogsProtection) (auditLogGroup : LogGroup),
    addDataProtectionPolicyToFargateContainerLogs
      {| region := "eu-west-1"; partition := "aws"; account := "123456789012" |}
      "audit"
      {| defaultContainer :=
           Some {| containerPort := Returns 8080;
                   children :=
                     [("LogGroup",
                       {| logGroup_id := "LogGroup"; logGroupName := "service";
                          retention := None; encryptionKey := None;
                          defaultChild := {| propertyOverrides := [] |} |})] |} |}
      None
    = Returns done
    ∧ serviceDependencies done = [auditLogGroup]
    ∧ retention auditLogGroup = Some TEN_YEARS.
Proof.
  eexists.
  pose proof (X6_audit_log_group_made_iff_none_named
    {| region := "eu-west-1"; partition := "aws"; account := "123456789012" |}
    "audit"
    {| defaultContainer :=
         Some {| containerPort := Returns 8080;
                 children :=
                   [("LogGroup",
                     {| logGroup_id := "LogGroup"; logGroupName := "service";
                        retention := None; encryptionKey := None;
                        defaultChild := {| propertyOverrides := [] |} |})] |} |}
    None _ _ _ eq_refl eq_refl eq_refl) as H.
  simpl in H.
  destruct H as (key & statement & auditLogGroup & _ & Hdeps & _ & _ & Hret & _).
  exists auditLogGroup. split; [reflexivity|]. split; [exact Hdeps|exact Hret].
Defined.

(** X7: when the log group of the default container is found and every
    identifier the defaults and the additions name is excluded at least as
    often, the call does not return: no log group is left without a policy
    silently.  When the caller names the audit log group, so that nothing
    is built before the policy is computed, the error is the one of the
    policy function. *)
Theorem X7_fargate_logs_fail_without_identifiers
    (stack : Stack) (auditName : string) (taskDefinition : FargateTaskDefinition)
    (props : option CwDataProtectionPolicyProps) (logGroup : LogGroup) :
  defaultContainer taskDefinition ≫= tryFindChild "LogGroup" = Some logGroup →
  (∀ x : string,
     (occurrences x
        (DEFAULT_SENSITIVE_DATA_IDENTIFIERS
           ++ default [] (props ≫= addToDefaultDataIdentifiers))
      ≤ occurrences x
          (default [] (props ≫= excludeFromDefaultDataIdentifiers)))%nat) →
  (∀ done : LogsProtection,
     addDataProtectionPolicyToFargateContainerLogs stack auditName
       taskDefinition props ≠ Returns done)
  ∧ (truthy_opt_string (props ≫= auditLogGroupName) = true →
     addDataProtectionPolicyToFargateContainerLogs stack auditName
       taskDefinition props
     = Throws "There should be at least one data identifier in the policy.").
Proof.
  intros Hfound Hexcluded.
  destruct (defaultContainer taskDefinition) as [container|] eqn:Hc; [|done].
  simpl in Hfound.
  rewrite (addDataProtectionPolicyToFargateContainerLogs_found
             _ _ _ _ _ _ Hc Hfound).
  assert (Hpolicy : ∀ p : CwDataProtectionPolicyProps,
    addToDefaultDataIdentifiers p = props ≫= addToDefaultDataIdentifiers →
    excludeFromDefaultDataIdentifiers p
    = props ≫= excludeFromDefaultDataIdentifiers →
    addDataProtectionPolicy logGroup p
    = Throws "There should be at least one data identifier in the policy.").
  { intros p Hadd Hexclude.
    unfold addDataProtectionPolicy, addDataProtectionPolicyForCfnLogGroup.
    assert (Hthrows : cloudwatchDataProtectionPolicy p
      = Throws "There should be at least one data identifier in the policy.").
    { apply policy_Throws. split; [|done]. by rewrite Hadd, Hexclude. }
    by rewrite Hthrows. }
  destruct (truthy_opt_string (props ≫= auditLogGroupName)) eqn:Hnamed.
  - destruct props as [props|]; [|done]. cbn [default from_option id].
    rewrite (Hpolicy props) by done. by split.
  - rewrite (Hpolicy (withAuditLogGroupName props auditName))
      by by destruct props.
    by split.
Qed.

Lemma X7_fargate_logs_fail_witness :
  addDataProtectionPolicyToFargateContainerLogs
    {| region := "eu-west-1"; partition := "aws"; account := "123456789012" |}
    "audit"
    {| defaultContainer :=
         Some {| containerPort := Returns 8080;
                 children :=
                   [("LogGroup",
                     {| logGroup_id := "LogGroup"; logGroupName := "service";
                        retention := None; encryptionKey := None;
                        defaultChild := {| propertyOverrides := [] |} |})] |} |}
    (Some {| auditLogGroupName := Some "findings";
             addToDefaultDataIdentifiers := None;
             excludeFromDefaultDataIdentifiers :=
               Some DEFAULT_SENSITIVE_DATA_IDENTIFIERS |})
  = Throws "There should be at least one data identifier in the policy.".
Proof.
  edestruct (X7_fargate_logs_fail_without_identifiers
    {| region := "eu-west-1"; partition := "aws"; account := "123456789012" |}
    "audit"
    {| defaultContainer :=
         Some {| containerPort := Returns 8080;
                 children :=
                   [("LogGroup",
                     {| logGroup_id := "LogGroup"; logGroupName := "service";
                        retention := None; encryptionKey := None;
                        defaultChild := {| propertyOverrides := [] |} |})] |} |}
    (Some {| auditLogGroupName := Some "findings";
             addToDefaultDataIdentifiers := None;
             excludeFromDefaultDataIdentifiers :=
               Some DEFAULT_SENSITIVE_DATA_IDENTIFIERS |}))
    as [_ Hthrows].
  - reflexivity.
  - intros x. simpl. reflexivity.
  - apply Hthrows. reflexivity.
Defined.

End LogsSpec.

(** ** More about Bucket and AccessLogsBucket *)
Module BucketSpec.
Import S3 Predicates SQSSpec S3Spec WrapperSpec.

Section Constructor.
Context (cdkBucket : validator (BucketProps S3Bucket)).

(** [AccessLogsBucket] in one step: the props it resolves never ask for a
    key or for a log bucket of its own. *)
Lemma AccessLogsBucket_new_S (fuel : nat) (id : string)
    (props : BucketProps IBucket) :
  AccessLogsBucket_new cdkBucket (S fuel) id props
  = let logsProps :=
      updatedPropsFor (accessLogsUpdatedProps props) None None in
    cdk_super cdkBucket logsProps
      (NewBucket id logsProps None
         (if default true (requireSecureTransport props)
          then [secureTransportStatement] else []),
       []).
Proof.
  unfold AccessLogsBucket_new. cbn.
  destruct (requireSecureTransport props) as [[]|]; reflexivity.
Qed.

Lemma AccessLogsBucket_new_inv (fuel : nat) (id : string)
    (props : BucketProps IBucket) (b : S3Bucket) (added : list Construct) :
  AccessLogsBucket_new cdkBucket (S fuel) id props = Returns (b, added) →
  b = NewBucket id
        (updatedPropsFor (accessLogsUpdatedProps props) None None)
        None
        (if default true (requireSecureTransport props)
         then [secureTransportStatement] else [])
  ∧ added = [].
Proof.
  rewrite AccessLogsBucket_new_S. cbv zeta.
  by intros [_ [= <- <-]]%cdk_super_Returns.
Qed.

(** What every access-log bucket looks like. *)
Lemma accessLogs_profile (id : string) (props : BucketProps IBucket) :
  let b :=
    NewBucket id
      (updatedPropsFor (accessLogsUpdatedProps props) None None)
      None
      (if default true (requireSecureTransport props)
       then [secureTransportStatement] else []) in
  ∃ p : BucketProps S3Bucket,
    superPropsOf b = Some p
    ∧ bucketName p = bucketName props
    ∧ encryption p = Some S3_MANAGED
    ∧ encryptionKey p = None
    ∧ versioned p = Some true
    ∧ blockPublicAccess p = Some BLOCK_ALL
    ∧ objectOwnership p = Some BUCKET_OWNER_PREFERRED
    ∧ enableAccessLogging p = Some false
    ∧ serverAccessLogsBucket p = None
    ∧ serverAccessLogsPrefix p = Some "logs/"
    ∧ lifecycleRules p
      = Some [ {| rule_id := "CurrentVersionPolicyForLogs";
                  enabled := true;
                  expiration := Some (Duration_days 3650);
                  noncurrentVersionExpiration := None;
                  transitions :=
                    Some [ {| storageClass := GLACIER;
                              transitionAfter := Duration_days 365 |} ] |} ]
    ∧ (∀ st : PolicyStatement,
         st ∈ resourcePolicyOf b → isRequireKmsDeny st = false)
    ∧ ((∃ st : PolicyStatement,
          st ∈ resourcePolicyOf b ∧ isSecureTransportDeny st = true)
       ↔ requireSecureTransport props ≠ Some false).
Proof.
  cbv zeta. eexists. split; [reflexivity|]. cbn -[spread].
  rewrite !spread_None, !spread_Some.
  split_and!; try reflexivity.
  - intros st Hst. destruct (default true (requireSecureTransport props));
      not_in_list Hst.
  - assert (Hst : isSecureTransportDeny secureTransportStatement = true) by done.
    destruct (requireSecureTransport props) as [[]|]; simpl;
      (split;
       [ intros (st & Hin & Hdeny); not_in_list Hin
       | intros Hne; first [done | exists secureTransportStatement];
         (split; [in_list|done]) ]).
Qed.

(** X8: [AccessLogsBucket] reads two members of its props, [bucketName] and
    [requireSecureTransport], and nothing else: props that agree on the name
    and on whether secure transport is switched off give the same bucket or
    the same error, whatever they say about encryption, keys, versioning,
    public access, lifecycle rules or access logging. *)
Theorem X8_access_logs_bucket_reads_name_and_transport_only
    (fuel : nat) (id : string) (p q : BucketProps IBucket) :
  bucketName p = bucketName q →
  default true (requireSecureTransport p)
  = default true (requireSecureTransport q) →
  AccessLogsBucket_new cdkBucket (S fuel) id p
  = AccessLogsBucket_new cdkBucket (S fuel) id q.
Proof.
  intros Hname Hrst. rewrite !AccessLogsBucket_new_S. cbv zeta.
  unfold accessLogsUpdatedProps. by rewrite Hname, Hrst.
Qed.

(** X9: an access-log bucket that is built uses S3-managed encryption and
    has no key, is versioned, blocks all public access, logs to no bucket
    (its own prefix is ['logs/']), keeps the caller's name as it is, expires
    its objects after ten years and moves them to Glacier after one, and
    adds nothing else to the scope.  Its policy never asks uploads for a KMS
    key, and denies insecure transport unless that was switched off. *)
Theorem X9_access_logs_bucket_fixed_profile
    (fuel : nat) (id : string) (props : BucketProps IBucket)
    (b : S3Bucket) (added : list Construct) :
  AccessLogsBucket_new cdkBucket (S fuel) id props = Returns (b, added) →
  added = []
  ∧ ∃ p : BucketProps S3Bucket,
      superPropsOf b = Some p
      ∧ bucketName p = bucketName props
      ∧ encryption p = Some S3_MANAGED
      ∧ encryptionKey p = None
      ∧ versioned p = Some true
      ∧ blockPublicAccess p = Some BLOCK_ALL
      ∧ objectOwnership p = Some BUCKET_OWNER_PREFERRED
      ∧ enableAccessLogging p = Some false
      ∧ serverAccessLogsBucket p = None
      ∧ serverAccessLogsPrefix p = Some "logs/"
      ∧ lifecycleRules p
        = Some [ {| rule_id := "CurrentVersionPolicyForLogs";
                    enabled := true;
                    expiration := Some (Duration_days 3650);
                    noncurrentVersionExpiration := None;
                    transitions :=
                      Some [ {| storageClass := GLACIER;
                                transitionAfter := Duration_days 365 |} ] |} ]
      ∧ (∀ st : PolicyStatement,
           st ∈ resourcePolicyOf b → isRequireKmsDeny st = false)
      ∧ ((∃ st : PolicyStatement,
            st ∈ resourcePolicyOf b ∧ isSecureTransportDeny st = true)
         ↔ requireSecureTransport props ≠ Some false).
Proof.
  intros [-> ->]%AccessLogsBucket_new_inv. split; [done|].
  apply accessLogs_profile.
Qed.

(** The parts of a bucket that was built. *)
Lemma Bucket_parts (id : string) (props : BucketProps IBucket)
    (b : S3Bucket) (added : list Construct) :
  Bucket cdkBucket id (Some props) = Returns (b, added) →
  ∃ (logs : option S3Bucket) (rest : list Construct),
    let p :=
      updatedPropsFor props
        (assigned (newEncryptionKey id props) (encryptionKey props)) logs in
    b = NewBucket id p logs
          ((if default true (requireSecureTransport props)
            then [secureTransportStatement] else [])
           ++ (if bool_decide (encryption p = Some KMS)
               then [requireKmsStatement] else []))
    ∧ added
      = from_option (λ k, [KeyConstruct k]) [] (newEncryptionKey id props)
        ++ rest
    ∧ ∀ k : IKey, KeyConstruct k ∉ rest.
Proof.
  intros H. bucket_inversion H. revert H.
  case_match; intros [= <- <-]; do 2 eexists; cbv zeta;
    (split_and!; [reflexivity..|]); intros k Hk; not_in_list Hk.
Qed.

(** X10: a bucket that is built denies uploads that name no KMS key exactly
    when the encryption handed to [s3.Bucket] is KMS, which it is when the
    caller chose KMS and when the props do not have the key [encryption].
    Props that hold [encryption: undefined] get neither: the base class is
    handed no encryption and the policy no such statement, although the
    constructor goes on as for KMS and makes a key when none is given.  A
    bucket that is handed KMS encryption is handed a key with it, the
    caller's or the one made for it, unless the props hold
    [encryptionKey: undefined].  A key that is made has key rotation
    switched on and the id of the bucket followed by ['Key']. *)
Theorem X10_bucket_requires_kms_uploads_iff_kms
    (id : string) (props : BucketProps IBucket)
    (b : S3Bucket) (added : list Construct) :
  Bucket cdkBucket id (Some props) = Returns (b, added) →
  ((∃ st : PolicyStatement,
      st ∈ resourcePolicyOf b ∧ isRequireKmsDeny st = true)
   ↔ superPropsOf b ≫= encryption = Some KMS)
  ∧ (superPropsOf b ≫= encryption = Some KMS
     ↔ encryption props = Some KMS
       ∨ (encryption props = None ∧ "encryption" ∉ undefinedKeys props))
  ∧ (encryption props = None → "encryption" ∈ undefinedKeys props →
     superPropsOf b ≫= encryption = None
     ∧ (encryptionKey props = None → ∃ k : IKey, KeyConstruct k ∈ added))
  ∧ (superPropsOf b ≫= encryption = Some KMS →
     "encryptionKey" ∉ undefinedKeys props →
     ∃ k : IKey, superPropsOf b ≫= encryptionKey = Some k)
  ∧ (∀ k : IKey, KeyConstruct k ∈ added →
       ∃ description : string,
         k = NewKey (id +:+ "Key")
               {| description := description; enableKeyRotation := true |}).
Proof.
  intros (logs & rest & -> & -> & Hrest)%Bucket_parts.
  assert (Hhanded :
    encryption
      (updatedPropsFor props
         (assigned (newEncryptionKey id props) (encryptionKey props)) logs)
    = Some KMS
    ↔ encryption props = Some KMS
      ∨ (encryption props = None ∧ "encryption" ∉ undefinedKeys props)).
  { cbn -[spread]. rewrite spread_cases.
    destruct (encryption props) as [[]|]; [| | | | | |case_bool_decide];
      (split; [intros ?; try done; auto|intros [?|[? ?]]; done]). }
  split_and!.
  - cbn [superPropsOf resourcePolicyOf mbind option_bind].
    case_bool_decide as Hkms.
    + split; [done|]. intros _. exists requireKmsStatement.
      split; [|done]. apply elem_of_app. right. in_list.
    + split; [|done]. intros (st & Hin & Hdeny).
      rewrite app_nil_r in Hin.
      destruct (default true (requireSecureTransport props));
        not_in_list Hin.
  - exact Hhanded.
  - intros Henc Hundefined. split.
    + cbn -[spread]. by rewrite Henc, spread_undefined.
    + intros Hkey. exists (NewKey (id +:+ "Key")
        {| description := "Created by " +:+ id +:+ " resource";
           enableKeyRotation := true |}).
      unfold newEncryptionKey. rewrite Henc, Hkey. cbn. in_list.
  - intros [Hkms|[Hnone Habsent]]%Hhanded Hkey; cbn -[spread];
      unfold newEncryptionKey;
      (destruct (encryptionKey props) as [k0|] eqn:Hk0;
       [by exists k0|]).
    + rewrite Hkms. cbn -[spread]. rewrite spread_absent by done. by eexists.
    + rewrite Hnone. cbn -[spread]. rewrite spread_absent by done. by eexists.
  - intros k [(k' & Hk' & [= ->])|Hk]%elem_of_keys_app; [|by apply Hrest in Hk].
    revert Hk'. unfold newEncryptionKey. case_match; [|done].
    intros [= <-]. by eexists.
Qed.

(** X11: the lifecycle rules a built bucket is given differ from the
    caller's in one case only: the props have no [lifecycleRules] key,
    versioning is not switched off and the default rules are not switched
    off.  The bucket then gets the one rule that expires non-current
    versions after 90 days.  A bucket whose props switch versioning off
    never gets it.  Versioning itself is handed on as the caller set it and
    switched on for props without the key; props that hold
    [versioned: undefined] hand no versioning on, and still get the rule. *)
Theorem X11_default_lifecycle_rule_unless_versioning_is_switched_off
    (id : string) (props : BucketProps IBucket)
    (b : S3Bucket) (added : list Construct) :
  Bucket cdkBucket id (Some props) = Returns (b, added) →
  ∃ p : BucketProps S3Bucket,
    superPropsOf b = Some p
    ∧ (lifecycleRules p ≠ lifecycleRules props
       ↔ lifecycleRules props = None
         ∧ ("lifecycleRules" ∉ undefinedKeys props)
         ∧ versioned props ≠ Some false
         ∧ enableDefaultLifecycleRules props ≠ Some false)
    ∧ (lifecycleRules p ≠ lifecycleRules props →
       lifecycleRules p
       = Some [ {| rule_id := "NonCurrentVersionPolicyForCompliance";
                   enabled := true;
                   expiration := None;
                   noncurrentVersionExpiration := Some (Duration_days 90);
                   transitions := None |} ])
    ∧ (versioned props = Some false → lifecycleRules p = lifecycleRules props)
    ∧ (∀ v : bool, versioned props = Some v → versioned p = Some v)
    ∧ (versioned props = None →
       versioned p
       = (if bool_decide ("versioned" ∈ undefinedKeys props)
          then None else Some true)).
Proof.
  intros H. bucket_inversion H. revert H.
  case_match; intros [= <- <-]; eexists; (split; [reflexivity|]); simpl;
    unfold resolveLifecycleRules, spread;
    destruct (lifecycleRules props) as [rules|],
             (versioned props) as [[]|],
             (enableDefaultLifecycleRules props) as [[]|]; simpl;
    destruct (bool_decide ("lifecycleRules" ∈ undefinedKeys props))
      eqn:Hundefined;
    try apply bool_decide_eq_true_1 in Hundefined;
    try apply bool_decide_eq_false_1 in Hundefined;
    (split_and!;
     [ split; [intros ?; try done; by split_and!|intros (? & ? & ? & ?); done]
     | intros ?; done
     | intros ?; done
     | intros v ?; by simplify_eq
     | intros ?; done ]).
Qed.

(** X12: the access-log bucket that [Bucket] makes for itself does not
    inherit the primary bucket's encryption, key, versioning or lifecycle
    choices: it has the fixed profile of an access-log bucket.  The one
    thing it shares with its primary is the secure-transport choice: it
    denies insecure transport exactly when the primary does. *)
Theorem X12_synthesized_log_bucket_shares_only_secure_transport
    (id : string) (props : BucketProps IBucket)
    (b : S3Bucket) (added : list Construct) (logs : S3Bucket) :
  Bucket cdkBucket id (Some props) = Returns (b, added) →
  BucketConstruct logs ∈ added →
  serverAccessLogsBucketOf b = Some logs
  ∧ (∃ p : BucketProps S3Bucket,
       superPropsOf logs = Some p
       ∧ encryption p = Some S3_MANAGED
       ∧ encryptionKey p = None
       ∧ versioned p = Some true
       ∧ blockPublicAccess p = Some BLOCK_ALL
       ∧ enableAccessLogging p = Some false
       ∧ serverAccessLogsBucket p = None)
  ∧ (∀ st : PolicyStatement,
       st ∈ resourcePolicyOf logs → isRequireKmsDeny st = false)
  ∧ ((∃ st : PolicyStatement,
        st ∈ resourcePolicyOf logs ∧ isSecureTransportDeny st = true)
     ↔ (∃ st : PolicyStatement,
          st ∈ resourcePolicyOf b ∧ isSecureTransportDeny st = true)).
Proof.
  intros H Hlogs.
  pose proof (Bucket_secure_transport cdkBucket id props b added H) as Hprimary.
  pose proof (Bucket_companions cdkBucket id props b added H)
    as (_ & _ & _ & Hof & _).
  split; [by apply Hof|].
  bucket_inversion H. revert H.
  destruct (default true (enableAccessLogging props)
            && bool_decide (serverAccessLogsBucket props = None));
    intros [= <- <-].
  - apply elem_of_keys_app in Hlogs as [(k & _ & [=])|Hlogs].
    apply list_elem_of_singleton in Hlogs as [= ->].
    destruct (accessLogs_profile (id +:+ "AccessLog")
                (accessLogsBucketProps props (resolveAccessLogBucketName props)))
      as (p & Hp & _ & Henc & Hkey & Hver & Hblock & _ & Hlog & Hown & _ & _
          & Hnokms & Hdeny).
    split_and!.
    + exists p. by split_and!.
    + exact Hnokms.
    + rewrite Hprimary. exact Hdeny.
  - apply elem_of_keys_app in Hlogs as [(k & _ & [=])|Hlogs].
    not_in_list Hlogs.
Qed.

End Constructor.

Lemma X8_access_logs_bucket_reads_witness :
  AccessLogsBucket_new accepting 2 "Logs"
    {| bucketName := Some "access-logs"; encryption := Some KMS;
       encryptionKey := Some (ImportedKey "arn:aws:kms:key/1");
       serverAccessLogsBucket := None; serverAccessLogsPrefix := Some "elsewhere/";
       lifecycleRules := Some []; versioned := Some false;
       blockPublicAccess := Some BLOCK_ACLS; objectOwnership := Some OBJECT_WRITER;
       requireSecureTransport := Some true;
       enableAccessLogging := Some true; enableDefaultLifecycleRules := Some false;
       undefinedKeys := [] |}
  = AccessLogsBucket_new accepting 2 "Logs" (namedProps "access-logs").
Proof.
  apply (X8_access_logs_bucket_reads_name_and_transport_only accepting 1 "Logs");
    reflexivity.
Defined.

Lemma X9_access_logs_bucket_fixed_profile_witness :
  ∃ (b : S3Bucket) (p : BucketProps S3Bucket),
    AccessLogsBucket_new accepting 2 "Logs"
      {| bucketName := Some "access-logs"; encryption := Some KMS;
         encryptionKey := Some (ImportedKey "arn:aws:kms:key/1");
         serverAccessLogsBucket := None; serverAccessLogsPrefix := None;
         lifecycleRules := None; versioned := Some false;
         blockPublicAccess := None; objectOwnership := None;
         requireSecureTransport := None;
         enableAccessLogging := Some true; enableDefaultLifecycleRules := None;
         undefinedKeys := [] |}
    = Returns (b, [])
    ∧ superPropsOf b = Some p
    ∧ encryption p = Some S3_MANAGED
    ∧ encryptionKey p = None
    ∧ versioned p = Some true.
Proof.
  eexists.
  destruct (X9_access_logs_bucket_fixed_profile accepting 1 "Logs"
    {| bucketName := Some "access-logs"; encryption := Some KMS;
       encryptionKey := Some (ImportedKey "arn:aws:kms:key/1");
       serverAccessLogsBucket := None; serverAccessLogsPrefix := None;
       lifecycleRules := None; versioned := Some false;
       blockPublicAccess := None; objectOwnership := None;
       requireSecureTransport := None;
       enableAccessLogging := Some true; enableDefaultLifecycleRules := None;
       undefinedKeys := [] |}
    _ _ eq_refl)
    as (_ & p & Hp & _ & Henc & Hkey & Hver & _).
  exists p. split; [reflexivity|]. by split_and!.
Defined.

Lemma X10_bucket_requires_kms_uploads_witness :
  ∃ (b : S3Bucket) (added : list Construct) (st : PolicyStatement) (k : IKey),
    Bucket accepting "Data" (Some emptyProps) = Returns (b, added)
    ∧ st ∈ resourcePolicyOf b
    ∧ isRequireKmsDeny st = true
    ∧ superPropsOf b ≫= encryptionKey = Some k.
Proof.
  eexists _, _.
  destruct (X10_bucket_requires_kms_uploads_iff_kms accepting "Data" emptyProps
              _ _ eq_refl) as (Hdeny & Hhanded & _ & Hkey & _).
  assert (Habsent : ∀ key : string, key ∉ undefinedKeys emptyProps)
    by (intros key; apply not_elem_of_nil).
  pose proof (proj2 Hhanded (or_intror (conj eq_refl (Habsent _)))) as Hkms.
  destruct (proj2 Hdeny Hkms) as (st & Hin & Hst).
  destruct (Hkey Hkms (Habsent _)) as (k & Hk).
  exists st, k. split; [reflexivity|]. by split_and!.
Defined.

Lemma X11_default_lifecycle_rule_witness :
  ∃ (b : S3Bucket) (added : list Construct) (p : BucketProps S3Bucket),
    Bucket accepting "Data"
      (Some {| bucketName := None; encryption := None; encryptionKey := None;
               serverAccessLogsBucket := None; serverAccessLogsPrefix := None;
               lifecycleRules := None; versioned := Some false;
               blockPublicAccess := None; objectOwnership := None;
               requireSecureTransport := None;
               enableAccessLogging := None;
               enableDefaultLifecycleRules := Some true;
               undefinedKeys := [] |})
    = Returns (b, added)
    ∧ superPropsOf b = Some p
    ∧ ¬ lifecycleRules p ≠ None.
Proof.
  eexists _, _.
  destruct (X11_default_lifecycle_rule_unless_versioning_is_switched_off accepting "Data"
    {| bucketName := None; encryption := None; encryptionKey := None;
       serverAccessLogsBucket := None; serverAccessLogsPrefix := None;
       lifecycleRules := None; versioned := Some false;
       blockPublicAccess := None; objectOwnership := None;
       requireSecureTransport := None;
       enableAccessLogging := None;
       enableDefaultLifecycleRules := Some true;
       undefinedKeys := [] |}
    _ _ eq_refl) as (p & Hp & Hiff & _).
  exists p. split; [reflexivity|]. split; [exact Hp|].
  intros Hne. apply Hiff in Hne as (_ & _ & Hver & _). by apply Hver.
Defined.

Lemma X12_synthesized_log_bucket_witness :
  ∃ (b logs : S3Bucket) (added : list Construct) (p : BucketProps S3Bucket),
    Bucket accepting "Data" (Some (namedProps "data")) = Returns (b, added)
    ∧ serverAccessLogsBucketOf b = Some logs
    ∧ superPropsOf logs = Some p
    ∧ encryption p = Some S3_MANAGED.
Proof.
  eexists _, _, _.
  edestruct (X12_synthesized_log_bucket_shares_only_secure_transport
               accepting "Data" (namedProps "data"))
    as (Hof & (p & Hp & Henc & _) & _).
  { reflexivity. }
  { simpl. in_list. }
  exists p. split; [reflexivity|]. by split_and!.
Defined.

End BucketSpec.

(** ** More about SQSQueue *)
Module QueueSpec.
Import SQS JsFacts SQSSpec S3Spec WrapperSpec.

(** X13: the name [getQueueNameForFifoDlq] returns is four characters
    longer than the name it is given, ends with ['.fifo'] like it, and is
    accepted by the function in its turn: a dead-letter queue made for a
    FIFO queue never fails the FIFO name check. *)
Theorem X13_fifo_dlq_name_is_a_fifo_name (queueName name : string) :
  getQueueNameForFifoDlq queueName = Returns name →
  endsWith queueName ".fifo" = true
  ∧ endsWith name ".fifo" = true
  ∧ String.length name = (String.length queueName + 4)%nat
  ∧ ∃ name' : string, getQueueNameForFifoDlq name = Returns name'.
Proof.
  intros (p & -> & ->)%getQueueNameForFifoDlq_inv.
  replace (p +:+ "-dlq" +:+ ".fifo") with ((p +:+ "-dlq") +:+ ".fifo")
    by apply string_app_assoc.
  split_and!.
  - apply endsWith_app.
  - apply endsWith_app.
  - rewrite !string_length_app. simpl. lia.
  - rewrite getQueueNameForFifoDlq_suffix. by eexists.
Qed.

Lemma X13_fifo_dlq_name_witness :
  endsWith "orders-dlq.fifo" ".fifo" = true
  ∧ String.length "orders-dlq.fifo" = (String.length "orders.fifo" + 4)%nat
  ∧ ∃ name' : string, getQueueNameForFifoDlq "orders-dlq.fifo" = Returns name'.
Proof.
  destruct (X13_fifo_dlq_name_is_a_fifo_name "orders.fifo" "orders-dlq.fifo"
              eq_refl) as (_ & Hends & Hlen & Hagain).
  by split_and!.
Defined.

Section Constructor.
Context (cdkQueue : validator (SQSQueueProps Queue)).

(** X14: the encryption handed to [Queue] is the caller's, and KMS for
    props without the key [encryption]; props that hold
    [encryption: undefined] hand none on.  A queue that is handed KMS
    encryption is handed a master key with it, the caller's or the one
    made for it, unless its props hold [encryptionMasterKey: undefined].
    At most one key is made, although two queues may be built: the
    constructs added to the scope are at most that key, followed by at most
    one dead-letter queue.  The key has key rotation switched on, and its
    id is the id of the primary queue followed by ['Key']. *)
Theorem X14_kms_queue_has_a_key_and_one_key_is_made
    (id : string) (props : SQSQueueProps IQueue)
    (q : Queue) (added : list Construct) :
  SQSQueue cdkQueue id (Some props) = Returns (q, added) →
  (∃ p : SQSQueueProps Queue,
     superPropsOf q = Some p
     ∧ (∀ e : QueueEncryption, encryption props = Some e →
          encryption p = Some e)
     ∧ (encryption props = None →
        encryption p
        = (if bool_decide ("encryption" ∈ undefinedKeys props)
           then None else Some KMS))
     ∧ (encryption p = Some KMS →
        "encryptionMasterKey" ∉ undefinedKeys props →
        ∃ k : IKey, encryptionMasterKey p = Some k))
  ∧ (∃ (key : option IKey) (dlq : option Queue),
       added = from_option (λ k, [KeyConstruct k]) [] key
               ++ from_option (λ d, [QueueConstruct d]) [] dlq
       ∧ ∀ k : IKey, key = Some k →
           k = NewKey (id +:+ "Key")
                 {| description := "Created by " +:+ id +:+ " resource";
                    enableKeyRotation := true |}).
Proof.
  intros H. sqs_inversion H name Hname.
  assert (Hhanded : ∀ dlq : option (DeadLetterQueue Queue),
    let p :=
      superPropsFor props (default KMS (encryption props))
        (assigned (newMasterKey id props) (encryptionMasterKey props)) dlq in
    (∀ e : QueueEncryption, encryption props = Some e → encryption p = Some e)
    ∧ (encryption props = None →
       encryption p
       = (if bool_decide ("encryption" ∈ undefinedKeys props)
          then None else Some KMS))
    ∧ (encryption p = Some KMS →
       "encryptionMasterKey" ∉ undefinedKeys props →
       ∃ k : IKey, encryptionMasterKey p = Some k)).
  { intros dlq. cbn -[spread]. split_and!.
    - by intros e ->.
    - by intros ->.
    - unfold newMasterKey.
      destruct (encryptionMasterKey props) as [k0|]; [by exists k0|].
      intros Hkms Habsent. rewrite spread_absent by done.
      destruct (encryption props) as [e|]; cbn in Hkms |- *.
      + injection Hkms as ->. by eexists.
      + by eexists. }
  assert (Hkey : ∀ k : IKey, newMasterKey id props = Some k →
    k = NewKey (id +:+ "Key")
          {| description := "Created by " +:+ id +:+ " resource";
             enableKeyRotation := true |}).
  { unfold newMasterKey.
    destruct (bool_decide _ && bool_decide _); [by intros k [= <-]|done]. }
  revert H.
  destruct (default true (enableDeadLetterQueue props)
            && bool_decide (deadLetterQueue props = None));
    intros [= <- <-];
    (split; [eexists; split; [reflexivity|apply Hhanded]|]).
  - exists (newMasterKey id props). eexists (Some _). by split.
  - exists (newMasterKey id props), None. by split.
Qed.

(** X29: the principals allowed to consume from and to send to the primary
    queue are granted the same on the dead-letter queue made for it, and
    nobody else is.  A dead-letter queue of the caller's is handed on as it
    is and gets no grant. *)
Theorem X29_dead_letter_queue_grants_mirror_the_primary
    (id : string) (props : SQSQueueProps IQueue)
    (q : Queue) (added : list Construct) :
  SQSQueue cdkQueue id (Some props) = Returns (q, added) →
  Predicates.grantedConsumeOf q = default [] (principalsAllowedToConsume props)
  ∧ Predicates.grantedSendOf q = default [] (principalsAllowedToSend props)
  ∧ (∀ d : Queue, QueueConstruct d ∈ added →
       Predicates.grantedConsumeOf d = Predicates.grantedConsumeOf q
       ∧ Predicates.grantedSendOf d = Predicates.grantedSendOf q)
  ∧ (∀ d : DeadLetterQueue IQueue, deadLetterQueue props = Some d →
       ∃ d' : DeadLetterQueue Queue,
         deadLetterQueueOf q = Some d'
         ∧ queue d' = CallerQueue (queue d)
         ∧ maxReceiveCount d' = maxReceiveCount d
         ∧ Predicates.grantedConsumeOf (queue d') = []
         ∧ Predicates.grantedSendOf (queue d') = []).
Proof.
  intros H. sqs_inversion H name Hname. revert H.
  destruct (default true (enableDeadLetterQueue props)) eqn:Hen;
    destruct (deadLetterQueue props) as [d0|] eqn:Hdlq;
    simpl; intros [= <- <-]; simpl;
    (split; [done|]); (split; [done|]);
    (split;
     [ intros d Hd;
       apply elem_of_keys_app in Hd as [(k & _ & [=])|Hd];
       not_in_list Hd
     | intros d Hd; try done; revert Hd; intros [= <-];
       unfold deadLetterQueueOf; simpl; rewrite ?Hdlq;
       eexists; by split_and! ]).
Qed.

End Constructor.

Lemma X29_dead_letter_queue_grants_witness :
  ∃ (q d : Queue) (added : list Construct),
    SQSQueue accepting "Orders"
      (Some {| queueName := None; encryption := None;
               encryptionMasterKey := None; retentionPeriod := None;
               visibilityTimeout := None; contentBasedDeduplication := None;
               fifo := None; deadLetterQueue := None;
               requireSecureTransport := None;
               principalsAllowedToSend :=
                 Some [OtherPrincipal "arn:aws:iam::1:role/producer"];
               principalsAllowedToConsume := None;
               enableDeadLetterQueue := None; dlqMaxReceiveCount := None;
               undefinedKeys := [] |})
    = Returns (q, added)
    ∧ QueueConstruct d ∈ added
    ∧ Predicates.grantedSendOf d
      = [OtherPrincipal "arn:aws:iam::1:role/producer"].
Proof.
  eexists _, _, _. split; [reflexivity|].
  edestruct (X29_dead_letter_queue_grants_mirror_the_primary accepting "Orders"
    {| queueName := None; encryption := None;
       encryptionMasterKey := None; retentionPeriod := None;
       visibilityTimeout := None; contentBasedDeduplication := None;
       fifo := None; deadLetterQueue := None;
       requireSecureTransport := None;
       principalsAllowedToSend :=
         Some [OtherPrincipal "arn:aws:iam::1:role/producer"];
       principalsAllowedToConsume := None;
       enableDeadLetterQueue := None; dlqMaxReceiveCount := None;
       undefinedKeys := [] |})
    as (_ & Hsend & Hdlq & _); [reflexivity|].
  split.
  - simpl. in_list.
  - edestruct Hdlq as (_ & Hd); [simpl; in_list|].
    etrans; [exact Hd|exact Hsend].
Defined.

Lemma X14_kms_queue_has_a_key_witness :
  ∃ (q : Queue) (added : list Construct) (p : SQSQueueProps Queue) (k : IKey),
    SQSQueue accepting "Orders" (Some emptyProps) = Returns (q, added)
    ∧ superPropsOf q = Some p
    ∧ encryptionMasterKey p = Some k.
Proof.
  eexists _, _.
  destruct (X14_kms_queue_has_a_key_and_one_key_is_made accepting "Orders"
              emptyProps _ _ eq_refl) as ((p & Hp & _ & Henc & Hkey) & _).
  destruct (Hkey (Henc eq_refl) (not_elem_of_nil _)) as (k & Hk).
  exists p, k. split; [reflexivity|]. by split.
Defined.

End QueueSpec.

(** ** The nesting of the constructors *)
Module FailureSpec.
Import JsFacts SQSSpec S3Spec WrapperSpec.

Lemma cdk_super_Throws {P A : Type} (validate : validator P) (props : P)
    (a : A) (msg : string) :
  cdk_super validate props a = Throws msg ↔ validate props = Some msg.
Proof.
  unfold cdk_super. destruct (validate props); split; by intros [= ->].
Qed.

(** X16: the constructors of [SQSQueue] and [Bucket] call themselves once at
    most, for the dead-letter queue and for the access-log bucket, which ask
    for no companion of their own: a budget of two nested calls is never
    used up, and a larger budget gives the same outcome. *)
Theorem X16_companions_are_not_nested
    (cdkQueue : validator (SQS.SQSQueueProps SQS.Queue))
    (cdkBucket : validator (S3.BucketProps S3.S3Bucket))
    (fuel : nat) (id : string) :
  (∀ props : option (SQS.SQSQueueProps SQS.IQueue),
     SQS.SQSQueue cdkQueue id props ≠ Diverges
     ∧ SQS.SQSQueue_new cdkQueue (S (S fuel)) id props
       = SQS.SQSQueue cdkQueue id props)
  ∧ (∀ props : option (S3.BucketProps S3.IBucket),
       S3.Bucket cdkBucket id props ≠ Diverges
       ∧ S3.Bucket_new cdkBucket (S (S fuel)) id props
         = S3.Bucket cdkBucket id props).
Proof.
  split; intros props.
  - destruct (SQSQueue_new_fuel cdkQueue fuel id props). done.
  - destruct (Bucket_new_fuel cdkBucket fuel id props). done.
Qed.

End FailureSpec.

(** ** The grants of SnsTopic *)
Module TopicSpec.
Import SNS Predicates JsFacts SQSSpec WrapperSpec.

Section Constructor.
Context (cdkTopic : validator SnsTopicProps).

Lemma elem_of_keyGrant (mk : IKey → Principal → Grant) (key : option IKey)
    (p : Principal) (g : Grant) :
  g ∈ keyGrant mk key p ↔ ∃ k : IKey, key = Some k ∧ g = mk k p.
Proof.
  unfold keyGrant. destruct key as [k|]; simpl.
  - rewrite list_elem_of_singleton. split; [intros ->; by exists k|].
    by intros (k' & [= <-] & ->).
  - rewrite elem_of_nil. split; [done|]. by intros (k' & ? & _).
Qed.

(** The grants of a topic that was built, one by one. *)
Lemma elem_of_grants (id : string) (props : SnsTopicProps)
    (t : Topic) (added : list Construct) (g : Grant) :
  SnsTopic cdkTopic id (Some props) = Returns (t, added) →
  g ∈ grants t ↔
  (∃ p : Principal,
     p ∈ default [] (principalsAllowedToPublish props)
     ∧ ((∃ k : IKey, this_masterKey t = Some k ∧ g = KeyGrantEncrypt k p)
        ∨ (∃ k : IKey, this_masterKey t = Some k ∧ g = KeyGrantDecrypt k p)
        ∨ g = GrantPublish p))
  ∨ (∃ p : Principal,
       p ∈ default [] (principalsAllowedToSubscribe props)
       ∧ ((∃ k : IKey, this_masterKey t = Some k ∧ g = KeyGrantDecrypt k p)
          ∨ g = GrantSubscribe p)).
Proof.
  intros H%SnsTopic_inv. revert H. unfold SnsTopic, cdk_super, accepting.
  intros [= <- <-]. cbn [grants this_masterKey].
  rewrite elem_of_app, !list_elem_of_bind.
  setoid_rewrite elem_of_app. setoid_rewrite elem_of_app.
  setoid_rewrite elem_of_keyGrant. setoid_rewrite list_elem_of_singleton.
  split.
  - intros [(p & Hg & Hp)|(p & Hg & Hp)]; [left|right]; exists p; tauto.
  - intros [(p & Hp & Hg)|(p & Hp & Hg)]; [left|right]; exists p; tauto.
Qed.

(** X17: the grants of a topic that is built go to the listed principals
    and to nobody else, and key grants are made on the topic's own master
    key only.  Every principal allowed to publish may publish and, when the
    topic has a master key, encrypt and decrypt with it; every principal
    allowed to subscribe may subscribe and decrypt.  The right to encrypt
    and to publish goes to publishers only, the right to subscribe to
    subscribers only.  The topic is without a master key exactly when
    encryption was switched off and the caller gave no key.  The key the
    grants are made on is the member [masterKey]; it is also the key handed
    to the base class, except for props that hold [masterKey: undefined],
    for which the base class is handed none. *)
Theorem X17_topic_grants_go_to_the_listed_principals_only
    (id : string) (props : SnsTopicProps)
    (t : Topic) (added : list Construct) :
  SnsTopic cdkTopic id (Some props) = Returns (t, added) →
  let publishers := default [] (principalsAllowedToPublish props) in
  let subscribers := default [] (principalsAllowedToSubscribe props) in
  (∀ g : Grant, g ∈ grants t → granteeOf g ∈ publishers ++ subscribers)
  ∧ (∀ (g : Grant) (k : IKey),
       g ∈ grants t → grantKeyOf g = Some k → this_masterKey t = Some k)
  ∧ (∀ p : Principal, p ∈ publishers →
       GrantPublish p ∈ grants t
       ∧ ∀ k : IKey, this_masterKey t = Some k →
           KeyGrantEncrypt k p ∈ grants t ∧ KeyGrantDecrypt k p ∈ grants t)
  ∧ (∀ p : Principal, p ∈ subscribers →
       GrantSubscribe p ∈ grants t
       ∧ ∀ k : IKey, this_masterKey t = Some k → KeyGrantDecrypt k p ∈ grants t)
  ∧ (∀ (p : Principal) (k : IKey),
       KeyGrantEncrypt k p ∈ grants t ∨ GrantPublish p ∈ grants t →
       p ∈ publishers)
  ∧ (∀ p : Principal, GrantSubscribe p ∈ grants t → p ∈ subscribers)
  ∧ (this_masterKey t = None
     ↔ enableEncryption props = Some false ∧ masterKey props = None)
  ∧ ("masterKey" ∉ undefinedKeys props →
     masterKey (superProps t) = this_masterKey t)
  ∧ (masterKey props = None → "masterKey" ∈ undefinedKeys props →
     masterKey (superProps t) = None).
Proof.
  intros H. cbv zeta.
  pose proof (λ g, elem_of_grants id props t added g H) as Hg.
  split_and!.
  - intros g [(p & Hp & Hcase)|(p & Hp & Hcase)]%Hg; apply elem_of_app;
      [left|right]; destruct_or?; destruct_and?;
      repeat match goal with H : ∃ _, _ |- _ => destruct H as (? & ? & ?) end;
      by simplify_eq/=.
  - intros g k [(p & Hp & Hcase)|(p & Hp & Hcase)]%Hg Hk;
      destruct_or?;
      repeat match goal with H : ∃ _, _ |- _ => destruct H as (? & ? & ?) end;
      by simplify_eq/=.
  - intros p Hp. split; [apply Hg; left; exists p; tauto|].
    intros k Hk. split; apply Hg; left; exists p; (split; [done|]).
    + left. by exists k.
    + right. left. by exists k.
  - intros p Hp. split; [apply Hg; right; exists p; tauto|].
    intros k Hk. apply Hg. right. exists p. split; [done|]. left. by exists k.
  - intros p k [[(p' & Hp & Hcase)|(p' & Hp & Hcase)]%Hg
               |[(p' & Hp & Hcase)|(p' & Hp & Hcase)]%Hg];
      destruct_or?;
      repeat match goal with H : ∃ _, _ |- _ => destruct H as (? & ? & ?) end;
      by simplify_eq/=.
  - intros p [(p' & Hp & Hcase)|(p' & Hp & Hcase)]%Hg;
      destruct_or?;
      repeat match goal with H : ∃ _, _ |- _ => destruct H as (? & ? & ?) end;
      by simplify_eq/=.
  - apply SnsTopic_inv in H. revert H. unfold SnsTopic, cdk_super, accepting.
    intros [= <- <-]. simpl.
    destruct (enableEncryption props) as [[]|], (masterKey props) as [k0|];
      simpl; split; (done || by intros [? ?]).
  - apply SnsTopic_inv in H. revert H. unfold SnsTopic, cdk_super, accepting.
    intros [= <- <-]. cbn -[spread]. intros Habsent.
    destruct (masterKey props); [done|]. by rewrite spread_absent.
  - apply SnsTopic_inv in H. revert H. unfold SnsTopic, cdk_super, accepting.
    intros [= <- <-]. cbn -[spread]. intros -> Hundefined.
    by rewrite spread_undefined.
Qed.

End Constructor.

Lemma X17_topic_grants_witness :
  ∃ (t : Topic) (added : list Construct) (k : IKey),
    SnsTopic accepting "Events"
      (Some {| topicName := None; displayName := None; fifo := None;
               masterKey := None; requireSecureTransport := None;
               enableEncryption := None;
               principalsAllowedToPublish :=
                 Some [OtherPrincipal "arn:aws:iam::1:role/producer"];
               principalsAllowedToSubscribe :=
                 Some [OtherPrincipal "arn:aws:iam::1:role/consumer"];
               undefinedKeys := [] |})
    = Returns (t, added)
    ∧ this_masterKey t = Some k
    ∧ KeyGrantEncrypt k (OtherPrincipal "arn:aws:iam::1:role/producer") ∈ grants t
    ∧ (GrantPublish (OtherPrincipal "arn:aws:iam::1:role/consumer") ∉ grants t).
Proof.
  eexists _, _, _. split; [reflexivity|]. split; [reflexivity|].
  destruct (X17_topic_grants_go_to_the_listed_principals_only accepting "Events"
    {| topicName := None; displayName := None; fifo := None;
       masterKey := None; requireSecureTransport := None;
       enableEncryption := None;
       principalsAllowedToPublish :=
         Some [OtherPrincipal "arn:aws:iam::1:role/producer"];
       principalsAllowedToSubscribe :=
         Some [OtherPrincipal "arn:aws:iam::1:role/consumer"];
       undefinedKeys := [] |}
    _ _ eq_refl) as (_ & _ & Hpub & _ & Honly & _).
  split.
  - apply (Hpub (OtherPrincipal "arn:aws:iam::1:role/producer")); [in_list|].
    reflexivity.
  - intros Hin.
    assert (Hp : OtherPrincipal "arn:aws:iam::1:role/consumer"
                 ∈ [OtherPrincipal "arn:aws:iam::1:role/producer"]).
    { apply (Honly _ (ImportedKey "")). by right. }
    not_in_list Hp.
Defined.

End TopicSpec.

(** ** More about DynamoDBTable *)
Module TableSpec.
Import DynamoDB Predicates SQSSpec WrapperSpec FailureSpec.

Section Constructor.
Context (cdkTable : validator DynamoDBTableProps).
Context (cdkIndex : validator DynamoDBGlobalSecondaryIndexProps).

(** X18: a table that is built is handed the caller's billing mode,
    encryption, point-in-time recovery and deletion protection where the
    caller set them.  For props without the key it is billed per request,
    has customer-managed encryption, point-in-time recovery and deletion
    protection.  Props that hold one of these keys with the value
    [undefined] hand nothing on for it.  Unlike [Bucket], [SQSQueue] and
    [SnsTopic] the constructor makes no key: the encryption key is the
    caller's, or none.  The table starts without indexes. *)
Theorem X18_table_defaults
    (id : string) (props : DynamoDBTableProps) (t : Table) :
  DynamoDBTable cdkTable id (Some props) = Returns t →
  let handed {A : Type} (key : string) (caller : option A) (d : A)
      : option A :=
    match caller with
    | Some v => Some v
    | None => if bool_decide (key ∈ undefinedKeys props) then None else Some d
    end in
  table_id t = id
  ∧ billingMode (superProps t)
    = handed "billingMode" (billingMode props) PAY_PER_REQUEST
  ∧ pointInTimeRecovery (superProps t)
    = handed "pointInTimeRecovery" (pointInTimeRecovery props) true
  ∧ deletionProtection (superProps t)
    = handed "deletionProtection" (deletionProtection props) true
  ∧ encryption (superProps t)
    = handed "encryption" (encryption props) CUSTOMER_MANAGED
  ∧ encryptionKey (superProps t) = encryptionKey props
  ∧ tableName (superProps t) = tableName props
  ∧ readScalingProps (superProps t) = readScalingProps props
  ∧ writeScalingProps (superProps t) = writeScalingProps props
  ∧ globalSecondaryIndexes t = [].
Proof.
  intros Ht%DynamoDBTable_inv. revert Ht. unfold DynamoDBTable. cbv zeta.
  assert (Hhanded : ∀ {A : Type} (key : string) (caller : option A) (d : A),
    spread key (Some (default d caller)) (undefinedKeys props) caller
    = match caller with
      | Some v => Some v
      | None => if bool_decide (key ∈ undefinedKeys props) then None else Some d
      end) by by intros A key [v|] d.
  destruct (billingMode props) as [[]|] eqn:Hmode; cbn -[spread].
  - intros [= <-]. cbn -[spread]. rewrite !Hhanded. by split_and!.
  - destruct (readScalingProps props), (writeScalingProps props); cbn -[spread];
      [|done..].
    intros [= <-]. cbn -[spread]. rewrite !Hhanded. by split_and!.
  - not_provisioned. cbn -[spread]. intros [= <-]. cbn -[spread].
    rewrite !Hhanded. by split_and!.
Qed.

(** X19: auto-scaling is registered for provisioned tables and for nothing
    else.  A table that is built carries two registrations (read and write,
    with the caller's bounds, 60 percent target utilization and cool-downs
    of 60 seconds) when it is provisioned and none otherwise; adding an
    index adds two for that index to a provisioned table and none to any
    other table, and changes neither the table's props nor its billing
    mode.  So the number of registrations is always twice the number of
    indexes plus two, or zero. *)
Theorem X19_scaling_registered_for_provisioned_tables
    (id : string) (props : DynamoDBTableProps) (t : Table) :
  DynamoDBTable cdkTable id (Some props) = Returns t →
  scalingRegistered t
  ∧ (usesProvisionedBillingMode t = true →
     ∃ r w : EnableScalingProps,
       readScalingProps props = Some r
       ∧ writeScalingProps props = Some w
       ∧ autoScaling t
         = [ AutoScaleRead None r
               {| targetUtilizationPercent := 60;
                  scaleInCooldown := Duration_seconds 60;
                  scaleOutCooldown := Duration_seconds 60 |};
             AutoScaleWrite None w
               {| targetUtilizationPercent := 60;
                  scaleInCooldown := Duration_seconds 60;
                  scaleOutCooldown := Duration_seconds 60 |} ])
  ∧ (∀ (t1 t2 : Table) (index : DynamoDBGlobalSecondaryIndexProps),
       scalingRegistered t1 →
       addGlobalSecondaryIndex cdkIndex t1 index = Returns t2 →
       scalingRegistered t2
       ∧ usesProvisionedBillingMode t2 = usesProvisionedBillingMode t1
       ∧ superProps t2 = superProps t1
       ∧ table_id t2 = table_id t1
       ∧ length (globalSecondaryIndexes t2)
         = S (length (globalSecondaryIndexes t1))
       ∧ ∃ scaling : list AutoScaling,
           autoScaling t2 = autoScaling t1 ++ scaling
           ∧ ∀ s : AutoScaling, s ∈ scaling →
               ∃ (r w : EnableScalingProps) (u : UtilizationScalingProps),
                 gsi_readScalingProps index = Some r
                 ∧ gsi_writeScalingProps index = Some w
                 ∧ (s = AutoScaleRead (Some (indexName index)) r u
                    ∨ s = AutoScaleWrite (Some (indexName index)) w u)).
Proof.
  intros Ht%DynamoDBTable_inv. split_and!.
  - revert Ht. unfold DynamoDBTable, scalingRegistered.
    destruct (billingMode props) as [[]|]; simpl.
    + by intros [= <-].
    + destruct (readScalingProps props), (writeScalingProps props); simpl;
        [|done..].
      by intros [= <-].
    + not_provisioned. by intros [= <-].
  - revert Ht. unfold DynamoDBTable.
    destruct (billingMode props) as [[]|]; simpl.
    + by intros [= <-].
    + destruct (readScalingProps props) as [r|], (writeScalingProps props) as [w|];
        simpl; [|done..].
      intros [= <-] _. by exists r, w.
    + not_provisioned. by intros [= <-].
  - intros t1 t2 index Hinv Ht2%addGlobalSecondaryIndex_inv. revert Ht2 Hinv.
    unfold addGlobalSecondaryIndex, scalingRegistered.
    destruct (usesProvisionedBillingMode t1) eqn:Hmode; simpl.
    + destruct (gsi_readScalingProps index) as [r|],
               (gsi_writeScalingProps index) as [w|]; simpl; [|done..].
      intros [= <-] Hinv. simpl. rewrite ?Hmode, !length_app, ?Hinv. simpl.
      split_and!; try done; [lia|lia|].
      eexists. split; [reflexivity|].
      intros s Hs. exists r, w, DEFAULT_UTILIZATION_SCALING_PROPS.
      not_in_list Hs; auto.
    + intros [= <-] Hinv. simpl. rewrite ?Hmode, !length_app, ?Hinv. simpl.
      split_and!; try done; [lia|].
      exists []. split; [|intros s Hs; not_in_list Hs].
      by destruct (gsi_readScalingProps index), (gsi_writeScalingProps index).
Qed.

(** X20: on a table that is not provisioned, [addGlobalSecondaryIndex] adds
    nothing of its own: it checks nothing, hands the index props on exactly
    as given, and registers no scaling, whether or not the index props name
    scaling bounds.  It throws only when the base class does. *)
Theorem X20_index_of_on_demand_table_is_forwarded_as_given
    (this : Table) (index : DynamoDBGlobalSecondaryIndexProps) :
  usesProvisionedBillingMode this = false →
  (∀ msg : string,
     addGlobalSecondaryIndex cdkIndex this index = Throws msg
     ↔ cdkIndex index = Some msg)
  ∧ (∀ t : Table,
       addGlobalSecondaryIndex cdkIndex this index = Returns t →
       globalSecondaryIndexes t = globalSecondaryIndexes this ++ [index]
       ∧ autoScaling t = autoScaling this
       ∧ usesProvisionedBillingMode t = false
       ∧ superProps t = superProps this).
Proof.
  intros Hmode.
  assert (Hindex :
    {| indexName := indexName index;
       gsi_readCapacity :=
         spread "readCapacity" (gsi_readCapacity index)
           (gsi_undefinedKeys index) (gsi_readCapacity index);
       gsi_writeCapacity :=
         spread "writeCapacity" (gsi_writeCapacity index)
           (gsi_undefinedKeys index) (gsi_writeCapacity index);
       gsi_readScalingProps := gsi_readScalingProps index;
       gsi_writeScalingProps := gsi_writeScalingProps index;
       gsi_undefinedKeys := gsi_undefinedKeys index |} = index).
  { destruct index as [n [rc|] [wc|] r w keys]; unfold spread; simpl;
      repeat case_bool_decide; reflexivity. }
  unfold addGlobalSecondaryIndex. rewrite Hmode. cbn [resolveCapacities bind].
  rewrite Hindex. split.
  - intros msg. apply cdk_super_Throws.
  - intros t [_ <-]%cdk_super_Returns. simpl. rewrite app_nil_r. done.
Qed.

End Constructor.

(** At [{ deletionProtection: false, encryption: undefined }]. *)
Lemma X18_table_defaults_witness :
  ∃ t : Table,
    DynamoDBTable accepting "Orders"
      (Some {| tableName := None; billingMode := None;
               readCapacity := None; writeCapacity := None;
               pointInTimeRecovery := None; deletionProtection := Some false;
               encryption := None; encryptionKey := None;
               readScalingProps := None; writeScalingProps := None;
               undefinedKeys := ["encryption"] |})
    = Returns t
    ∧ billingMode (superProps t) = Some PAY_PER_REQUEST
    ∧ pointInTimeRecovery (superProps t) = Some true
    ∧ deletionProtection (superProps t) = Some false
    ∧ encryption (superProps t) = None
    ∧ encryptionKey (superProps t) = None.
Proof.
  eexists. split; [reflexivity|].
  destruct (X18_table_defaults accepting "Orders"
    {| tableName := None; billingMode := None;
       readCapacity := None; writeCapacity := None;
       pointInTimeRecovery := None; deletionProtection := Some false;
       encryption := None; encryptionKey := None;
       readScalingProps := None; writeScalingProps := None;
       undefinedKeys := ["encryption"] |} _ eq_refl)
    as (_ & Hmode & Hpitr & Hdel & Henc & Hkey & _).
  by split_and!.
Defined.

Lemma X19_scaling_registered_witness :
  ∃ t t' : Table,
    DynamoDBTable accepting "Orders" (Some provisionedProps) = Returns t
    ∧ addGlobalSecondaryIndex accepting t provisionedIndexProps = Returns t'
    ∧ scalingRegistered t'
    ∧ length (autoScaling t') = 4%nat.
Proof.
  eexists _, _. split; [reflexivity|]. split; [reflexivity|].
  destruct (X19_scaling_registered_for_provisioned_tables accepting accepting
              "Orders" provisionedProps _ eq_refl) as (Hinv & _ & Hadd).
  destruct (Hadd _ _ provisionedIndexProps Hinv eq_refl) as (Hinv' & _).
  split; [exact Hinv'|reflexivity].
Defined.

Lemma X20_index_of_on_demand_table_witness :
  ∃ t : Table,
    addGlobalSecondaryIndex accepting
      {| table_id := "Orders";
         superProps :=
           {| tableName := None; billingMode := Some PAY_PER_REQUEST;
              readCapacity := None; writeCapacity := None;
              pointInTimeRecovery := Some true; deletionProtection := Some true;
              encryption := Some CUSTOMER_MANAGED; encryptionKey := None;
              readScalingProps := None; writeScalingProps := None;
              undefinedKeys := [] |};
         usesProvisionedBillingMode := false;
         globalSecondaryIndexes := [];
         autoScaling := [] |}
      provisionedIndexProps = Returns t
    ∧ globalSecondaryIndexes t = [provisionedIndexProps]
    ∧ autoScaling t = [].
Proof.
  eexists. split; [reflexivity|].
  destruct (X20_index_of_on_demand_table_is_forwarded_as_given accepting
    {| table_id := "Orders";
       superProps :=
         {| tableName := None; billingMode := Some PAY_PER_REQUEST;
            readCapacity := None; writeCapacity := None;
            pointInTimeRecovery := Some true; deletionProtection := Some true;
            encryption := Some CUSTOMER_MANAGED; encryptionKey := None;
            readScalingProps := None; writeScalingProps := None;
            undefinedKeys := [] |};
       usesProvisionedBillingMode := false;
       globalSecondaryIndexes := [];
       autoScaling := [] |}
    provisionedIndexProps eq_refl) as (_ & Hfwd).
  destruct (Hfwd _ eq_refl) as (Hgsi & Hscaling & _).
  split; [exact Hgsi|exact Hscaling].
Defined.

End TableSpec.

(** ** Numbers as strings *)
Module NumberFacts.




Lemma toString_inj (m n : Z) : toString m = toString n → m = n.
Proof. apply pretty_Z_inj. Qed.

Lemma or_number_nonzero (a : option Z) (d : Z) : d ≠ 0 → or_number a d ≠ 0.
Proof.
  intros Hd. unfold or_number, truthy_number. destruct a as [n|]; [|done].
  destruct (n =? 0) eqn:Hn; simpl; [done|]. by apply Z.eqb_neq.
Qed.

Lemma or_number_explicit (a : option Z) (d v : Z) :
  a = Some v → v ≠ 0 → or_number a d = v.
Proof.
  intros -> Hv. unfold or_number, truthy_number.
  apply Z.eqb_neq in Hv. by rewrite Hv.
Qed.

Lemma or_number_default (a : option Z) (d : Z) :
  a = None ∨ a = Some 0 → or_number a d = d.
Proof. by intros [-> | ->]. Qed.

End NumberFacts.

(** ** The Fargate services and the load balancer *)
Module ServiceSpec.
Import DataIdentifiers DataProtection Logs FargateLogs FargateServices Predicates.
Import JsFacts DataProtectionSpec IdentifierSpec LogsSpec SQSSpec S3Spec.
Import WrapperSpec BucketSpec FailureSpec NumberFacts.

(** The parts of a network-load-balanced service that was built. *)
Lemma NlbFargateService_new_inv
    (cdkPattern : validator NetworkLoadBalancedFargateServiceProps)
    (cdkBucket : validator (S3.BucketProps S3.S3Bucket))
    (stack : Stack) (auditName id : string) (props : NlbFargateServiceProps)
    (r : NlbFargateService) (added : list S3.Construct) :
  NlbFargateService_new cdkPattern cdkBucket stack auditName id props
  = Returns (r, added) →
  addDataProtectionPolicyToFargateContainerLogs stack auditName
    (taskDefinition props) (dataProtectionPolicyProps props)
  = Returns (nlb_logsProtection r)
  ∧ S3.AccessLogsBucket_new cdkBucket 2 "nlb-access-logs"
      (Alb.accessLogsProps (accessLogsS3BucketName props))
    = Returns (accessLogsBucket r, added)
  ∧ nlbFargateService r
    = {| nlb_cluster := ecsCluster props;
         nlb_taskDefinition := taskDefinition props;
         nlb_publicLoadBalancer :=
           if truthy_opt_bool (publicAccessEnabled props) then true else false;
         nlb_desiredCount := or_number (desiredCount props) 1;
         nlb_platformVersion := default Fargate.LATEST (platformVersion props);
         nlb_minHealthyPercent := or_number (minHealthyPercent props) 100;
         nlb_maxHealthyPercent := or_number (maxHealthyPercent props) 200;
         nlb_healthCheckGracePeriod :=
           default (Duration_seconds 60) (healthCheckGracePeriod props);
         nlb_circuitBreaker := resolveCircuitBreaker props |}
  ∧ allowedFrom r
    = match endToEndTlsConfig props with
      | Some _ =>
          [ {| rule_peer := VpcCidrBlock (ecsCluster props);
               rule_port := 9001;
               rule_description :=
                 "Allow only the traffic that originated from within the VPC on port "
                 +:+ toString 9001 |} ]
      | None =>
          [ {| rule_peer := VpcCidrBlock (ecsCluster props);
               rule_port := 80;
               rule_description :=
                 "Allow only the traffic that originated from within the VPC on port 80" |};
            {| rule_peer := VpcCidrBlock (ecsCluster props);
               rule_port := 8080;
               rule_description :=
                 "Allow only the traffic that originated from within the VPC on port 8080" |} ]
      end
  ∧ listenerOverride r
    = match endToEndTlsConfig props with
      | Some _ => Some (443, TCP)
      | None => None
      end
  ∧ targetGroupOverride r
    = match endToEndTlsConfig props with
      | Some _ => Some (9001, TCP)
      | None => None
      end
  ∧ targetGroupAttributes r
    = match endToEndTlsConfig props with
      | Some _ => [("proxy_protocol_v2.enabled", "false")]
      | None => []
      end
      ++ [("deregistration_delay.timeout_seconds",
           deregistrationDelaySeconds props)].
Proof.
  unfold NlbFargateService_new. cbv zeta.
  unfold cdk_super at 1. destruct (cdkPattern _); [done|]. cbn [bind].
  destruct (addDataProtectionPolicyToFargateContainerLogs _ _ _ _)
    as [logs| |]; [|done..].
  cbn [bind].
  destruct (S3.AccessLogsBucket_new _ _ _ _) as [[bucket added']| |]; [|done..].
  cbn [bind].
  destruct (endToEndTlsConfig props); intros [= <- <-]; by split_and!.
Qed.

Lemma AlbFargateService_new_inv
    (cdkService : validator Fargate.FargateServiceProps)
    (stack : Stack) (auditName : string)
    (props : Fargate.AlbFargateServiceProps)
    (taskDefinition : FargateTaskDefinition)
    (policyProps : option CwDataProtectionPolicyProps)
    (r : AlbFargateService) :
  AlbFargateService_new cdkService stack auditName props taskDefinition
    policyProps = Returns r →
  addDataProtectionPolicyToFargateContainerLogs stack auditName
    taskDefinition policyProps = Returns (logsProtection r)
  ∧ service r = Fargate.AlbFargateService_serviceProps props
  ∧ ∃ (container : ContainerDefinition) (port : Z),
      defaultContainer taskDefinition = Some container
      ∧ containerPort container = Returns port
      ∧ ingressRules r
        = [ {| rule_peer := SecurityGroupOf (Fargate.loadBalancer props);
               rule_port := port;
               rule_description :=
                 "Allow the inbound traffic on port " +:+ toString port |} ]
      ∧ targets r = ["FargateService"].
Proof.
  unfold AlbFargateService_new, addTarget. cbv zeta.
  unfold cdk_super at 1. destruct (cdkService _); [done|]. cbn [bind].
  destruct (addDataProtectionPolicyToFargateContainerLogs _ _ _ _)
    as [logs| |]; [|done..].
  cbn [bind].
  destruct (defaultContainer taskDefinition) as [container|]; [|done].
  destruct (containerPort container) as [port| |] eqn:Hport; [|done..].
  cbn [bind]. intros [= <-]. split_and!; [done..|]. by exists container, port.
Qed.

(** The policy that the logs get when the caller gives no policy props. *)
Lemma default_protection
    (stack : Stack) (auditName : string) (taskDefinition : FargateTaskDefinition)
    (container : ContainerDefinition) (logGroup : LogGroup)
    (result : LogsProtection) :
  defaultContainer taskDefinition = Some container →
  tryFindChild "LogGroup" container = Some logGroup →
  addDataProtectionPolicyToFargateContainerLogs stack auditName taskDefinition
    None = Returns result →
  ∃ (logGroup' auditLogGroup : LogGroup) (doc : json),
    serviceLogGroup result = Some logGroup'
    ∧ propertyOverrides (defaultChild logGroup')
      = propertyOverrides (defaultChild logGroup)
        ++ [("DataProtectionPolicy", doc)]
    ∧ dataIdentifierOf 0 doc
      = Some [ ADDRESS_DATA_IDENTIFIER;
               AWS_SECRET_KEY_DATA_IDENTIFIER;
               EMAIL_DATA_IDENTIFIER;
               PHONE_NUM_US_DATA_IDENTIFIER;
               SSN_ES_DATA_IDENTIFIER;
               SSN_US_DATA_IDENTIFIER ]
    ∧ findingsDestinationOf doc
      = Some (if truthy_string auditName
              then getCloudwatchAuditDestination auditName else JObj [])
    ∧ serviceDependencies result = [auditLogGroup]
    ∧ LogGroupConstruct auditLogGroup ∈ created result
    ∧ logGroupName auditLogGroup = auditName
    ∧ retention auditLogGroup = Some TEN_YEARS.
Proof.
  intros Hc Hlg.
  rewrite (addDataProtectionPolicyToFargateContainerLogs_found
             _ _ _ _ _ _ Hc Hlg).
  cbn. intros [= <-]. do 3 eexists. cbn.
  split_and!; try reflexivity. in_list.
Qed.

(** X21: with no policy props at all, both Fargate services still put a
    data-protection policy on the log group of the default container, when
    it has one: the policy lists the six default identifiers, and its audit
    findings go to an audit log group that the service makes, keeps for ten
    years and depends on. *)
Theorem X21_service_logs_are_protected_without_policy_props
    (stack : Stack) (auditName : string) (taskDef : FargateTaskDefinition)
    (container : ContainerDefinition) (logGroup : LogGroup) :
  defaultContainer taskDef = Some container →
  tryFindChild "LogGroup" container = Some logGroup →
  let protected (result : LogsProtection) : Prop :=
    ∃ (logGroup' auditLogGroup : LogGroup) (doc : json),
      serviceLogGroup result = Some logGroup'
      ∧ propertyOverrides (defaultChild logGroup')
        = propertyOverrides (defaultChild logGroup)
          ++ [("DataProtectionPolicy", doc)]
      ∧ dataIdentifierOf 0 doc
        = Some [ ADDRESS_DATA_IDENTIFIER;
                 AWS_SECRET_KEY_DATA_IDENTIFIER;
                 EMAIL_DATA_IDENTIFIER;
                 PHONE_NUM_US_DATA_IDENTIFIER;
                 SSN_ES_DATA_IDENTIFIER;
                 SSN_US_DATA_IDENTIFIER ]
      ∧ findingsDestinationOf doc
        = Some (if truthy_string auditName
                then getCloudwatchAuditDestination auditName else JObj [])
      ∧ serviceDependencies result = [auditLogGroup]
      ∧ LogGroupConstruct auditLogGroup ∈ created result
      ∧ logGroupName auditLogGroup = auditName
      ∧ retention auditLogGroup = Some TEN_YEARS in
  (∀ (cdkService : validator Fargate.FargateServiceProps)
     (props : Fargate.AlbFargateServiceProps) (r : AlbFargateService),
     AlbFargateService_new cdkService stack auditName props taskDef None
     = Returns r →
     protected (logsProtection r))
  ∧ (∀ (cdkPattern : validator NetworkLoadBalancedFargateServiceProps)
       (cdkBucket : validator (S3.BucketProps S3.S3Bucket))
       (id : string) (props : NlbFargateServiceProps)
       (r : NlbFargateService) (added : list S3.Construct),
       taskDefinition props = taskDef →
       dataProtectionPolicyProps props = None →
       NlbFargateService_new cdkPattern cdkBucket stack auditName id props
       = Returns (r, added) →
       protected (nlb_logsProtection r)).
Proof.
  intros Hc Hlg. cbv zeta. split.
  - intros cdkService props r (Hlogs & _)%AlbFargateService_new_inv.
    by apply (default_protection stack auditName taskDef container).
  - intros cdkPattern cdkBucket id props r added Htd Hnone
      (Hlogs & _)%NlbFargateService_new_inv.
    rewrite Htd, Hnone in Hlogs.
    by apply (default_protection stack auditName taskDef container).
Qed.

Lemma X21_service_logs_are_protected_witness :
  ∃ (r : AlbFargateService) (logGroup' : LogGroup) (doc : json),
    AlbFargateService_new accepting
      {| region := "eu-west-1"; partition := "aws"; account := "123456789012" |}
      "audit" Fargate.zeroMinHealthyProps
      {| defaultContainer :=
           Some {| containerPort := Returns 8443;
                   children :=
                     [("LogGroup",
                       {| logGroup_id := "LogGroup"; logGroupName := "service";
                          retention := None; encryptionKey := None;
                          defaultChild := {| propertyOverrides := [] |} |})] |} |}
      None = Returns r
    ∧ serviceLogGroup (logsProtection r) = Some logGroup'
    ∧ propertyOverrides (defaultChild logGroup')
      = [("DataProtectionPolicy", doc)]
    ∧ findingsDestinationOf doc = Some (getCloudwatchAuditDestination "audit").
Proof.
  eexists.
  destruct (proj1 (X21_service_logs_are_protected_without_policy_props
    {| region := "eu-west-1"; partition := "aws"; account := "123456789012" |}
    "audit"
    {| defaultContainer :=
         Some {| containerPort := Returns 8443;
                 children :=
                   [("LogGroup",
                     {| logGroup_id := "LogGroup"; logGroupName := "service";
                        retention := None; encryptionKey := None;
                        defaultChild := {| propertyOverrides := [] |} |})] |} |}
    _ _ eq_refl eq_refl) accepting Fargate.zeroMinHealthyProps _ eq_refl)
    as (logGroup' & auditLogGroup & doc & Hlg & Hover & _ & Hdest & _).
  exists logGroup', doc. split; [reflexivity|]. by split_and!.
Defined.

(** X22: the numbers both Fargate services hand on are never zero: a
    [desiredCount], [minHealthyPercent] or [maxHealthyPercent] of [0] is
    replaced by the default (1, 100, 200) like a missing one, and any other
    number is handed on as it is. *)
Theorem X22_service_counts_are_never_zero :
  (∀ (cdkPattern : validator NetworkLoadBalancedFargateServiceProps)
     (cdkBucket : validator (S3.BucketProps S3.S3Bucket))
     (stack : Stack) (auditName id : string) (props : NlbFargateServiceProps)
     (r : NlbFargateService) (added : list S3.Construct),
     NlbFargateService_new cdkPattern cdkBucket stack auditName id props
     = Returns (r, added) →
     let p := nlbFargateService r in
     nlb_desiredCount p ≠ 0
     ∧ nlb_minHealthyPercent p ≠ 0
     ∧ nlb_maxHealthyPercent p ≠ 0
     ∧ (∀ v : Z, v ≠ 0 →
          (desiredCount props = Some v → nlb_desiredCount p = v)
          ∧ (minHealthyPercent props = Some v → nlb_minHealthyPercent p = v)
          ∧ (maxHealthyPercent props = Some v → nlb_maxHealthyPercent p = v))
     ∧ (desiredCount props = None ∨ desiredCount props = Some 0 →
        nlb_desiredCount p = 1)
     ∧ (minHealthyPercent props = None ∨ minHealthyPercent props = Some 0 →
        nlb_minHealthyPercent p = 100)
     ∧ (maxHealthyPercent props = None ∨ maxHealthyPercent props = Some 0 →
        nlb_maxHealthyPercent p = 200))
  ∧ (∀ props : Fargate.AlbFargateServiceProps,
       let p := Fargate.AlbFargateService_serviceProps props in
       Fargate.fs_desiredCount p ≠ 0
       ∧ Fargate.fs_minHealthyPercent p ≠ 0
       ∧ Fargate.fs_maxHealthyPercent p ≠ 0).
Proof.
  split.
  - intros cdkPattern cdkBucket stack auditName id props r added
      (_ & _ & -> & _)%NlbFargateService_new_inv.
    cbv zeta. cbn [nlb_desiredCount nlb_minHealthyPercent nlb_maxHealthyPercent].
    split_and!; try (by apply or_number_nonzero).
    + intros v Hv. split_and!; intros Heq; by apply or_number_explicit.
    + apply or_number_default.
    + apply or_number_default.
    + apply or_number_default.
  - intros props. cbv zeta. unfold Fargate.AlbFargateService_serviceProps.
    cbn [Fargate.fs_desiredCount Fargate.fs_minHealthyPercent
         Fargate.fs_maxHealthyPercent].
    split_and!; by apply or_number_nonzero.
Qed.

Lemma X22_service_counts_witness :
  ∃ (r : NlbFargateService) (added : list S3.Construct),
    NlbFargateService_new accepting accepting
      {| region := "eu-west-1"; partition := "aws"; account := "123456789012" |}
      "audit" "Service"
      {| ecsCluster := "Cluster";
         taskDefinition := exampleTaskDefinition;
         accessLogsS3BucketName := None; publicAccessEnabled := None;
         platformVersion := None; desiredCount := Some 0;
         minHealthyPercent := Some 0; maxHealthyPercent := Some 150;
         healthCheckGracePeriod := None; deregistrationDelay := None;
         endToEndTlsConfig := None; circuitBreakerEnabled := None;
         circuitBreaker := None; dataProtectionPolicyProps := None |}
    = Returns (r, added)
    ∧ nlb_desiredCount (nlbFargateService r) = 1
    ∧ nlb_minHealthyPercent (nlbFargateService r) = 100
    ∧ nlb_maxHealthyPercent (nlbFargateService r) = 150.
Proof.
  eexists _, _.
  destruct (proj1 X22_service_counts_are_never_zero accepting accepting
    {| region := "eu-west-1"; partition := "aws"; account := "123456789012" |}
    "audit" "Service"
    {| ecsCluster := "Cluster";
       taskDefinition := exampleTaskDefinition;
       accessLogsS3BucketName := None; publicAccessEnabled := None;
       platformVersion := None; desiredCount := Some 0;
       minHealthyPercent := Some 0; maxHealthyPercent := Some 150;
       healthCheckGracePeriod := None; deregistrationDelay := None;
       endToEndTlsConfig := None; circuitBreakerEnabled := None;
       circuitBreaker := None; dataProtectionPolicyProps := None |}
    _ _ eq_refl) as (_ & _ & _ & Hexplicit & Hcount & Hmin & _).
  split; [reflexivity|]. split_and!.
  - apply Hcount. by right.
  - apply Hmin. by right.
  - by apply (Hexplicit 150).
Defined.

(** X23: the network-load-balanced service has a deployment circuit breaker
    unless [circuitBreakerEnabled] is [false]; in that case a circuit
    breaker the caller gave is dropped.  The circuit breaker is the caller's
    when there is one and otherwise the one that does not roll back.  The
    load balancer is public only when [publicAccessEnabled] is [true]. *)
Theorem X23_circuit_breaker_unless_switched_off
    (cdkPattern : validator NetworkLoadBalancedFargateServiceProps)
    (cdkBucket : validator (S3.BucketProps S3.S3Bucket))
    (stack : Stack) (auditName id : string) (props : NlbFargateServiceProps)
    (r : NlbFargateService) (added : list S3.Construct) :
  NlbFargateService_new cdkPattern cdkBucket stack auditName id props
  = Returns (r, added) →
  let p := nlbFargateService r in
  (nlb_circuitBreaker p = None ↔ circuitBreakerEnabled props = Some false)
  ∧ (∀ breaker : Fargate.DeploymentCircuitBreaker,
       nlb_circuitBreaker p = Some breaker →
       breaker
       = default {| Fargate.rollback := false |} (circuitBreaker props))
  ∧ (nlb_publicLoadBalancer p = true ↔ publicAccessEnabled props = Some true).
Proof.
  intros (_ & _ & -> & _)%NlbFargateService_new_inv. cbv zeta.
  cbn [nlb_circuitBreaker nlb_publicLoadBalancer]. unfold resolveCircuitBreaker.
  split_and!.
  - destruct (circuitBreakerEnabled props) as [[]|]; simpl; split; done.
  - intros breaker.
    destruct (circuitBreakerEnabled props) as [[]|]; simpl;
      first [by intros [= <-]|done].
  - destruct (publicAccessEnabled props) as [[]|]; simpl; split; done.
Qed.

Lemma X23_circuit_breaker_witness :
  ∃ (r : NlbFargateService) (added : list S3.Construct),
    NlbFargateService_new accepting accepting
      {| region := "eu-west-1"; partition := "aws"; account := "123456789012" |}
      "audit" "Service"
      {| ecsCluster := "Cluster";
         taskDefinition := exampleTaskDefinition;
         accessLogsS3BucketName := None; publicAccessEnabled := None;
         platformVersion := None; desiredCount := None;
         minHealthyPercent := None; maxHealthyPercent := None;
         healthCheckGracePeriod := None; deregistrationDelay := None;
         endToEndTlsConfig := None; circuitBreakerEnabled := Some false;
         circuitBreaker := Some {| Fargate.rollback := true |};
         dataProtectionPolicyProps := None |}
    = Returns (r, added)
    ∧ nlb_circuitBreaker (nlbFargateService r) = None.
Proof.
  eexists _, _.
  destruct (X23_circuit_breaker_unless_switched_off accepting accepting
    {| region := "eu-west-1"; partition := "aws"; account := "123456789012" |}
    "audit" "Service"
    {| ecsCluster := "Cluster";
       taskDefinition := exampleTaskDefinition;
       accessLogsS3BucketName := None; publicAccessEnabled := None;
       platformVersion := None; desiredCount := None;
       minHealthyPercent := None; maxHealthyPercent := None;
       healthCheckGracePeriod := None; deregistrationDelay := None;
       endToEndTlsConfig := None; circuitBreakerEnabled := Some false;
       circuitBreaker := Some {| Fargate.rollback := true |};
       dataProtectionPolicyProps := None |}
    _ _ eq_refl) as (Hnone & _).
  split; [reflexivity|]. by apply Hnone.
Defined.

(** X24: what the services let in.  The network-load-balanced service
    admits traffic from the address range of the cluster's VPC only: on the
    relay port 9001 alone when end-to-end TLS is configured (the listener is
    then moved to port 443 and the target group to port 9001, both TCP), and
    on the ports 80 and 8080 alone when it is not (listener and target group
    are then left as they are).  An application-load-balanced service that
    is built has a task definition with a default container; it admits
    traffic from the security group of its load balancer only, on one port,
    the port of that container, and it is the one target added to the
    target group of the load balancer.  On a task definition without
    containers the constructor throws. *)
Theorem X24_services_admit_traffic_on_their_ports_only :
  (∀ (cdkPattern : validator NetworkLoadBalancedFargateServiceProps)
     (cdkBucket : validator (S3.BucketProps S3.S3Bucket))
     (stack : Stack) (auditName id : string) (props : NlbFargateServiceProps)
     (r : NlbFargateService) (added : list S3.Construct),
     NlbFargateService_new cdkPattern cdkBucket stack auditName id props
     = Returns (r, added) →
     (∀ rule : IngressRule, rule ∈ allowedFrom r →
        rule_peer rule = VpcCidrBlock (ecsCluster props))
     ∧ match endToEndTlsConfig props with
       | Some _ =>
           rule_port <$> allowedFrom r = [9001]
           ∧ listenerOverride r = Some (443, TCP)
           ∧ targetGroupOverride r = Some (9001, TCP)
       | None =>
           rule_port <$> allowedFrom r = [80; 8080]
           ∧ listenerOverride r = None
           ∧ targetGroupOverride r = None
       end)
  ∧ (∀ (cdkService : validator Fargate.FargateServiceProps)
       (stack : Stack) (auditName : string)
       (props : Fargate.AlbFargateServiceProps)
       (taskDef : FargateTaskDefinition)
       (policyProps : option CwDataProtectionPolicyProps)
       (r : AlbFargateService),
       AlbFargateService_new cdkService stack auditName props taskDef
         policyProps = Returns r →
       ∃ (container : ContainerDefinition) (rule : IngressRule),
         defaultContainer taskDef = Some container
         ∧ ingressRules r = [rule]
         ∧ rule_peer rule = SecurityGroupOf (Fargate.loadBalancer props)
         ∧ containerPort container = Returns (rule_port rule)
         ∧ rule_description rule
           = "Allow the inbound traffic on port " +:+ toString (rule_port rule)
         ∧ targets r = ["FargateService"])
  ∧ (∀ (cdkService : validator Fargate.FargateServiceProps)
       (stack : Stack) (auditName : string)
       (props : Fargate.AlbFargateServiceProps)
       (taskDef : FargateTaskDefinition)
       (policyProps : option CwDataProtectionPolicyProps),
       defaultContainer taskDef = None →
       ∃ msg : string,
         AlbFargateService_new cdkService stack auditName props taskDef
           policyProps = Throws msg).
Proof.
  split_and!.
  - intros cdkPattern cdkBucket stack auditName id props r added
      (_ & _ & _ & Hrules & Hlistener & Htarget & _)%NlbFargateService_new_inv.
    rewrite Hrules, Hlistener, Htarget.
    destruct (endToEndTlsConfig props); (split; [|done]);
      intros rule Hrule; not_in_list Hrule.
  - intros cdkService stack auditName props taskDef policyProps r
      (_ & _ & container & port & Hc & Hport & Hrules & Htargets)%AlbFargateService_new_inv.
    exists container. eexists. split_and!; [done|exact Hrules|done..].
  - intros cdkService stack auditName props taskDef policyProps Hnone.
    unfold AlbFargateService_new, addTarget. cbv zeta.
    unfold cdk_super at 1. destruct (cdkService _) as [msg|]; [by exists msg|].
    cbn [bind].
    unfold addDataProtectionPolicyToFargateContainerLogs,
      getServiceContainerForFargateService.
    rewrite Hnone. cbn [bind]. by eexists.
Qed.

Lemma X24_services_admit_traffic_witness :
  (∃ (r : NlbFargateService) (added : list S3.Construct),
     NlbFargateService_new accepting accepting
       {| region := "eu-west-1"; partition := "aws"; account := "123456789012" |}
       "audit" "Service"
       {| ecsCluster := "Cluster";
          taskDefinition := exampleTaskDefinition;
          accessLogsS3BucketName := None; publicAccessEnabled := None;
          platformVersion := None; desiredCount := None;
          minHealthyPercent := None; maxHealthyPercent := None;
          healthCheckGracePeriod := None; deregistrationDelay := None;
          endToEndTlsConfig := Some Build_EndToEndTlsConfig;
          circuitBreakerEnabled := None;
          circuitBreaker := None; dataProtectionPolicyProps := None |}
     = Returns (r, added)
     ∧ rule_port <$> allowedFrom r = [9001]
     ∧ listenerOverride r = Some (443, TCP))
  ∧ (∃ r : AlbFargateService,
       AlbFargateService_new accepting
         {| region := "eu-west-1"; partition := "aws";
            account := "123456789012" |}
         "audit" Fargate.zeroMinHealthyProps exampleTaskDefinition None
       = Returns r
       ∧ rule_port <$> ingressRules r = [8443]
       ∧ targets r = ["FargateService"])
  ∧ (∃ msg : string,
       AlbFargateService_new accepting
         {| region := "eu-west-1"; partition := "aws";
            account := "123456789012" |}
         "audit" Fargate.zeroMinHealthyProps {| defaultContainer := None |} None
       = Throws msg).
Proof.
  destruct X24_services_admit_traffic_on_their_ports_only
    as (Hnlb & Halb & Hthrows).
  split_and!.
  - eexists _, _.
    destruct (Hnlb accepting accepting
      {| region := "eu-west-1"; partition := "aws"; account := "123456789012" |}
      "audit" "Service"
      {| ecsCluster := "Cluster";
         taskDefinition := exampleTaskDefinition;
         accessLogsS3BucketName := None; publicAccessEnabled := None;
         platformVersion := None; desiredCount := None;
         minHealthyPercent := None; maxHealthyPercent := None;
         healthCheckGracePeriod := None; deregistrationDelay := None;
         endToEndTlsConfig := Some Build_EndToEndTlsConfig;
         circuitBreakerEnabled := None;
         circuitBreaker := None; dataProtectionPolicyProps := None |}
      _ _ eq_refl) as (_ & Hports & Hlistener & _).
    split; [reflexivity|]. by split.
  - eexists.
    destruct (Halb accepting
      {| region := "eu-west-1"; partition := "aws"; account := "123456789012" |}
      "audit" Fargate.zeroMinHealthyProps exampleTaskDefinition None _ eq_refl)
      as (container & rule & Hc & Hrules & _ & Hport & _ & Htargets).
    split; [reflexivity|]. split; [|exact Htargets].
    rewrite Hrules. simpl. injection Hc as <-. simpl in Hport.
    by injection Hport as <-.
  - apply Hthrows. reflexivity.
Defined.



(** X26: the access-log bucket of a load balancer, application or network,
    has the fixed profile of an access-log bucket whatever the props of the
    load balancer are: S3-managed encryption without a key, versioning,
    no public access, no log bucket of its own.  It always denies insecure
    transport, since the load balancers pass no choice on.  Its name is the
    name the caller gave, as it is, or none; nothing is derived and no
    length is checked.  The bucket is the only construct added. *)
Theorem X26_load_balancer_logs_go_to_a_locked_down_bucket :
  let lockedDown (name : option string) (b : S3.S3Bucket)
        (added : list S3.Construct) : Prop :=
    added = []
    ∧ ∃ p : S3.BucketProps S3.S3Bucket,
        S3.superPropsOf b = Some p
        ∧ S3.bucketName p = name
        ∧ S3.encryption p = Some S3.S3_MANAGED
        ∧ S3.encryptionKey p = None
        ∧ S3.versioned p = Some true
        ∧ S3.blockPublicAccess p = Some S3.BLOCK_ALL
        ∧ S3.serverAccessLogsBucket p = None
        ∧ (∃ st : PolicyStatement,
             st ∈ S3.resourcePolicyOf b ∧ isSecureTransportDeny st = true)
        ∧ (∀ st : PolicyStatement,
             st ∈ S3.resourcePolicyOf b → isRequireKmsDeny st = false) in
  (∀ (cdkBefore cdkAfter : validator Alb.ApplicationLoadBalancerProps)
     (cdkBucket : validator (S3.BucketProps S3.S3Bucket))
     (id : string) (props : Alb.ApplicationLoadBalancerProps)
     (lb : Alb.LoadBalancer) (added : list S3.Construct),
     Alb.CustomApplicationLoadBalancer cdkBefore cdkAfter cdkBucket id props
     = Returns (lb, added) →
     lockedDown (Alb.accessLogsS3BucketName props) (Alb.accessLogsBucket lb)
       added)
  ∧ (∀ (cdkPattern : validator NetworkLoadBalancedFargateServiceProps)
       (cdkBucket : validator (S3.BucketProps S3.S3Bucket))
       (stack : Stack) (auditName id : string) (props : NlbFargateServiceProps)
       (r : NlbFargateService) (added : list S3.Construct),
       NlbFargateService_new cdkPattern cdkBucket stack auditName id props
       = Returns (r, added) →
       lockedDown (accessLogsS3BucketName props) (accessLogsBucket r) added).
Proof.
  cbv zeta.
  assert (Hbucket : ∀ (cdkBucket : validator (S3.BucketProps S3.S3Bucket))
            (id : string) (name : option string)
            (b : S3.S3Bucket) (added : list S3.Construct),
    S3.AccessLogsBucket_new cdkBucket 2 id (Alb.accessLogsProps name)
    = Returns (b, added) →
    added = []
    ∧ ∃ p : S3.BucketProps S3.S3Bucket,
        S3.superPropsOf b = Some p
        ∧ S3.bucketName p = name
        ∧ S3.encryption p = Some S3.S3_MANAGED
        ∧ S3.encryptionKey p = None
        ∧ S3.versioned p = Some true
        ∧ S3.blockPublicAccess p = Some S3.BLOCK_ALL
        ∧ S3.serverAccessLogsBucket p = None
        ∧ (∃ st : PolicyStatement,
             st ∈ S3.resourcePolicyOf b ∧ isSecureTransportDeny st = true)
        ∧ (∀ st : PolicyStatement,
             st ∈ S3.resourcePolicyOf b → isRequireKmsDeny st = false)).
  { intros cdkBucket id name b added [-> ->]%AccessLogsBucket_new_inv.
    split; [done|].
    destruct (accessLogs_profile id (Alb.accessLogsProps name))
      as (p & Hp & Hname & Henc & Hkey & Hver & Hblock & _ & _ & Hlogs & _ & _
          & Hnokms & Hdeny).
    exists p. split_and!; try done. by apply Hdeny. }
  split.
  - intros cdkBefore cdkAfter cdkBucket id props lb added.
    unfold Alb.CustomApplicationLoadBalancer.
    unfold cdk_super at 1. destruct (cdkBefore _); [done|]. cbn [bind].
    destruct (S3.AccessLogsBucket_new _ _ _ _) as [[bucket added']| |] eqn:Hb;
      [|done..].
    cbn [bind]. intros [_ [= <- <-]]%cdk_super_Returns.
    by apply (Hbucket cdkBucket "alb-access-logs").
  - intros cdkPattern cdkBucket stack auditName id props r added
      (_ & Hb & _)%NlbFargateService_new_inv.
    by apply (Hbucket cdkBucket "nlb-access-logs").
Qed.

Lemma X26_load_balancer_logs_witness :
  ∃ (lb : Alb.LoadBalancer) (added : list S3.Construct)
    (p : S3.BucketProps S3.S3Bucket),
    Alb.CustomApplicationLoadBalancer accepting accepting accepting "Alb"
      {| Alb.vpc := "Vpc";
         Alb.domainProps :=
           {| Alb.hostedZone := {| Alb.zoneName := "example.com" |};
              Alb.domainNamePrefix := "api";
              Alb.enableRegionalEndpoint := None;
              Alb.domain_region := None |};
         Alb.listenerPort := None; Alb.targetGroupPort := None;
         Alb.accessLogsS3BucketName := Some "alb-logs";
         Alb.idleTimeout := None |}
    = Returns (lb, added)
    ∧ S3.superPropsOf (Alb.accessLogsBucket lb) = Some p
    ∧ S3.bucketName p = Some "alb-logs"
    ∧ S3.encryption p = Some S3.S3_MANAGED.
Proof.
  eexists _, _.
  destruct (proj1 X26_load_balancer_logs_go_to_a_locked_down_bucket
    accepting accepting accepting "Alb"
    {| Alb.vpc := "Vpc";
       Alb.domainProps :=
         {| Alb.hostedZone := {| Alb.zoneName := "example.com" |};
            Alb.domainNamePrefix := "api";
            Alb.enableRegionalEndpoint := None;
            Alb.domain_region := None |};
       Alb.listenerPort := None; Alb.targetGroupPort := None;
       Alb.accessLogsS3BucketName := Some "alb-logs";
       Alb.idleTimeout := None |}
    _ _ eq_refl) as (_ & p & Hp & Hname & Henc & _).
  exists p. split; [reflexivity|]. by split_and!.
Defined.

End ServiceSpec.

(** ** The environment of the relay sidecar *)
Module RelaySpec.
Import JlbRelay NumberFacts WrapperSpec.

(** X27: for a connection limit that is a safe integer and not negative,
    the relay gets one worker for every hundred connections begun: the
    number of workers [w] written to [RELAY_WORKERS] is at least one and
    satisfies [100 * (w - 1) <= maxConnections < 100 * w].  The limit
    written to [RELAY_UPSTREAM_MAX_CONNECTIONS] is the caller's less the two
    connections kept for health checks; it is below zero for a limit under
    two, which the constructor does not refuse.  Both are written in
    decimal digits.  (Beyond the safe integers the numbers of JavaScript
    are no longer the integers: the division rounds, and from [10^21] on
    [toString] writes an exponent.) *)
Theorem X27_one_relay_worker_per_hundred_connections
    (random : string) (props : JlbRelaySidecarProps) :
  0 ≤ maxConnections props ≤ MAX_SAFE_INTEGER →
  ∃ workers upstream : Z,
    property "RELAY_WORKERS" (environmentVars random props)
    = Some (toString workers)
    ∧ property "RELAY_UPSTREAM_MAX_CONNECTIONS" (environmentVars random props)
      = Some (toString upstream)
    ∧ 1 ≤ workers
    ∧ 100 * (workers - 1) ≤ maxConnections props < 100 * workers
    ∧ upstream = maxConnections props - 2
    ∧ (upstream < 0 ↔ maxConnections props < 2)
    ∧ isSafeInteger workers
    ∧ isSafeInteger upstream.
Proof.
  intros [Hmax Hsafe]. unfold isSafeInteger, MAX_SAFE_INTEGER in *.
  exists (trunc_quotient (maxConnections props) 100 + 1),
         (maxConnections props - 2).
  unfold environmentVars, trunc_quotient.
  pose proof (Z.quot_rem' (maxConnections props) 100) as Hqr.
  pose proof (Z.rem_bound_pos (maxConnections props) 100 Hmax) as Hrem.
  pose proof (Z.quot_pos (maxConnections props) 100 Hmax) as Hquot.
  split_and!; [by case_bool_decide|by case_bool_decide|lia..].
Qed.

Lemma X27_one_relay_worker_witness :
  property "RELAY_WORKERS"
    (environmentVars "k3x9"
       {| appName := "orders"; appContainerDefinition := "App";
          stageContext_name := "Prod"; certificateMaterialSet := "cert";
          maxConnections := 250; servicePort := None;
          cpu := None; memoryLimitMiB := None; memoryReservationMiB := None |})
  = Some "3".
Proof.
  destruct (X27_one_relay_worker_per_hundred_connections "k3x9"
    {| appName := "orders"; appContainerDefinition := "App";
       stageContext_name := "Prod"; certificateMaterialSet := "cert";
       maxConnections := 250; servicePort := None;
       cpu := None; memoryLimitMiB := None; memoryReservationMiB := None |})
    as (workers & upstream & Hw & _ & _ & Hbounds & _).
  { split; [simpl; lia|by vm_compute]. }
  simpl in Hbounds. assert (workers = 3) as -> by lia. exact Hw.
Defined.

(** X28: the relay forwards to one port, written to both
    [RELAY_UPSTREAM_PORT] and [RELAY_HTTPS_UPSTREAM_PORT]: the caller's
    [servicePort], or 8080 when there is none or when it is [0]; the port
    is never [0].  It listens on port 9001, the one port mapped for its
    container.  [DEPLOYMENT_ID] is set exactly for the stage ['Dev'].  No
    variable is set twice. *)
Theorem X28_relay_ports (random : string) (props : JlbRelaySidecarProps) :
  let env := environment (jlbRelayContainer (JlbRelaySidecar_new random props)) in
  (∃ port : Z,
     property "RELAY_UPSTREAM_PORT" env = Some (toString port)
     ∧ property "RELAY_HTTPS_UPSTREAM_PORT" env = Some (toString port)
     ∧ port ≠ 0
     ∧ (∀ v : Z, servicePort props = Some v → v ≠ 0 → port = v)
     ∧ (servicePort props = None ∨ servicePort props = Some 0 → port = 8080))
  ∧ property "RELAY_HTTPS_DOWNSTREAM_PORT" env = Some (toString 9001)
  ∧ portMappings (jlbRelayContainer (JlbRelaySidecar_new random props)) = [9001]
  ∧ (property "DEPLOYMENT_ID" env
     = if decide (stageContext_name props = "Dev") then Some random else None)
  ∧ NoDup (fst <$> env).
Proof.
  cbv zeta. cbn [JlbRelaySidecar_new jlbRelayContainer environment portMappings].
  unfold environmentVars.
  split_and!.
  - exists (or_number (servicePort props) 8080).
    split_and!.
    + destruct (servicePort props) as [v|]; simpl;
        [destruct (truthy_number v)|]; by case_bool_decide.
    + destruct (servicePort props) as [v|]; simpl;
        [destruct (truthy_number v)|]; by case_bool_decide.
    + by apply or_number_nonzero.
    + intros v Hv Hne. by apply or_number_explicit.
    + apply or_number_default.
  - by case_bool_decide.
  - done.
  - destruct (decide _) as [Hdev|Hdev].
    + by rewrite bool_decide_eq_true_2.
    + by rewrite bool_decide_eq_false_2.
  - case_bool_decide; IdentifierSpec.by_evaluation.
Qed.

End RelaySpec.
